(** * My Music Discovery Tool: a model of [spotify_weekly.py]

    The development embeds the class [MusicDiscoveryTool] of
    [src/spotify_weekly.py]: the release scanner with its partial-date
    handling, the de-duplication, the ranking and truncation of the track
    list, the related-artist expansion, the playlist publisher and the
    main flow [run].

    Conventions of the model.
    - Python [str] values are [string]s, one character for one code point:
      the model covers the texts whose code points are below 256.  On these
      [\d] is [0-9], and [str.lower] changes the capitals [A-Z] and the
      accented capitals of the code points 192 to 222 (but 215, the
      multiplication sign), each to the code point 32 above it.
    - Python [int] values are in [Z]; list lengths and indices are [nat].
    - A [datetime] is kept as its proleptic Gregorian day number together
      with the microsecond within the day; comparing two such pairs is the
      comparison Python makes on the fields.
    - The remote service is a record of functions from a request to its
      answer or to the exception it raises; every request and every [print]
      is recorded, in order, in a trace of events.
    - A function body runs in a small monad carrying the local mutable
      variables, the trace and a possible exception. *)

From Stdlib Require Import ZArith String Ascii List Lia Bool.
From Stdlib Require Import Sorting.Sorted Sorting.Permutation.
From stdpp Require Import base option list gmap strings sorting.

Import ListNotations.
Set Warnings "-clear-no-such-hyp".
Local Open Scope string_scope.
Local Open Scope list_scope.

(** ** Characters and strings *)

Module Str.

Definition code (c : ascii) : Z := Z.of_N (N_of_ascii c).

Definition between (lo hi : ascii) (c : ascii) : bool :=
  ((code lo <=? code c) && (code c <=? code hi))%Z.

(** [\d] of the [re] module: among the code points below 256 the decimal
    digits are [0-9]. *)
Definition is_digit (c : ascii) : bool := between "0" "9" c.

Definition digit_value (c : ascii) : Z := (code c - 48)%Z.

(** The characters [str.lower] changes, among the code points below 256:
    [A-Z] (65 to 90), the accented capitals from A grave to O diaeresis
    (192 to 214) and from O stroke to Thorn (216 to 222). *)
Definition is_capital (c : ascii) : bool :=
  between "A" "Z" c
  || between (ascii_of_nat 192) (ascii_of_nat 214) c
  || between (ascii_of_nat 216) (ascii_of_nat 222) c.

(** [str.lower] on one character: the small form of a capital is 32 code
    points above it, and every other character stays (among them the
    sharp s, the micro sign and the y diaeresis, whose capitals lie
    beyond 255). *)
Definition lower_char (c : ascii) : ascii :=
  if is_capital c
  then ascii_of_N (N_of_ascii c + 32)
  else c.

(** [str.lower]. *)
Fixpoint lower (s : string) : string :=
  match s with
  | EmptyString => EmptyString
  | String c r => String (lower_char c) (lower r)
  end.

(** [a < b] on [str]: code point by code point, a proper prefix first. *)
Definition lt (a b : string) : bool := String.ltb a b.

(** [a <= b] on [str]. *)
Definition le (a b : string) : bool := String.leb a b.

End Str.

(** ** Dates *)

Record date := Date { year : Z; month : Z; day : Z }.

(** [datetime]: the day number of the date ([date.toordinal()]) and the
    microsecond within that day. *)
Record datetime := DateTime { ordinal : Z; microsecond_of_day : Z }.

(** The exceptions the program meets; all are subclasses of [Exception]. *)
Inductive exn :=
| ValueError
| OverflowError
| ApiError (reason : string).

Inductive result (A : Type) :=
| Ok (a : A)
| Raise (e : exn).
Arguments Ok {A} a.
Arguments Raise {A} e.

Module Calendar.
Local Open Scope Z_scope.

Definition MINYEAR : Z := 1.
Definition MAXORDINAL : Z := 3652059.

(** [_is_leap] *)
Definition is_leap (y : Z) : bool :=
  (y mod 4 =? 0) && (negb (y mod 100 =? 0) || (y mod 400 =? 0)).

(** [_days_in_month] *)
Definition days_in_month (y m : Z) : Z :=
  if m =? 2 then (if is_leap y then 29 else 28)
  else if (m =? 4) || (m =? 6) || (m =? 9) || (m =? 11) then 30
  else 31.

(** [_days_before_year] *)
Definition days_before_year (y : Z) : Z :=
  let p := y - 1 in p * 365 + p / 4 - p / 100 + p / 400.

(** [_DAYS_BEFORE_MONTH], for a year that is not a leap year. *)
Definition DAYS_BEFORE_MONTH (m : Z) : Z :=
  match m with
  | 1 => 0 | 2 => 31 | 3 => 59 | 4 => 90 | 5 => 120 | 6 => 151
  | 7 => 181 | 8 => 212 | 9 => 243 | 10 => 273 | 11 => 304 | _ => 334
  end.

(** [_days_before_month] *)
Definition days_before_month (y m : Z) : Z :=
  DAYS_BEFORE_MONTH m + (if (2 <? m) && is_leap y then 1 else 0).

(** [_ymd2ord] *)
Definition ymd2ord (d : date) : Z :=
  days_before_year (year d) + days_before_month (year d) (month d) + day d.

(** The [datetime] that [strptime] builds from a date: midnight. *)
Definition at_midnight (d : date) : datetime := DateTime (ymd2ord d) 0.

(** [a >= b] on [datetime]. *)
Definition datetime_ge (a b : datetime) : bool :=
  (ordinal b <? ordinal a)
  || ((ordinal a =? ordinal b) && (microsecond_of_day b <=? microsecond_of_day a)).

(** [now - timedelta(days=n)]: [timedelta] refuses more than 999999999
    days, and the difference must be a representable date. *)
Definition minus_days (now : datetime) (n : Z) : result datetime :=
  if 999999999 <? Z.abs n then Raise OverflowError
  else
    let o := ordinal now - n in
    if (0 <? o) && (o <=? MAXORDINAL)
    then Ok (DateTime o (microsecond_of_day now))
    else Raise OverflowError.

(** Dates in calendar order: by year, then month, then day. *)
Definition date_le (a b : date) : Prop :=
  year a < year b
  \/ (year a = year b /\ (month a < month b
                          \/ (month a = month b /\ day a <= day b))).

End Calendar.

(** ** [datetime.strptime(s, '%Y-%m-%d')]

    The format is compiled to the regular expression
    [(?P<Y>\d\d\d\d)-(?P<m>1[0-2]|0[1-9]|[1-9])-(?P<d>3[0-1]|[1-2]\d|0[1-9]|[1-9]| [1-9])]
    and matched at the start of the text.  A matcher below returns every way
    its group can match, in the order the engine tries them; the match found
    is the first complete one. *)

Module Strptime.
Local Open Scope Z_scope.

Definition matcher (A : Type) := string -> list (A * string).

Definition one_char (p : ascii -> bool) : matcher Z :=
  fun s =>
    match s with
    | String a r => if p a then [(Str.digit_value a, r)] else []
    | _ => []
    end.

Definition two_chars (p q : ascii -> bool) : matcher Z :=
  fun s =>
    match s with
    | String a (String b r) =>
        if p a && q b
        then [(10 * Str.digit_value a + Str.digit_value b, r)]
        else []
    | _ => []
    end.

(** A blank followed by a digit; [int] ignores the blank. *)
Definition blank_then (q : ascii -> bool) : matcher Z :=
  fun s =>
    match s with
    | String a (String b r) =>
        if Ascii.eqb a " " && q b then [(Str.digit_value b, r)] else []
    | _ => []
    end.

Definition literal (c : ascii) : matcher unit :=
  fun s =>
    match s with
    | String a r => if Ascii.eqb a c then [(tt, r)] else []
    | _ => []
    end.

Definition is_char (c : ascii) : ascii -> bool := fun a => Ascii.eqb a c.

(** [(?P<Y>\d\d\d\d)] *)
Definition group_Y : matcher Z :=
  fun s =>
    match s with
    | String a (String b (String c (String d r))) =>
        if Str.is_digit a && Str.is_digit b && Str.is_digit c && Str.is_digit d
        then [(1000 * Str.digit_value a + 100 * Str.digit_value b
               + 10 * Str.digit_value c + Str.digit_value d, r)]
        else []
    | _ => []
    end.

(** [(?P<m>1[0-2]|0[1-9]|[1-9])] *)
Definition group_m : matcher Z :=
  fun s =>
    two_chars (is_char "1") (Str.between "0" "2") s
    ++ two_chars (is_char "0") (Str.between "1" "9") s
    ++ one_char (Str.between "1" "9") s.

(** [(?P<d>3[0-1]|[1-2]\d|0[1-9]|[1-9]| [1-9])] *)
Definition group_d : matcher Z :=
  fun s =>
    two_chars (is_char "3") (Str.between "0" "1") s
    ++ two_chars (Str.between "1" "2") Str.is_digit s
    ++ two_chars (is_char "0") (Str.between "1" "9") s
    ++ one_char (Str.between "1" "9") s
    ++ blank_then (Str.between "1" "9") s.

Definition seq_match {A B} (m : matcher A) (k : A -> matcher B) : matcher B :=
  fun s => flat_map (fun '(a, r) => k a r) (m s).

Definition pure_match {A} (a : A) : matcher A := fun s => [(a, s)].

(** All matches of the whole pattern, best first. *)
Definition pattern : matcher date :=
  seq_match group_Y (fun y =>
  seq_match (literal "-") (fun _ =>
  seq_match group_m (fun m =>
  seq_match (literal "-") (fun _ =>
  seq_match group_d (fun d =>
  pure_match (Date y m d)))))).

(** [strptime]: [None] stands for [ValueError].  It is raised when the
    text does not match, when text remains after the match, and when the
    fields are not a date ([year 0], [February 30]). *)
Definition strptime (s : string) : option date :=
  match pattern s with
  | [] => None
  | (d, rest) :: _ =>
      match rest with
      | EmptyString =>
          if (year d <? Calendar.MINYEAR) then None
          else if (Calendar.days_in_month (year d) (month d) <? day d) then None
          else Some d
      | _ => None
      end
  end.

End Strptime.

(** ** Release-date normalisation (lines 129-138) *)

Inductive normalized :=
| Normalized (d : date)   (* [release_date] is bound *)
| Skipped                 (* [continue]: the album is passed over *)
| Escaped.                (* the handler itself raised [ValueError] *)

Definition normalize_release_date (s : string) : normalized :=
  match Strptime.strptime s with
  | Some d => Normalized d
  | None =>
      if Nat.eqb (String.length s) 4 then
        match Strptime.strptime (s ++ "-01-01") with
        | Some d => Normalized d
        | None => Escaped
        end
      else if Nat.eqb (String.length s) 7 then
        match Strptime.strptime (s ++ "-01") with
        | Some d => Normalized d
        | None => Escaped
        end
      else Skipped
  end.

(** ** The data exchanged with the service *)

Record Artist := { artist_id : string; artist_name : string }.

Record Album := {
  album_id : string;
  album_name : string;
  album_release_date : string
}.

(** An item of [album_tracks(...)['items']]. *)
Record AlbumTrack := { item_id : string; item_name : string; item_uri : string }.

(** The dictionary [track_info] (lines 145-152). *)
Record TrackInfo := {
  track_id : string;
  track_name : string;
  track_artist : string;
  track_album : string;
  track_release_date : string;
  track_uri : string
}.

Record Playlist := { playlist_id : string; playlist_url : string }.

(** The arguments of [user_playlist_create]; the name and the description
    are kept as the values they are formatted from. *)
Record PlaylistRequest := {
  req_user : option string;
  req_name_prefix : string;
  req_name_date : datetime;
  req_public : bool;
  req_description_days : Z;
  req_description_date : datetime
}.

(** The pages of followed artists, as the service hands them out: the
    request fails, or answers a last page, or answers a page that has a
    successor. *)
Inductive paging :=
| PageFails (e : exn)
| PageLast (items : list Artist)
| PageMore (items : list Artist) (next : paging).

(** [self.sp] *)
Record Spotify := {
  current_user_followed_artists : paging;
  artist_related_artists : string -> result (list Artist);
  artist_albums : string -> result (list Album);
  album_tracks : string -> result (list AlbumTrack);
  user_playlist_create : PlaylistRequest -> result Playlist;
  playlist_add_items : string -> list string -> result unit
}.

(** [self]: [__init__] calls [setup_spotify_client], then stores [None] in
    [user_id] and reads the three settings. *)
Record MusicDiscoveryTool := {
  sp : Spotify;
  user_id : option string;
  days_lookback : Z;
  max_tracks : Z;
  playlist_prefix : string
}.

Definition init (client : Spotify) (DAYS_LOOKBACK MAX_TRACKS_PER_PLAYLIST : Z)
    (PLAYLIST_NAME_PREFIX : string) : MusicDiscoveryTool :=
  {| sp := client;
     user_id := None;
     days_lookback := DAYS_LOOKBACK;
     max_tracks := MAX_TRACKS_PER_PLAYLIST;
     playlist_prefix := PLAYLIST_NAME_PREFIX |}.

(** ** Events: what a run does that can be seen from outside *)

Inductive request :=
| CurrentUserFollowedArtists
| Next
| ArtistRelatedArtists (id : string)
| ArtistAlbums (id : string)
| AlbumTracks (id : string)
| UserPlaylistCreate (r : PlaylistRequest)
| PlaylistAddItems (playlist : string) (batch : list string).

(** One constructor per [print] of the source. *)
Inductive message :=
| FetchingFollowed
| FoundFollowed (n : nat)
| FindingSimilar
| SimilarProgress (i sample_size : nat)
| SimilarError (artist : string) (e : exn)
| FoundSimilar (n : nat)
| CheckingReleases (days : Z)
| ReleaseProgress (i n : nat)
| ReleaseError (artist : string) (e : exn)
| FoundRecent (n : nat)
| NoTracksToAdd
| CreatedPlaylist (prefix : string) (today : datetime) (n : nat)
| PlaylistUrl (url : string)
| CreateError (e : exn)
| NoNewReleasesFound
| SummaryHeader (n : nat)
| Rule (width : nat)
| TrackLine (i : nat) (name : string)
| TrackBy (artist album : string)
| TrackReleased (release_date : string)
| Blank
| AndMore (n : nat)
| Starting
| NoFollowedArtists
| Success
| FailedToCreate
| NoNewReleasesThisWeek
| UnexpectedError (e : exn).

Inductive event :=
| Print (m : message)
| Call (r : request).

(** ** The monad of a function body

    [S] is the type of the local variables the body updates.  A
    computation maps their values to the events it produced, their new
    values and its outcome; what was appended to a list before an
    exception stays appended. *)

Section Monad.
Context {S : Type}.

Definition Py (A : Type) : Type := S -> list event * S * result A.

Definition ret {A} (a : A) : Py A := fun s => ([], s, Ok a).

Definition bind {A B} (m : Py A) (k : A -> Py B) : Py B :=
  fun s =>
    match m s with
    | (t1, s1, Ok a) =>
        match k a s1 with
        | (t2, s2, r) => (t1 ++ t2, s2, r)
        end
    | (t1, s1, Raise e) => (t1, s1, Raise e)
    end.

Definition raise {A} (e : exn) : Py A := fun s => ([], s, Raise e).

(** [try: m  except Exception as e: h e] *)
Definition try_except {A} (m : Py A) (h : exn -> Py A) : Py A :=
  fun s =>
    match m s with
    | (t1, s1, Ok a) => (t1, s1, Ok a)
    | (t1, s1, Raise e) =>
        match h e s1 with
        | (t2, s2, r) => (t1 ++ t2, s2, r)
        end
    end.

Definition emit (e : event) : Py unit := fun s => ([e], s, Ok tt).

Definition print (m : message) : Py unit := emit (Print m).

Definition get : Py S := fun s => ([], s, Ok s).

Definition put (s' : S) : Py unit := fun _ => ([], s', Ok tt).

(** A request to the service: it is recorded, then answers or raises. *)
Definition ask {A} (r : request) (answer : result A) : Py A :=
  fun s => ([Call r], s, answer).

(** [for x in l: body x] *)
Fixpoint for_each {A} (l : list A) (body : A -> Py unit) : Py unit :=
  match l with
  | [] => ret tt
  | x :: r => bind (body x) (fun _ => for_each r body)
  end.

End Monad.

Arguments Py : clear implicits.

(** Calling a function that has local variables of its own. *)
Definition call {S S' A} (f : Py S' A) (locals : S') : Py S A :=
  fun s => match f locals with (t, _, r) => (t, s, r) end.

Definition trace {S A} (x : list event * S * result A) : list event := x.1.1.
Definition locals {S A} (x : list event * S * result A) : S := x.1.2.
Definition outcome {S A} (x : list event * S * result A) : result A := x.2.

Declare Scope py_scope.
Delimit Scope py_scope with py.
Notation "x <- m ;; k" := (bind m (fun x => k))
  (at level 100, m at next level, right associativity) : py_scope.
Notation "m ;; k" := (bind m (fun _ => k))
  (at level 100, right associativity) : py_scope.
Local Open Scope py_scope.

(** ** Python list helpers *)

(** [enumerate(l, start)] *)
Fixpoint enumerate_from {A} (start : nat) (l : list A) : list (nat * A) :=
  match l with
  | [] => []
  | x :: r => (start, x) :: enumerate_from (Datatypes.S start) r
  end.

Definition enumerate {A} (l : list A) : list (nat * A) := enumerate_from 0 l.

(** [l[:n]] for an integer [n]: a negative [n] counts from the end. *)
Definition slice_to {A} (l : list A) (n : Z) : list A :=
  if (0 <=? n)%Z then firstn (Z.to_nat n) l
  else firstn (Z.to_nat (Z.of_nat (length l) + n)) l.

(** [l[i:j]] for [0 <= i <= j]. *)
Definition slice {A} (l : list A) (i j : nat) : list A :=
  firstn (j - i) (skipn i l).

(** [range(0, stop, step)] for a positive [step]: its length is computed
    first, then item [k] is [k * step]. *)
Definition range_step (stop step : nat) : list nat :=
  map (fun k => k * step) (seq 0 ((stop + step - 1) / step)).

(** [list.sort(key=..., reverse=True)]: a stable sort, by [<] on the keys.
    For [reverse=True] the list is reversed, sorted in ascending order and
    reversed again, so that equal keys keep their order. *)
Section Sort.
Context {A : Type} (key : A -> string).

Fixpoint insert_sorted (x : A) (l : list A) : list A :=
  match l with
  | [] => [x]
  | y :: r =>
      if Str.lt (key y) (key x) then y :: insert_sorted x r
      else x :: y :: r
  end.

Fixpoint sort_ascending (l : list A) : list A :=
  match l with
  | [] => []
  | x :: r => insert_sorted x (sort_ascending r)
  end.

Definition sort_reverse (l : list A) : list A :=
  rev (sort_ascending (rev l)).

End Sort.

(** ** [get_followed_artists] (lines 65-80); local variable: [artists] *)

Fixpoint fetch_pages (results : paging) : Py (list Artist) unit :=
  match results with
  | PageFails e => raise e
  | PageLast items =>
      artists <- get ;; put (artists ++ items)
  | PageMore items next =>
      artists <- get ;; put (artists ++ items) ;;
      emit (Call Next) ;;
      fetch_pages next
  end.

Definition get_followed_artists (self : MusicDiscoveryTool)
  : Py (list Artist) (list Artist) :=
  print FetchingFollowed ;;
  emit (Call CurrentUserFollowedArtists) ;;
  fetch_pages (current_user_followed_artists (sp self)) ;;
  artists <- get ;;
  print (FoundFollowed (length artists)) ;;
  ret artists.

(** ** [get_similar_artists] (lines 82-108);
    local variables: [similar_artists] and [seen_ids] *)

Definition similar_locals : Type := list Artist * gset string.

(** Lines 97-99. *)
Definition consider (max_similar : Z) (artist : Artist) : Py similar_locals unit :=
  st <- get ;;
  let similar_artists := st.1 in
  let seen_ids := st.2 in
  if bool_decide (artist_id artist ∉ seen_ids)
     && (Z.of_nat (length similar_artists) <? max_similar)%Z
  then put (similar_artists ++ [artist], {[artist_id artist]} ∪ seen_ids)
  else ret tt.

(** Lines 93-105: the body of the loop over the sample. *)
Definition expand (self : MusicDiscoveryTool) (max_similar : Z) (sample_size : nat)
    (entry : nat * string) : Py similar_locals unit :=
  let i := entry.1 in
  let artist_id := entry.2 in
  try_except
    (related <- ask (ArtistRelatedArtists artist_id)
                    (artist_related_artists (sp self) artist_id) ;;
     for_each related (consider max_similar) ;;
     print (SimilarProgress (i + 1) sample_size))
    (fun e => print (SimilarError artist_id e)).

Definition get_similar_artists_body (self : MusicDiscoveryTool)
    (artist_ids : list string) (max_similar : Z) : Py similar_locals (list Artist) :=
  print FindingSimilar ;;
  let sample_size := Nat.min 10 (length artist_ids) in
  for_each (enumerate (firstn sample_size artist_ids))
           (expand self max_similar sample_size) ;;
  st <- get ;;
  print (FoundSimilar (length st.1)) ;;
  ret st.1.

(** The function, entered with [similar_artists = []] and
    [seen_ids = set(artist_ids)]. *)
Definition get_similar_artists (self : MusicDiscoveryTool)
    (artist_ids : list string) (max_similar : Z)
  : list event * similar_locals * result (list Artist) :=
  get_similar_artists_body self artist_ids max_similar ([], list_to_set artist_ids).

Definition default_max_similar : Z := 20.

(** ** [get_recent_releases] (lines 110-177); local variable: [recent_tracks] *)

Definition track_info (artist : Artist) (album : Album) (track : AlbumTrack) : TrackInfo :=
  {| track_id := item_id track;
     track_name := item_name track;
     track_artist := artist_name artist;
     track_album := album_name album;
     track_release_date := album_release_date album;
     track_uri := item_uri track |}.

(** Lines 128-153: the body of the loop over the albums of one artist. *)
Definition scan_album (self : MusicDiscoveryTool) (cutoff_date : datetime)
    (artist : Artist) (album : Album) : Py (list TrackInfo) unit :=
  match normalize_release_date (album_release_date album) with
  | Escaped => raise ValueError
  | Skipped => ret tt
  | Normalized release_date =>
      if Calendar.datetime_ge (Calendar.at_midnight release_date) cutoff_date then
        tracks <- ask (AlbumTracks (album_id album))
                      (album_tracks (sp self) (album_id album)) ;;
        for_each tracks (fun track =>
          recent_tracks <- get ;;
          put (recent_tracks ++ [track_info artist album track]))
      else ret tt
  end.

(** Lines 118-161: the body of the loop over the artists. *)
Definition scan_artist (self : MusicDiscoveryTool) (cutoff_date : datetime)
    (n_artists : nat) (entry : nat * Artist) : Py (list TrackInfo) unit :=
  let i := entry.1 in
  let artist := entry.2 in
  try_except
    (albums <- ask (ArtistAlbums (artist_id artist))
                   (artist_albums (sp self) (artist_id artist)) ;;
     for_each albums (scan_album self cutoff_date artist) ;;
     if Nat.eqb ((i + 1) mod 10) 0
     then print (ReleaseProgress (i + 1) n_artists)
     else ret tt)
    (fun e => print (ReleaseError (artist_name artist) e)).

(** Lines 117-161: the Release Scanner. *)
Definition scan_artists (self : MusicDiscoveryTool) (cutoff_date : datetime)
    (artists : list Artist) : Py (list TrackInfo) unit :=
  for_each (enumerate artists) (scan_artist self cutoff_date (length artists)).

(** Line 168. *)
Definition track_key (track : TrackInfo) : string * string :=
  (Str.lower (track_name track), Str.lower (track_artist track)).

(** Lines 167-171, from given values of [seen_tracks] and [unique_tracks]. *)
Fixpoint remove_duplicates (recent_tracks : list TrackInfo)
    (seen_tracks : gset (string * string)) (unique_tracks : list TrackInfo)
  : list TrackInfo :=
  match recent_tracks with
  | [] => unique_tracks
  | track :: rest =>
      if bool_decide (track_key track ∉ seen_tracks)
      then remove_duplicates rest ({[track_key track]} ∪ seen_tracks)
                             (unique_tracks ++ [track])
      else remove_duplicates rest seen_tracks unique_tracks
  end.

(** Lines 164-171. *)
Definition deduplicate (recent_tracks : list TrackInfo) : list TrackInfo :=
  remove_duplicates recent_tracks ∅ [].

(** Lines 173-177 without the [print]: sort, then truncate. *)
Definition rank (max_tracks : Z) (unique_tracks : list TrackInfo) : list TrackInfo :=
  slice_to (sort_reverse track_release_date unique_tracks) max_tracks.

Definition get_recent_releases_body (self : MusicDiscoveryTool) (now : datetime)
    (artists : list Artist) : Py (list TrackInfo) (list TrackInfo) :=
  print (CheckingReleases (days_lookback self)) ;;
  cutoff_date <- (fun s => ([], s, Calendar.minus_days now (days_lookback self))) ;;
  scan_artists self cutoff_date artists ;;
  recent_tracks <- get ;;
  let unique_tracks := sort_reverse track_release_date (deduplicate recent_tracks) in
  print (FoundRecent (length unique_tracks)) ;;
  ret (slice_to unique_tracks (max_tracks self)).

(** The function, entered with [recent_tracks = []]; [now] is what
    [datetime.now()] answers on line 114. *)
Definition get_recent_releases (self : MusicDiscoveryTool) (now : datetime)
    (artists : list Artist) : list event * list TrackInfo * result (list TrackInfo) :=
  get_recent_releases_body self now artists [].

(** ** [create_playlist] (lines 179-220) *)

Definition playlist_request (self : MusicDiscoveryTool) (today : datetime)
  : PlaylistRequest :=
  {| req_user := user_id self;
     req_name_prefix := playlist_prefix self;
     req_name_date := today;
     req_public := false;
     req_description_days := days_lookback self;
     req_description_date := today |}.

(** Lines 209-211. *)
Definition add_batches (self : MusicDiscoveryTool) (playlist : Playlist)
    (track_uris : list string) : Py unit unit :=
  for_each (range_step (length track_uris) 100) (fun i =>
    let batch := slice track_uris i (i + 100) in
    ask (PlaylistAddItems (playlist_id playlist) batch)
        (playlist_add_items (sp self) (playlist_id playlist) batch)).

(** [today] is what [datetime.now()] answers on line 186. *)
Definition create_playlist (self : MusicDiscoveryTool) (today : datetime)
    (tracks : list TrackInfo) : Py unit (option string) :=
  match tracks with
  | [] => print NoTracksToAdd ;; ret None
  | _ :: _ =>
      try_except
        (playlist <- ask (UserPlaylistCreate (playlist_request self today))
                         (user_playlist_create (sp self) (playlist_request self today)) ;;
         let track_uris := map track_uri tracks in
         add_batches self playlist track_uris ;;
         print (CreatedPlaylist (playlist_prefix self) today (length tracks)) ;;
         print (PlaylistUrl (playlist_url playlist)) ;;
         ret (Some (playlist_id playlist)))
        (fun e => print (CreateError e) ;; ret None)
  end.

(** ** [print_track_summary] (lines 222-238) *)

Definition print_track_summary (tracks : list TrackInfo) : Py unit unit :=
  match tracks with
  | [] => print NoNewReleasesFound
  | _ :: _ =>
      print (SummaryHeader (length tracks)) ;;
      print (Rule 60) ;;
      for_each (enumerate_from 1 (firstn 10 tracks)) (fun entry =>
        print (TrackLine entry.1 (track_name entry.2)) ;;
        print (TrackBy (track_artist entry.2) (track_album entry.2)) ;;
        print (TrackReleased (track_release_date entry.2)) ;;
        print Blank) ;;
      if Nat.ltb 10 (length tracks)
      then print (AndMore (length tracks - 10))
      else ret tt
  end.

(** ** [run] (lines 240-278) *)

(** The truth value of what [create_playlist] returned. *)
Definition truthy (playlist_id : option string) : bool :=
  match playlist_id with
  | None => false
  | Some EmptyString => false
  | Some _ => true
  end.

(** [now] and [today] are the two readings of the clock. *)
Definition run (self : MusicDiscoveryTool) (now today : datetime) : Py unit unit :=
  print Starting ;;
  print (Rule 50) ;;
  try_except
    (followed_artists <- call (get_followed_artists self) [] ;;
     match followed_artists with
     | [] => print NoFollowedArtists
     | _ :: _ =>
         let followed_ids := map artist_id followed_artists in
         similar_artists <-
           call (get_similar_artists_body self followed_ids default_max_similar)
                ([], list_to_set followed_ids) ;;
         let all_artists := followed_artists ++ similar_artists in
         recent_tracks <- call (get_recent_releases_body self now all_artists) [] ;;
         print_track_summary recent_tracks ;;
         match recent_tracks with
         | _ :: _ =>
             playlist_id <- create_playlist self today recent_tracks ;;
             if truthy playlist_id then print Success else print FailedToCreate
         | [] => print NoNewReleasesThisWeek
         end
     end)
    (fun e => print (UnexpectedError e)).

(** What an observer sees of the publisher: the requests that create a
    playlist or add to one. *)
Definition is_playlist_write (e : event) : bool :=
  match e with
  | Call (UserPlaylistCreate _) => true
  | Call (PlaylistAddItems _ _) => true
  | _ => false
  end.

(** The batches of the [playlist_add_items] requests of a trace, in order. *)
Fixpoint added_batches (t : list event) : list (list string) :=
  match t with
  | [] => []
  | Call (PlaylistAddItems _ batch) :: r => batch :: added_batches r
  | _ :: r => added_batches r
  end.

(** The artists whose related artists a trace asked for, in order. *)
Fixpoint related_queries (t : list event) : list string :=
  match t with
  | [] => []
  | Call (ArtistRelatedArtists id) :: r => id :: related_queries r
  | _ :: r => related_queries r
  end.

(** ** Release dates as the catalogue writes them

    [YYYY], [YYYY-MM] and [YYYY-MM-DD]: four digits for the year, two for
    the month and two for the day. *)

Module Iso.
Local Open Scope Z_scope.

Definition digit_char (n : Z) : ascii := ascii_of_N (Z.to_N (48 + n)).

Definition show2 (n : Z) : string :=
  String (digit_char (n / 10)) (String (digit_char (n mod 10)) EmptyString).

Definition show4 (n : Z) : string :=
  String (digit_char (n / 1000))
    (String (digit_char (n / 100 mod 10))
       (String (digit_char (n / 10 mod 10))
          (String (digit_char (n mod 10)) EmptyString))).

(** ["YYYY"] *)
Definition year_only (y : Z) : string := show4 y.

(** ["YYYY-MM"] *)
Definition year_month (y m : Z) : string := show4 y ++ "-" ++ show2 m.

(** ["YYYY-MM-DD"] *)
Definition full (d : date) : string :=
  show4 (year d) ++ "-" ++ show2 (month d) ++ "-" ++ show2 (day d).

End Iso.

(** ** Notions used in the statements *)

(** What a match consumes. *)
Definition consumed (s r : string) (lo hi : nat) : Prop :=
    (String.length r + lo <= String.length s <= String.length r + hi)%nat.

(** A computation that cannot end in an exception. *)
Definition total {S A} (m : Py S A) : Prop :=
  forall s, exists a, outcome (m s) = Ok a.

(** A property of the local variables that a computation keeps. *)
Definition preserves {S A} (I : S -> Prop) (m : Py S A) : Prop :=
  forall s, I s -> I (locals (m s)).

(** A computation over a list that only ever appends to it. *)
Definition appends {T A} (m : Py (list T) A) : Prop :=
  forall st, m st = (trace (m []), st ++ locals (m []), outcome (m [])).

(** The tracks one artist adds to [recent_tracks]. *)
Definition artist_tracks (self : MusicDiscoveryTool) (cutoff_date : datetime)
    (artist : Artist) : list TrackInfo :=
  match artist_albums (sp self) (artist_id artist) with
  | Raise _ => []
  | Ok albums => locals (for_each albums (scan_album self cutoff_date artist) [])
  end.

(** A qualifying track of an artist: a track of one of the artist's albums
    whose normalised release date is on or after the cutoff. *)
Definition qualifying (self : MusicDiscoveryTool) (cutoff_date : datetime)
    (artist : Artist) (t : TrackInfo) : Prop :=
  exists albums album d items item,
    artist_albums (sp self) (artist_id artist) = Ok albums
    /\ In album albums
    /\ normalize_release_date (album_release_date album) = Normalized d
    /\ Calendar.datetime_ge (Calendar.at_midnight d) cutoff_date = true
    /\ album_tracks (sp self) (album_id album) = Ok items
    /\ In item items
    /\ t = track_info artist album item.

(** Nothing raises while the artist is scanned. *)
Definition scans_cleanly (self : MusicDiscoveryTool) (cutoff_date : datetime)
    (artist : Artist) : Prop :=
  exists albums,
    artist_albums (sp self) (artist_id artist) = Ok albums
    /\ forall album, In album albums ->
         match normalize_release_date (album_release_date album) with
         | Escaped => False
         | Skipped => True
         | Normalized d =>
             Calendar.datetime_ge (Calendar.at_midnight d) cutoff_date = true ->
             exists items, album_tracks (sp self) (album_id album) = Ok items
         end.

(** The first occurrences of the keys of a track list: the track at
    position [i] stays unless its key is the key of one of the [i] tracks
    before it. *)
Definition first_occurrences (tracks : list TrackInfo) : list TrackInfo :=
  concat (imap (fun i track =>
                  if bool_decide (track_key track ∈ map track_key (take i tracks))
                  then []
                  else [track])
               tracks).

(** ** Equality up to the case of letters

    What "case-insensitive" says, written without [str.lower]: two texts
    are equal up to case when they have the same length and hold, position
    by position, the same character or the two forms of one letter. *)

(** The letters that have two forms among the code points below 256, each
    capital with its small form: the letters of the alphabet, and the
    accented letters whose capitals are the code points 192 to 214 and
    216 to 222. *)
Definition cased_letters : list (ascii * ascii) :=
  combine (list_ascii_of_string "ABCDEFGHIJKLMNOPQRSTUVWXYZ")
          (list_ascii_of_string "abcdefghijklmnopqrstuvwxyz")
  ++ map (fun capital => (ascii_of_nat capital, ascii_of_nat (capital + 32)))
         (seq 192 23 ++ seq 216 7).

Definition same_letter (a b : ascii) : bool :=
  Ascii.eqb a b
  || existsb (fun forms => (Ascii.eqb a forms.1 && Ascii.eqb b forms.2)
                           || (Ascii.eqb a forms.2 && Ascii.eqb b forms.1))
             cased_letters.

Fixpoint equal_ignoring_case (s t : string) : bool :=
  match s, t with
  | EmptyString, EmptyString => true
  | String a s', String b t' => same_letter a b && equal_ignoring_case s' t'
  | _, _ => false
  end.

(** Two tracks with the same name and the same artist, up to case. *)
Definition same_track_ignoring_case (a b : TrackInfo) : bool :=
  equal_ignoring_case (track_name a) (track_name b)
  && equal_ignoring_case (track_artist a) (track_artist b).

(** The first occurrences of a track list up to case: the track at
    position [i] stays unless one of the [i] tracks before it has the same
    name and artist up to case. *)
Definition first_ignoring_case (tracks : list TrackInfo) : list TrackInfo :=
  concat (imap (fun i track =>
                  if existsb (same_track_ignoring_case track) (take i tracks)
                  then []
                  else [track])
               tracks).

(** No two tracks of the list have the same name and artist up to case. *)
Definition distinct_ignoring_case (tracks : list TrackInfo) : Prop :=
  forall i j a b,
    i < j -> tracks !! i = Some a -> tracks !! j = Some b ->
    same_track_ignoring_case a b = false.

(** The 256 characters of the model. *)
Definition all_characters : list ascii := map ascii_of_nat (seq 0 256).

(** A track list in descending order of the raw release-date strings. *)
Definition descending_by_raw_date (tracks : list TrackInfo) : Prop :=
  forall i j a b,
    i < j -> tracks !! i = Some a -> tracks !! j = Some b ->
    Str.le (track_release_date b) (track_release_date a) = true.

(** A release date in one of the three forms of the catalogue, with the
    date it stands for. *)
Inductive catalogue_date : string -> date -> Prop :=
| CatalogueYear (y : Z) :
    (1 <= y <= 9999)%Z ->
    catalogue_date (Iso.year_only y) (Date y 1 1)
| CatalogueMonth (y m : Z) :
    (1 <= y <= 9999)%Z -> (1 <= m <= 12)%Z ->
    catalogue_date (Iso.year_month y m) (Date y m 1)
| CatalogueDay (y m d : Z) :
    (1 <= y <= 9999)%Z -> (1 <= m <= 12)%Z ->
    (1 <= d <= Calendar.days_in_month y m)%Z ->
    catalogue_date (Iso.full (Date y m d)) (Date y m d).

(** The events of the components that read: every request but those of
    the publisher, and every message but the closing ones of the summary
    and of [run]. *)
Definition reading_event (e : event) : bool :=
  match e with
  | Call (UserPlaylistCreate _) => false
  | Call (PlaylistAddItems _ _) => false
  | Print (UnexpectedError _) => false
  | Print NoNewReleasesThisWeek => false
  | Print NoNewReleasesFound => false
  | Print NoFollowedArtists => false
  | _ => true
  end.

(** The events of a run that neither touches a playlist nor meets an
    unexpected error. *)
Definition calm_event (e : event) : bool :=
  match e with
  | Call (UserPlaylistCreate _) => false
  | Call (PlaylistAddItems _ _) => false
  | Print (UnexpectedError _) => false
  | _ => true
  end.

(** A computation all of whose events satisfy [P]. *)
Definition emits_only {S A} (P : event -> bool) (m : Py S A) : Prop :=
  forall s, forallb P (trace (m s)) = true.

(** ** Sample data

    A small catalogue on which the statements below are exercised.  The
    clock reads 2024-03-20, so that a lookback of seven days puts the
    cutoff at 2024-03-13. *)

Module Sample.

Definition Alpha : Artist := {| artist_id := "a"; artist_name := "Alpha" |}.
Definition Beta : Artist := {| artist_id := "b"; artist_name := "Beta" |}.
Definition Gamma : Artist := {| artist_id := "c"; artist_name := "Gamma" |}.
Definition Delta : Artist := {| artist_id := "d"; artist_name := "Delta" |}.

Definition album (id release_date : string) : Album :=
  {| album_id := id; album_name := "Album " ++ id; album_release_date := release_date |}.

(** Every album has one track, named after the album. *)
Definition only_track (album : string) : AlbumTrack :=
  {| item_id := "t-" ++ album; item_name := "Song " ++ album; item_uri := "uri:" ++ album |}.

Definition albums_of (id : string) : result (list Album) :=
  if String.eqb id "a" then Ok [album "a1" "2024-03-15"; album "a2" "2024-03"]
  else if String.eqb id "b" then Raise (ApiError "albums of b")
  else if String.eqb id "c" then Ok [album "c1" "2024-03-18"]
  else if String.eqb id "d"
       then Ok [album "d1" "2024-03-15"; album "d2" "abcd"; album "d3" "2024-03-16"]
  else Ok [].

Definition related_of (id : string) : result (list Artist) :=
  if String.eqb id "a" then Ok [Beta; Gamma; Gamma; Delta]
  else if String.eqb id "b" then Raise (ApiError "related of b")
  else Ok [Alpha].

Definition client : Spotify :=
  {| current_user_followed_artists := PageMore [Alpha] (PageLast [Beta]);
     artist_related_artists := related_of;
     artist_albums := albums_of;
     album_tracks := fun id => Ok [only_track id];
     user_playlist_create := fun _ => Ok {| playlist_id := "p1"; playlist_url := "url:p1" |};
     playlist_add_items := fun _ _ => Ok tt |}.

Definition tool : MusicDiscoveryTool := init client 7 50 "Weekly Discoveries".

Definition now : datetime := DateTime 738965 0.

Definition cutoff_date : datetime := DateTime 738958 0.

(** The same tool with [MAX_TRACKS_PER_PLAYLIST=-1]. *)
Definition negative_tool : MusicDiscoveryTool := init client 7 (-1) "Weekly Discoveries".

(** A catalogue in which one release date lacks the zero of its month;
    the clock reads 2024-10-05. *)
Definition autumn_albums (id : string) : result (list Album) :=
  if String.eqb id "a" then Ok [album "o1" "2024-10-01"; album "s1" "2024-9-30"]
  else Ok [].

Definition autumn_client : Spotify :=
  {| current_user_followed_artists := PageLast [Alpha];
     artist_related_artists := fun _ => Ok [];
     artist_albums := autumn_albums;
     album_tracks := fun id => Ok [only_track id];
     user_playlist_create := fun _ => Ok {| playlist_id := "p2"; playlist_url := "url:p2" |};
     playlist_add_items := fun _ _ => Ok tt |}.

Definition autumn_tool : MusicDiscoveryTool := init autumn_client 7 50 "Weekly Discoveries".

Definition autumn_now : datetime := Calendar.at_midnight (Date 2024 10 5).

(** A catalogue with an album of February and one of March, in that
    order, and a tool that looks back sixty days. *)
Definition spring_albums (id : string) : result (list Album) :=
  if String.eqb id "a" then Ok [album "f1" "2024-02-01"; album "m1" "2024-03-15"]
  else Ok [].

Definition spring_client : Spotify :=
  {| current_user_followed_artists := PageLast [Alpha];
     artist_related_artists := fun _ => Ok [];
     artist_albums := spring_albums;
     album_tracks := fun id => Ok [only_track id];
     user_playlist_create := fun _ => Ok {| playlist_id := "p3"; playlist_url := "url:p3" |};
     playlist_add_items := fun _ _ => Ok tt |}.

Definition spring_tool : MusicDiscoveryTool := init spring_client 60 50 "Weekly Discoveries".

(** A user who follows nobody. *)
Definition lonely_client : Spotify :=
  {| current_user_followed_artists := PageLast [];
     artist_related_artists := related_of;
     artist_albums := albums_of;
     album_tracks := fun id => Ok [only_track id];
     user_playlist_create := fun _ => Ok {| playlist_id := "p4"; playlist_url := "url:p4" |};
     playlist_add_items := fun _ _ => Ok tt |}.

Definition lonely_tool : MusicDiscoveryTool := init lonely_client 7 50 "Weekly Discoveries".

(** The first of January 2025: nothing of the catalogue is recent then. *)
Definition next_year : datetime := DateTime 739252 0.

(** 150 tracks with references of their own. *)
Definition numbered (k : nat) : TrackInfo :=
  {| track_id := String (ascii_of_nat k) "";
     track_name := "Song " ++ String (ascii_of_nat k) "";
     track_artist := "Alpha";
     track_album := "Album";
     track_release_date := "2024-03-15";
     track_uri := "uri:" ++ String (ascii_of_nat k) "" |}.

Definition hundred_and_fifty : list TrackInfo := map numbered (seq 0 150).

End Sample.

(** ** Start-up: [main], [__init__] and [setup_spotify_client]

    The environment is what [os.getenv] and [os.path.exists] answer once
    [load_dotenv] has run.  [int] is Python's conversion of a string to an
    integer; it is a parameter of the model.  [sys.exit(1)] raises
    [SystemExit], which no handler of the program catches: it ends the
    process with status 1. *)

Record Environment := {
  env_file_exists : bool;
  SPOTIFY_CLIENT_ID : option string;
  SPOTIFY_CLIENT_SECRET : option string;
  SPOTIFY_REDIRECT_URI : option string;
  DAYS_LOOKBACK : option string;
  MAX_TRACKS_PER_PLAYLIST : option string;
  PLAYLIST_NAME_PREFIX : option string
}.

(** The answer of [current_user()]. *)
Record UserInfo := { user_info_id : string; display_name : string }.

(** What [spotipy.Spotify(auth_manager=...)] gives access to. *)
Record Account := {
  current_user : result UserInfo;
  service : Spotify
}.

Inductive startup_message :=
| Banner
| Tagline
| EnvFileNotFound
| EnvFileCreate
| EnvFileExample
| Authenticated (display_name : string)
| SetupError (e : exn).

Inductive startup_event :=
| Say (m : startup_message)
| CallCurrentUser
| Running (e : event).

(** How the process ends: [main] returns, [sys.exit] is called, or an
    exception leaves [main]. *)
Inductive ending :=
| Returned
| Exited (status : Z)
| Crashed (e : exn).

(** The truth value of [os.getenv(...)]: [None] and [''] are false. *)
Definition set_and_not_empty (value : option string) : bool :=
  match value with
  | Some (String _ _) => true
  | _ => false
  end.

(** Lines 30-59: the body of the [try] of [setup_spotify_client]. *)
Definition setup_body (env : Environment) (account : Account)
  : list startup_event * result UserInfo :=
  if negb (set_and_not_empty (SPOTIFY_CLIENT_ID env)
           && set_and_not_empty (SPOTIFY_CLIENT_SECRET env)
           && set_and_not_empty (SPOTIFY_REDIRECT_URI env))
  then ([], Raise ValueError)
  else
    match current_user account with
    | Ok user_info =>
        ([CallCurrentUser; Say (Authenticated (display_name user_info))], Ok user_info)
    | Raise e => ([CallCurrentUser], Raise e)
    end.

(** [setup_spotify_client] (lines 27-63): the identifier it stores in
    [self.user_id], or [None] when it called [sys.exit(1)]. *)
Definition setup_spotify_client (env : Environment) (account : Account)
  : list startup_event * option string :=
  match setup_body env account with
  | (t, Ok user_info) => (t, Some (user_info_id user_info))
  | (t, Raise e) => (t ++ [Say (SetupError e)], None)
  end.

(** [int(os.getenv(name, default))] *)
Definition getenv_int (int : string -> result Z) (value : option string) (default : Z)
  : result Z :=
  match value with
  | Some s => int s
  | None => Ok default
  end.

(** [os.getenv(name, default)] *)
Definition getenv_default (value : option string) (default : string) : string :=
  match value with
  | Some s => s
  | None => default
  end.

(** [__init__] (lines 19-25): the object, or how the process ended. *)
Definition __init__ (int : string -> result Z) (env : Environment) (account : Account)
  : list startup_event * (ending + MusicDiscoveryTool) :=
  match setup_spotify_client env account with
  | (t, None) => (t, inl (Exited 1))
  | (t, Some _) =>
      match getenv_int int (DAYS_LOOKBACK env) 7 with
      | Raise e => (t, inl (Crashed e))
      | Ok days =>
          match getenv_int int (MAX_TRACKS_PER_PLAYLIST env) 50 with
          | Raise e => (t, inl (Crashed e))
          | Ok maximum =>
              (t, inr {| sp := service account;
                         user_id := None;
                         days_lookback := days;
                         max_tracks := maximum;
                         playlist_prefix :=
                           getenv_default (PLAYLIST_NAME_PREFIX env)
                                          "Weekly Discoveries" |})
          end
      end
  end.

(** [main] (lines 280-294); [now] and [today] are the readings of the clock
    in [run]. *)
Definition main (int : string -> result Z) (env : Environment) (account : Account)
    (now today : datetime) : list startup_event * ending :=
  let greeting := [Say Banner; Say Tagline] in
  if negb (env_file_exists env)
  then (greeting ++ [Say EnvFileNotFound; Say EnvFileCreate; Say EnvFileExample],
        Returned)
  else
    match __init__ int env account with
    | (t, inl e) => (greeting ++ t, e)
    | (t, inr tool) =>
        let r := run tool now today tt in
        (greeting ++ t ++ map Running (trace r),
         match outcome r with
         | Ok _ => Returned
         | Raise e => Crashed e
         end)
    end.

(** The requests of a start-up trace. *)
Definition contacts_service (e : startup_event) : bool :=
  match e with
  | CallCurrentUser => true
  | Running (Call _) => true
  | _ => false
  end.

(** ** More notions used in the statements *)

(** The pages of followed artists: their items in order up to a failure,
    the failure if there is one, and the number of requests made. *)
Fixpoint page_items (p : paging) : list Artist :=
  match p with
  | PageFails _ => []
  | PageLast items => items
  | PageMore items next => items ++ page_items next
  end.

Fixpoint page_failure (p : paging) : option exn :=
  match p with
  | PageFails e => Some e
  | PageLast _ => None
  | PageMore _ next => page_failure next
  end.

Fixpoint page_requests (p : paging) : nat :=
  match p with
  | PageFails _ => 1
  | PageLast _ => 1
  | PageMore _ next => Datatypes.S (page_requests next)
  end.

(** The requests for a page of followed artists in a trace. *)
Definition is_page_request (e : event) : bool :=
  match e with
  | Call CurrentUserFollowedArtists => true
  | Call Next => true
  | _ => false
  end.

(** The related artists the service offers for the sampled artists, in
    order; a request that fails offers none. *)
Definition offered (self : MusicDiscoveryTool) (artist_ids : list string) : list Artist :=
  flat_map (fun id =>
              match artist_related_artists (sp self) id with
              | Ok related => related
              | Raise _ => []
              end)
           (take 10 artist_ids).

(** The artists of a list that are not followed, each at its first
    occurrence. *)
Definition fresh_artists (followed : list string) (l : list Artist) : list Artist :=
  concat (imap (fun i artist =>
                  if bool_decide (artist_id artist ∈ followed ++ map artist_id (take i l))
                  then []
                  else [artist])
               l).

(** The numbered names a summary lists. *)
Fixpoint listed (t : list event) : list (nat * string) :=
  match t with
  | [] => []
  | Print (TrackLine i name) :: r => (i, name) :: listed r
  | _ :: r => listed r
  end.

Definition is_call (e : event) : bool :=
  match e with
  | Call _ => true
  | Print _ => false
  end.

(** A playlist request of [self]: private, and for the user [self] holds. *)
Definition request_of (self : MusicDiscoveryTool) (e : event) : bool :=
  match e with
  | Call (UserPlaylistCreate r) =>
      bool_decide (req_user r = user_id self) && negb (req_public r)
  | _ => true
  end.

(** A date of the calendar. *)
Definition valid_date (d : date) : Prop :=
  (1 <= year d <= 9999)%Z
  /\ (1 <= month d <= 12)%Z
  /\ (1 <= day d <= Calendar.days_in_month (year d) (month d))%Z.

(** One round of lines 96-99 on the values of [similar_artists] and
    [seen_ids]. *)
Definition consider_step (max_similar : Z) (st : similar_locals) (artist : Artist)
  : similar_locals :=
  if bool_decide (artist_id artist ∉ st.2)
     && (Z.of_nat (length st.1) <? max_similar)%Z
  then (st.1 ++ [artist], {[artist_id artist]} ∪ st.2)
  else st.

(** An event of a run that is in order: not the report of an unexpected
    error, and if it creates a playlist, then a private one for the user
    [self] holds. *)
Definition orderly (self : MusicDiscoveryTool) (e : event) : bool :=
  match e with
  | Print (UnexpectedError _) => false
  | _ => request_of self e
  end.

(** The artists whose albums a trace asked for, in order. *)
Fixpoint album_queries (t : list event) : list string :=
  match t with
  | [] => []
  | Call (ArtistAlbums id) :: r => id :: album_queries r
  | _ :: r => album_queries r
  end.

(** An event other than a request for the albums of an artist. *)
Definition not_album_query (e : event) : bool :=
  match e with
  | Call (ArtistAlbums _) => false
  | _ => true
  end.

(** ** More sample data *)

Module Scenario.

Definition Epsilon : Artist := {| artist_id := "e"; artist_name := "Epsilon" |}.

Definition epsilon_albums : list Album :=
  [Sample.album "e1" "2024-03-15"; Sample.album "e2" "2024-03-16";
   Sample.album "e3" "2024-03-17"].

(** A service that fails on the second page of followed artists, on the
    tracks of the album "e2" and on the creation of a playlist. *)
Definition fragile_client : Spotify :=
  {| current_user_followed_artists :=
       PageMore [Sample.Alpha] (PageFails (ApiError "page 2"));
     artist_related_artists := Sample.related_of;
     artist_albums := fun id =>
       if String.eqb id "e" then Ok epsilon_albums else Sample.albums_of id;
     album_tracks := fun id =>
       if String.eqb id "e2" then Raise (ApiError "tracks of e2")
       else Ok [Sample.only_track id];
     user_playlist_create := fun _ => Raise (ApiError "create");
     playlist_add_items := fun _ _ => Ok tt |}.

Definition fragile_tool : MusicDiscoveryTool :=
  init fragile_client 7 50 "Weekly Discoveries".

(** A service that refuses a batch of fifty references. *)
Definition half_client : Spotify :=
  {| current_user_followed_artists := PageLast [Sample.Alpha];
     artist_related_artists := Sample.related_of;
     artist_albums := Sample.albums_of;
     album_tracks := fun id => Ok [Sample.only_track id];
     user_playlist_create := fun _ =>
       Ok {| playlist_id := "p5"; playlist_url := "url:p5" |};
     playlist_add_items := fun _ batch =>
       if Nat.eqb (length batch) 50 then Raise (ApiError "add") else Ok tt |}.

Definition half_tool : MusicDiscoveryTool := init half_client 7 200 "Weekly Discoveries".

(** A lookback of 800000 days reaches before the first day of the calendar. *)
Definition ancient_tool : MusicDiscoveryTool :=
  init Sample.client 800000 50 "Weekly Discoveries".

Definition env : Environment :=
  {| env_file_exists := true;
     SPOTIFY_CLIENT_ID := Some "id";
     SPOTIFY_CLIENT_SECRET := Some "secret";
     SPOTIFY_REDIRECT_URI := Some "http://localhost:8888/callback";
     DAYS_LOOKBACK := Some "14";
     MAX_TRACKS_PER_PLAYLIST := None;
     PLAYLIST_NAME_PREFIX := None |}.

Definition env_with_empty_secret : Environment :=
  {| env_file_exists := true;
     SPOTIFY_CLIENT_ID := Some "id";
     SPOTIFY_CLIENT_SECRET := Some "";
     SPOTIFY_REDIRECT_URI := Some "http://localhost:8888/callback";
     DAYS_LOOKBACK := Some "14";
     MAX_TRACKS_PER_PLAYLIST := None;
     PLAYLIST_NAME_PREFIX := None |}.

Definition env_with_bad_setting : Environment :=
  {| env_file_exists := true;
     SPOTIFY_CLIENT_ID := Some "id";
     SPOTIFY_CLIENT_SECRET := Some "secret";
     SPOTIFY_REDIRECT_URI := Some "http://localhost:8888/callback";
     DAYS_LOOKBACK := Some "a week";
     MAX_TRACKS_PER_PLAYLIST := None;
     PLAYLIST_NAME_PREFIX := None |}.

Definition account : Account :=
  {| current_user := Ok {| user_info_id := "me"; display_name := "Me" |};
     service := Sample.client |}.

(** A conversion that knows one numeral. *)
Definition int (s : string) : result Z :=
  if String.eqb s "14" then Ok 14%Z else Raise ValueError.

(** E acute, the capital and the small letter. *)
Definition capital_e_acute : ascii := ascii_of_nat 201.
Definition small_e_acute : ascii := ascii_of_nat 233.

Definition titled (id name artist : string) : TrackInfo :=
  {| track_id := id;
     track_name := name;
     track_artist := artist;
     track_album := "Album";
     track_release_date := "2024-03-15";
     track_uri := "uri:" ++ id |}.

(** Six tracks of three songs, spelled with capitals here and there; the
    second song is the French word for summer, with its accented letters
    once small and once capital. *)
Definition mixed_case : list TrackInfo :=
  [titled "1" "Song" "Alpha";
   titled "2" "SONG" "alpha";
   titled "3" (String capital_e_acute (String "t" (String small_e_acute ""))) "Zaz";
   titled "4" "song" "Beta";
   titled "5" (String small_e_acute (String "T" (String capital_e_acute ""))) "ZAZ";
   titled "6" "sOnG" "ALPHA"].

End Scenario.

(** * Properties *)

(** ** The date parser *)

Module StrptimeFacts.
Import Strptime.
Local Open Scope Z_scope.

Ltac small_Z m :=
  destruct m as [|m|m]; try lia;
  repeat (destruct m as [m|m|]; try lia).

Lemma digit_char_digit k :
  0 <= k <= 9 ->
  Str.is_digit (Iso.digit_char k) = true
  /\ Str.digit_value (Iso.digit_char k) = k.
Proof. intros H. small_Z k; split; reflexivity. Qed.

Lemma show4_length y : String.length (Iso.show4 y) = 4%nat.
Proof. reflexivity. Qed.

Lemma show2_length m : String.length (Iso.show2 m) = 2%nat.
Proof. reflexivity. Qed.

Lemma length_append (a b : string) :
  String.length (a ++ b)%string = (String.length a + String.length b)%nat.
Proof. induction a as [|c a IH]; simpl; [reflexivity | now rewrite IH]. Qed.

Lemma group_Y_show4 y r :
  0 <= y <= 9999 -> group_Y (Iso.show4 y ++ r)%string = [(y, r)].
Proof.
  intros Hy.
  assert (H1 : 0 <= y / 1000 <= 9) by (clear -Hy; Z.div_mod_to_equations; lia).
  assert (H2 : 0 <= y / 100 mod 10 <= 9) by (clear; Z.div_mod_to_equations; lia).
  assert (H3 : 0 <= y / 10 mod 10 <= 9) by (clear; Z.div_mod_to_equations; lia).
  assert (H4 : 0 <= y mod 10 <= 9) by (clear; Z.div_mod_to_equations; lia).
  destruct (digit_char_digit _ H1) as [D1 V1].
  destruct (digit_char_digit _ H2) as [D2 V2].
  destruct (digit_char_digit _ H3) as [D3 V3].
  destruct (digit_char_digit _ H4) as [D4 V4].
  unfold Iso.show4, group_Y. cbv [String.append].
  rewrite D1, D2, D3, D4, V1, V2, V3, V4. cbn [andb].
  do 2 f_equal. clear -Hy.
  Z.div_mod_to_equations. lia.
Qed.

(** The parser reads a catalogue date back. *)
Lemma pattern_full y m d :
  0 <= y <= 9999 -> 1 <= m <= 12 -> 1 <= d <= 31 ->
  hd_error (pattern (Iso.full (Date y m d))) = Some (Date y m d, EmptyString).
Proof.
  intros Hy Hm Hd.
  unfold pattern, Iso.full. cbn [year month day].
  unfold seq_match at 1. rewrite (group_Y_show4 y _ Hy). cbn [flat_map].
  rewrite app_nil_r.
  small_Z m; small_Z d; reflexivity.
Qed.

Lemma days_in_month_le_31 y m : Calendar.days_in_month y m <= 31.
Proof.
  unfold Calendar.days_in_month.
  repeat match goal with |- context [if ?b then _ else _] => destruct b end; lia.
Qed.

Lemma strptime_full y m d :
  1 <= y <= 9999 -> 1 <= m <= 12 -> 1 <= d <= Calendar.days_in_month y m ->
  strptime (Iso.full (Date y m d)) = Some (Date y m d).
Proof.
  intros Hy Hm Hd.
  pose proof (days_in_month_le_31 y m) as H31.
  assert (Hp : hd_error (pattern (Iso.full (Date y m d))) = Some (Date y m d, EmptyString))
    by (apply pattern_full; lia).
  unfold strptime.
  destruct (pattern (Iso.full (Date y m d))) as [|[d0 r0] rest]; [discriminate |].
  injection Hp as -> ->. cbn [year month day].
  unfold Calendar.MINYEAR.
  destruct (Z.ltb_spec y 1); [lia |].
  destruct (Z.ltb_spec (Calendar.days_in_month y m) d); [lia | reflexivity].
Qed.

Lemma days_in_month_ge_28 y m : 28 <= Calendar.days_in_month y m.
Proof.
  unfold Calendar.days_in_month.
  repeat match goal with |- context [if ?b then _ else _] => destruct b end; lia.
Qed.

(** A year alone and a year with a month are not full dates. *)
Lemma strptime_year_only y :
  0 <= y <= 9999 -> strptime (Iso.year_only y) = None.
Proof.
  intros Hy. unfold strptime, pattern, Iso.year_only.
  unfold seq_match at 1.
  change (Iso.show4 y) with (Iso.show4 y ++ EmptyString)%string.
  rewrite (group_Y_show4 y _ Hy). reflexivity.
Qed.

Lemma strptime_year_month y m :
  0 <= y <= 9999 -> 1 <= m <= 12 -> strptime (Iso.year_month y m) = None.
Proof.
  intros Hy Hm. unfold strptime, pattern, Iso.year_month.
  unfold seq_match at 1.
  rewrite (group_Y_show4 y _ Hy).
  small_Z m; reflexivity.
Qed.


Lemma one_char_consumed p s v r :
  In (v, r) (one_char p s) -> consumed s r 1 1.
Proof.
  unfold one_char, consumed. destruct s as [|a s]; [intros [] |].
  destruct (p a); [| intros []].
  intros [E | []]. injection E as _ <-. simpl. lia.
Qed.

Lemma two_chars_consumed p q s v r :
  In (v, r) (two_chars p q s) -> consumed s r 2 2.
Proof.
  unfold two_chars, consumed. destruct s as [|a [|b s]]; try (intros []).
  destruct (p a && q b); [| intros []].
  intros [E | []]. injection E as _ <-. simpl. lia.
Qed.

Lemma blank_then_consumed q s v r :
  In (v, r) (blank_then q s) -> consumed s r 2 2.
Proof.
  unfold blank_then, consumed. destruct s as [|a [|b s]]; try (intros []).
  destruct (Ascii.eqb a " " && q b); [| intros []].
  intros [E | []]. injection E as _ <-. simpl. lia.
Qed.

Lemma literal_consumed c s v r :
  In (v, r) (literal c s) -> consumed s r 1 1.
Proof.
  unfold literal, consumed. destruct s as [|a s]; [intros [] |].
  destruct (Ascii.eqb a c); [| intros []].
  intros [E | []]. injection E as _ <-. simpl. lia.
Qed.

Lemma group_Y_consumed s v r :
  In (v, r) (group_Y s) -> consumed s r 4 4.
Proof.
  unfold group_Y, consumed. destruct s as [|a [|b [|c [|d s]]]]; try (intros []).
  destruct (Str.is_digit a && Str.is_digit b && Str.is_digit c && Str.is_digit d);
    [| intros []].
  intros [E | []]. injection E as _ <-. simpl. lia.
Qed.

Lemma group_m_consumed s v r :
  In (v, r) (group_m s) -> consumed s r 1 2.
Proof.
  unfold group_m. rewrite !in_app_iff.
  intros [H | [H | H]];
    [apply two_chars_consumed in H | apply two_chars_consumed in H
     | apply one_char_consumed in H];
    unfold consumed in *; lia.
Qed.

Lemma group_d_consumed s v r :
  In (v, r) (group_d s) -> consumed s r 1 2.
Proof.
  unfold group_d. rewrite !in_app_iff.
  intros [H | [H | [H | [H | H]]]];
    [apply two_chars_consumed in H | apply two_chars_consumed in H
     | apply two_chars_consumed in H | apply one_char_consumed in H
     | apply blank_then_consumed in H];
    unfold consumed in *; lia.
Qed.

Lemma pattern_consumed s d r :
  In (d, r) (pattern s) -> consumed s r 8 10.
Proof.
  unfold pattern, seq_match, pure_match.
  intros H.
  apply in_flat_map in H as [[y s1] [HY H]].
  apply in_flat_map in H as [[u1 s2] [H1 H]].
  apply in_flat_map in H as [[m s3] [Hm H]].
  apply in_flat_map in H as [[u2 s4] [H2 H]].
  apply in_flat_map in H as [[dd s5] [Hd H]].
  destruct H as [E | []]. injection E as _ <-.
  apply group_Y_consumed in HY. apply literal_consumed in H1.
  apply group_m_consumed in Hm. apply literal_consumed in H2.
  apply group_d_consumed in Hd.
  unfold consumed in *. lia.
Qed.

(** Only texts of 8 to 10 characters are read as a date. *)
Lemma strptime_length s d :
  strptime s = Some d -> (8 <= String.length s <= 10)%nat.
Proof.
  unfold strptime. intros H.
  destruct (pattern s) as [|[d0 r] rest] eqn:E; [discriminate |].
  destruct r; [| discriminate].
  assert (Hin : In (d0, EmptyString) (pattern s)) by (rewrite E; left; reflexivity).
  apply pattern_consumed in Hin. unfold consumed in Hin. simpl in Hin. lia.
Qed.

End StrptimeFacts.

(** ** Release-date normalisation *)

Section Normalisation.
Local Open Scope Z_scope.

Lemma normalize_year_only y :
  1 <= y <= 9999 ->
  normalize_release_date (Iso.year_only y) = Normalized (Date y 1 1).
Proof.
  intros Hy. unfold normalize_release_date.
  rewrite StrptimeFacts.strptime_year_only by lia.
  change (Nat.eqb (String.length (Iso.year_only y)) 4) with true. cbv iota.
  change (Iso.year_only y ++ "-01-01")%string with (Iso.full (Date y 1 1)).
  rewrite StrptimeFacts.strptime_full; [reflexivity | lia | lia |].
  pose proof (StrptimeFacts.days_in_month_ge_28 y 1). lia.
Qed.

Lemma normalize_year_month y m :
  1 <= y <= 9999 -> 1 <= m <= 12 ->
  normalize_release_date (Iso.year_month y m) = Normalized (Date y m 1).
Proof.
  intros Hy Hm. unfold normalize_release_date.
  rewrite StrptimeFacts.strptime_year_month by lia.
  change (Nat.eqb (String.length (Iso.year_month y m)) 4) with false.
  change (Nat.eqb (String.length (Iso.year_month y m)) 7) with true. cbv iota.
  change (Iso.year_month y m ++ "-01")%string with (Iso.full (Date y m 1)).
  rewrite StrptimeFacts.strptime_full; [reflexivity | lia | lia |].
  pose proof (StrptimeFacts.days_in_month_ge_28 y m). lia.
Qed.

Lemma normalize_full y m d :
  1 <= y <= 9999 -> 1 <= m <= 12 -> 1 <= d <= Calendar.days_in_month y m ->
  normalize_release_date (Iso.full (Date y m d)) = Normalized (Date y m d).
Proof.
  intros Hy Hm Hd. unfold normalize_release_date.
  now rewrite StrptimeFacts.strptime_full.
Qed.

Lemma normalize_other_length s :
  String.length s <> 4%nat -> String.length s <> 7%nat ->
  normalize_release_date s =
    match Strptime.strptime s with
    | Some d => Normalized d
    | None => Skipped
    end.
Proof.
  intros H4 H7. unfold normalize_release_date.
  destruct (Strptime.strptime s); [reflexivity |].
  destruct (Nat.eqb_spec (String.length s) 4); [contradiction |].
  destruct (Nat.eqb_spec (String.length s) 7); [contradiction | reflexivity].
Qed.

Lemma normalize_escaped_length s :
  normalize_release_date s = Escaped ->
  String.length s = 4%nat \/ String.length s = 7%nat.
Proof.
  unfold normalize_release_date.
  destruct (Strptime.strptime s); [discriminate |].
  destruct (Nat.eqb_spec (String.length s) 4); [auto |].
  destruct (Nat.eqb_spec (String.length s) 7); [auto | discriminate].
Qed.

Example normalize_short_month :
  normalize_release_date "2024-1-5" = Normalized (Date 2024 1 5).
Proof. reflexivity. Qed.

Example normalize_blank_day :
  normalize_release_date "2024-03- 5" = Normalized (Date 2024 3 5).
Proof. reflexivity. Qed.

Example normalize_february_30 : normalize_release_date "2024-02-30" = Skipped.
Proof. reflexivity. Qed.

Example normalize_trailing_text : normalize_release_date "2024-03-155" = Skipped.
Proof. reflexivity. Qed.

Example normalize_letters : normalize_release_date "abcd" = Escaped.
Proof. reflexivity. Qed.

Example normalize_year_zero : normalize_release_date "0000" = Escaped.
Proof. reflexivity. Qed.

Example normalize_month_13 : normalize_release_date "2024-13" = Escaped.
Proof. reflexivity. Qed.

End Normalisation.

(** ** Reasoning about function bodies *)

Section MonadFacts.
Context {S : Type}.

Lemma run_eta {A} (x : list event * S * result A) :
  x = (trace x, locals x, outcome x).
Proof. destruct x as [[t s] r]. reflexivity. Qed.

Lemma bind_ok {A B} (m : Py S A) (k : A -> Py S B) s a :
  outcome (m s) = Ok a ->
  bind m k s =
    (trace (m s) ++ trace (k a (locals (m s))),
     locals (k a (locals (m s))),
     outcome (k a (locals (m s)))).
Proof.
  unfold bind. destruct (m s) as [[t s1] r]. cbn. intros ->.
  destruct (k a s1) as [[t2 s2] r2]. reflexivity.
Qed.

Lemma bind_raise {A B} (m : Py S A) (k : A -> Py S B) s e :
  outcome (m s) = Raise e ->
  bind m k s = (trace (m s), locals (m s), Raise e).
Proof.
  unfold bind. destruct (m s) as [[t s1] r]. cbn. intros ->. reflexivity.
Qed.

Lemma try_ok {A} (m : Py S A) h s a :
  outcome (m s) = Ok a ->
  try_except m h s = (trace (m s), locals (m s), Ok a).
Proof.
  unfold try_except. destruct (m s) as [[t s1] r]. cbn. intros ->. reflexivity.
Qed.

Lemma try_raise {A} (m : Py S A) h s e :
  outcome (m s) = Raise e ->
  try_except m h s =
    (trace (m s) ++ trace (h e (locals (m s))),
     locals (h e (locals (m s))),
     outcome (h e (locals (m s)))).
Proof.
  unfold try_except. destruct (m s) as [[t s1] r]. cbn. intros ->.
  destruct (h e s1) as [[t2 s2] r2]. reflexivity.
Qed.


Lemma total_ret {A} (a : A) : total (S:=S) (ret a).
Proof. intros s. now exists a. Qed.

Lemma total_emit e : total (S:=S) (emit e).
Proof. intros s. now exists tt. Qed.

Lemma total_print m : total (S:=S) (print m).
Proof. apply total_emit. Qed.

Lemma total_get : total (@get S).
Proof. intros s. now exists s. Qed.

Lemma total_put s' : total (S:=S) (put s').
Proof. intros s. now exists tt. Qed.

Lemma total_bind {A B} (m : Py S A) (k : A -> Py S B) :
  total m -> (forall a, total (k a)) -> total (bind m k).
Proof.
  intros Hm Hk s. destruct (Hm s) as [a Ha].
  rewrite (bind_ok _ _ _ _ Ha). cbn. apply Hk.
Qed.

Lemma total_try {A} (m : Py S A) h :
  (forall e, total (h e)) -> total (try_except m h).
Proof.
  intros Hh s. destruct (outcome (m s)) as [a | e] eqn:E.
  - rewrite (try_ok _ _ _ _ E). now exists a.
  - rewrite (try_raise _ _ _ _ E). cbn. apply Hh.
Qed.

Lemma total_for_each {A} (l : list A) (body : A -> Py S unit) :
  (forall x, total (body x)) -> total (for_each l body).
Proof.
  intros Hb. induction l as [|x l IH]; cbn [for_each].
  - apply total_ret.
  - apply total_bind; [apply Hb | intros _; exact IH].
Qed.


Lemma preserves_ret {A} (I : S -> Prop) (a : A) : preserves I (ret a).
Proof. intros s H. exact H. Qed.

Lemma preserves_emit (I : S -> Prop) e : preserves I (emit e).
Proof. intros s H. exact H. Qed.

Lemma preserves_ask {A} (I : S -> Prop) r (answer : result A) : preserves I (ask r answer).
Proof. intros s H. exact H. Qed.

Lemma preserves_bind {A B} (I : S -> Prop) (m : Py S A) (k : A -> Py S B) :
  preserves I m -> (forall a, preserves I (k a)) -> preserves I (bind m k).
Proof.
  intros Hm Hk s H. destruct (outcome (m s)) as [a | e] eqn:E.
  - rewrite (bind_ok _ _ _ _ E). cbn. apply Hk, Hm, H.
  - rewrite (bind_raise _ _ _ _ E). cbn. apply Hm, H.
Qed.

Lemma preserves_try {A} (I : S -> Prop) (m : Py S A) h :
  preserves I m -> (forall e, preserves I (h e)) -> preserves I (try_except m h).
Proof.
  intros Hm Hh s H. destruct (outcome (m s)) as [a | e] eqn:E.
  - rewrite (try_ok _ _ _ _ E). cbn. apply Hm, H.
  - rewrite (try_raise _ _ _ _ E). cbn. apply Hh, Hm, H.
Qed.

Lemma preserves_for_each {A} (I : S -> Prop) (l : list A) (body : A -> Py S unit) :
  (forall x, preserves I (body x)) -> preserves I (for_each l body).
Proof.
  intros Hb. induction l as [|x l IH]; cbn [for_each].
  - apply preserves_ret.
  - apply preserves_bind; [apply Hb | intros _; exact IH].
Qed.

(** The trace of a loop whose body cannot raise is the traces of its
    rounds, one after the other. *)
Lemma for_each_cons_total {A} (x : A) l (body : A -> Py S unit) s :
  total (body x) ->
  for_each (x :: l) body s =
    (trace (body x s) ++ trace (for_each l body (locals (body x s))),
     locals (for_each l body (locals (body x s))),
     outcome (for_each l body (locals (body x s)))).
Proof.
  intros Hb. destruct (Hb s) as [[] E]. cbn [for_each].
  now rewrite (bind_ok _ _ _ _ E).
Qed.

End MonadFacts.

(** Computations over a list that only ever append to it. *)
Section Appending.
Context {T : Type}.


Lemma appends_ret {A} (a : A) : appends (T:=T) (ret a).
Proof. intros st. cbn. now rewrite app_nil_r. Qed.

Lemma appends_raise {A} e : appends (T:=T) (raise (A:=A) e).
Proof. intros st. cbn. now rewrite app_nil_r. Qed.

Lemma appends_emit e : appends (T:=T) (emit e).
Proof. intros st. cbn. now rewrite app_nil_r. Qed.

Lemma appends_ask {A} r (answer : result A) : appends (T:=T) (ask r answer).
Proof. intros st. cbn. now rewrite app_nil_r. Qed.

Lemma appends_push (x : T) :
  appends (bind get (fun l => put (l ++ [x]))).
Proof. intros st. reflexivity. Qed.

Lemma appends_bind {A B} (m : Py (list T) A) (k : A -> Py (list T) B) :
  appends m -> (forall a, appends (k a)) -> appends (bind m k).
Proof.
  intros Hm Hk st.
  destruct (outcome (m [])) as [a | e] eqn:E.
  - assert (E' : outcome (m st) = Ok a) by (rewrite (Hm st); exact E).
    rewrite (bind_ok _ _ _ _ E'), (bind_ok _ _ _ _ E).
    rewrite (Hm st). cbn [trace locals outcome fst snd].
    rewrite (Hk a (st ++ locals (m []))), (Hk a (locals (m []))).
    cbn [trace locals outcome fst snd]. now rewrite app_assoc.
  - assert (E' : outcome (m st) = Raise e) by (rewrite (Hm st); exact E).
    rewrite (bind_raise _ _ _ _ E'), (bind_raise _ _ _ _ E).
    rewrite (Hm st). reflexivity.
Qed.

Lemma appends_try {A} (m : Py (list T) A) h :
  appends m -> (forall e, appends (h e)) -> appends (try_except m h).
Proof.
  intros Hm Hh st.
  destruct (outcome (m [])) as [a | e] eqn:E.
  - assert (E' : outcome (m st) = Ok a) by (rewrite (Hm st); exact E).
    rewrite (try_ok _ _ _ _ E'), (try_ok _ _ _ _ E).
    rewrite (Hm st). reflexivity.
  - assert (E' : outcome (m st) = Raise e) by (rewrite (Hm st); exact E).
    rewrite (try_raise _ _ _ _ E'), (try_raise _ _ _ _ E).
    rewrite (Hm st). cbn [trace locals outcome fst snd].
    rewrite (Hh e (st ++ locals (m []))), (Hh e (locals (m []))).
    cbn [trace locals outcome fst snd]. now rewrite app_assoc.
Qed.

Lemma appends_for_each {A} (l : list A) (body : A -> Py (list T) unit) :
  (forall x, appends (body x)) -> appends (for_each l body).
Proof.
  intros Hb. induction l as [|x l IH]; cbn [for_each].
  - apply appends_ret.
  - apply appends_bind; [apply Hb | intros _; exact IH].
Qed.

Lemma appends_locals {A} (m : Py (list T) A) st :
  appends m -> locals (m st) = st ++ locals (m []).
Proof. intros H. now rewrite (H st). Qed.

Lemma appends_outcome {A} (m : Py (list T) A) st :
  appends m -> outcome (m st) = outcome (m []).
Proof. intros H. now rewrite (H st). Qed.

Lemma appends_trace {A} (m : Py (list T) A) st :
  appends m -> trace (m st) = trace (m []).
Proof. intros H. now rewrite (H st). Qed.

End Appending.

(** ** The Release Scanner *)

Section Scanner.
Variable self : MusicDiscoveryTool.
Variable cutoff_date : datetime.

Lemma scan_album_appends artist album :
  appends (scan_album self cutoff_date artist album).
Proof.
  unfold scan_album.
  destruct (normalize_release_date (album_release_date album)).
  - destruct (Calendar.datetime_ge _ _); [| apply appends_ret].
    apply appends_bind; [apply appends_ask |].
    intros tracks. apply appends_for_each. intros track. apply appends_push.
  - apply appends_ret.
  - apply appends_raise.
Qed.

Lemma scan_albums_appends artist albums :
  appends (for_each albums (scan_album self cutoff_date artist)).
Proof. apply appends_for_each. intros album. apply scan_album_appends. Qed.

Lemma scan_artist_appends n entry :
  appends (scan_artist self cutoff_date n entry).
Proof.
  unfold scan_artist. apply appends_try.
  - apply appends_bind; [apply appends_ask |].
    intros albums. apply appends_bind; [apply scan_albums_appends |].
    intros _. destruct (Nat.eqb _ _); [apply appends_emit | apply appends_ret].
  - intros e. apply appends_emit.
Qed.

Lemma scan_artist_total n entry :
  total (scan_artist self cutoff_date n entry).
Proof. unfold scan_artist. apply total_try. intros e. apply total_print. Qed.

Lemma scan_artists_total artists :
  total (scan_artists self cutoff_date artists).
Proof. apply total_for_each. intros x. apply scan_artist_total. Qed.

Lemma scan_artists_outcome artists st :
  outcome (scan_artists self cutoff_date artists st) = Ok tt.
Proof. destruct (scan_artists_total artists st) as [[] H]. exact H. Qed.

(** When the album lookup raises, the artist adds nothing: the request and
    the report of the error are all that happens. *)
Lemma scan_artist_lookup_raises n i artist e st :
  artist_albums (sp self) (artist_id artist) = Raise e ->
  scan_artist self cutoff_date n (i, artist) st =
    ([Call (ArtistAlbums (artist_id artist));
      Print (ReleaseError (artist_name artist) e)], st, Ok tt).
Proof.
  intros H. unfold scan_artist, try_except, bind, ask, print, emit.
  cbn [fst snd]. rewrite H. reflexivity.
Qed.

Lemma scan_artist_locals n i artist st :
  locals (scan_artist self cutoff_date n (i, artist) st) =
    st ++ artist_tracks self cutoff_date artist.
Proof.
  rewrite (appends_locals _ st (scan_artist_appends n (i, artist))). f_equal.
  unfold artist_tracks.
  destruct (artist_albums (sp self) (artist_id artist)) as [albums | e] eqn:E.
  - unfold scan_artist, try_except, bind, ask. cbn [fst snd]. rewrite E.
    destruct (for_each albums (scan_album self cutoff_date artist) [])
      as [[t l] [[] | e]]; cbn.
    + destruct (Nat.eqb _ _); reflexivity.
    + reflexivity.
  - now rewrite (scan_artist_lookup_raises n i artist e [] E).
Qed.

Lemma scan_from_locals n k artists st :
  locals (for_each (enumerate_from k artists) (scan_artist self cutoff_date n) st) =
    st ++ flat_map (artist_tracks self cutoff_date) artists.
Proof.
  revert k st. induction artists as [|a l IH]; intros k st; cbn [enumerate_from flat_map].
  - cbn. now rewrite app_nil_r.
  - rewrite for_each_cons_total by apply scan_artist_total.
    cbn [locals fst snd]. fold (locals (scan_artist self cutoff_date n (k, a) st)).
    rewrite IH, scan_artist_locals. now rewrite app_assoc.
Qed.

(** What the scanner collects: the tracks of each artist, in order. *)
Lemma scan_artists_locals artists st :
  locals (scan_artists self cutoff_date artists st) =
    st ++ flat_map (artist_tracks self cutoff_date) artists.
Proof. apply scan_from_locals. Qed.

(** Every qualifying track of an artist that scans cleanly is collected. *)
Lemma clean_scan_outcome artist albums :
  (forall album, In album albums ->
     match normalize_release_date (album_release_date album) with
     | Escaped => False
     | Skipped => True
     | Normalized d =>
         Calendar.datetime_ge (Calendar.at_midnight d) cutoff_date = true ->
         exists items, album_tracks (sp self) (album_id album) = Ok items
     end) ->
  forall st, outcome (for_each albums (scan_album self cutoff_date artist) st) = Ok tt.
Proof.
  induction albums as [|album rest IH]; intros Hclean st; [reflexivity |].
  cbn [for_each].
  assert (Hone : outcome (scan_album self cutoff_date artist album st) = Ok tt).
  { specialize (Hclean album (or_introl eq_refl)). unfold scan_album.
    destruct (normalize_release_date (album_release_date album)); [| reflexivity | easy].
    destruct (Calendar.datetime_ge _ _); [| reflexivity].
    destruct (Hclean eq_refl) as [items Hitems].
    unfold bind, ask. rewrite Hitems.
    assert (T : total (S:=list TrackInfo) (for_each items (fun track =>
               bind get (fun recent_tracks =>
               put (recent_tracks ++ [track_info artist album track]))))).
    { apply total_for_each. intros x. apply total_bind; [apply total_get |].
      intros a. apply total_put. }
    destruct (T st) as [[] HT].
    destruct (for_each items _ st) as [[t2 s2] r2]. cbn in *. exact HT. }
  rewrite (bind_ok _ _ _ _ Hone). cbn. apply IH.
  intros a Ha. apply Hclean. now right.
Qed.

Lemma pushed_tracks artist album items st :
  for_each items (fun track =>
      bind get (fun recent_tracks =>
      put (recent_tracks ++ [track_info artist album track]))) st =
    ([], st ++ map (track_info artist album) items, Ok tt).
Proof.
  revert st. induction items as [|x items IH]; intros st; cbn [for_each map].
  - cbn. now rewrite app_nil_r.
  - unfold bind at 1. cbn. rewrite IH. now rewrite <- app_assoc.
Qed.

Lemma qualifying_collected artist t :
  scans_cleanly self cutoff_date artist ->
  qualifying self cutoff_date artist t ->
  In t (artist_tracks self cutoff_date artist).
Proof.
  intros [albums [Hal Hclean]] (albums' & album & d & items & item & Hal' & Hin & Hn & Hge & Hit & Hitem & ->).
  rewrite Hal in Hal'. injection Hal' as <-.
  unfold artist_tracks. rewrite Hal.
  clear Hal. induction albums as [|a rest IH]; [destruct Hin |].
  cbn [for_each].
  assert (Ha : outcome (for_each [a] (scan_album self cutoff_date artist) []) = Ok tt)
    by (apply clean_scan_outcome; intros x [<- | []]; apply Hclean; now left).
  cbn [for_each] in Ha.
  destruct (outcome (scan_album self cutoff_date artist a [])) as [[] | e] eqn:E.
  2:{ rewrite (bind_raise _ _ _ _ E) in Ha. discriminate. }
  rewrite (bind_ok _ _ _ _ E). cbn [locals fst snd].
  fold (locals (for_each rest (scan_album self cutoff_date artist)
                  (locals (scan_album self cutoff_date artist a [])))).
  rewrite (appends_locals _ _ (scan_albums_appends artist rest)).
  apply in_or_app. destruct Hin as [-> | Hin].
  - left. unfold scan_album. rewrite Hn, Hge. unfold bind at 1, ask. rewrite Hit.
    rewrite pushed_tracks. cbn. now apply in_map.
  - right. apply IH; [| exact Hin]. intros x Hx. apply Hclean. now right.
Qed.

(** The scan of an artist starts with the request for the albums. *)
Lemma scan_artist_trace_head n i artist st :
  exists t, trace (scan_artist self cutoff_date n (i, artist) st)
            = Call (ArtistAlbums (artist_id artist)) :: t.
Proof.
  unfold scan_artist, try_except, bind, ask. cbn [fst snd].
  destruct (artist_albums (sp self) (artist_id artist)) as [albums | e'].
  - destruct (for_each albums _ st) as [[t l] [[] | e']].
    + destruct (Nat.eqb ((i + 1) mod 10) 0); cbn; eauto.
    + cbn; eauto.
  - cbn. eauto.
Qed.

End Scanner.

Lemma for_each_app_ok {S A} (l1 l2 : list A) (body : A -> Py S unit) s :
  outcome (for_each l1 body s) = Ok tt ->
  for_each (l1 ++ l2) body s =
    (trace (for_each l1 body s) ++ trace (for_each l2 body (locals (for_each l1 body s))),
     locals (for_each l2 body (locals (for_each l1 body s))),
     outcome (for_each l2 body (locals (for_each l1 body s)))).
Proof.
  revert s. induction l1 as [|x l1 IH]; intros s H.
  - cbn. destruct (for_each l2 body s) as [[t s'] r]. reflexivity.
  - cbn [app for_each] in *.
    destruct (outcome (body x s)) as [[] | e] eqn:E.
    + rewrite (bind_ok _ _ _ _ E) in H. rewrite !(bind_ok _ _ _ _ E).
      cbn [outcome trace locals fst snd] in *.
      rewrite (IH _ H). cbn [outcome trace locals fst snd]. now rewrite app_assoc.
    + rewrite (bind_raise _ _ _ _ E) in H. discriminate.
Qed.

(** The outcome of [get_recent_releases]: an [OverflowError] when the
    cutoff cannot be computed, otherwise the ranked, de-duplicated scan. *)
Lemma get_recent_releases_outcome self now artists :
  outcome (get_recent_releases self now artists) =
    match Calendar.minus_days now (days_lookback self) with
    | Raise e => Raise e
    | Ok cutoff_date =>
        Ok (rank (max_tracks self)
                 (deduplicate (locals (scan_artists self cutoff_date artists []))))
    end.
Proof.
  unfold get_recent_releases, get_recent_releases_body, bind, print, emit, get, ret.
  cbn [fst snd].
  destruct (Calendar.minus_days now (days_lookback self)) as [c | e]; [| reflexivity].
  pose proof (scan_artists_outcome self c artists []) as H.
  destruct (scan_artists self c artists []) as [[t l] r]. cbn in *. subst r.
  reflexivity.
Qed.

Lemma get_recent_releases_locals self now artists cutoff_date :
  Calendar.minus_days now (days_lookback self) = Ok cutoff_date ->
  locals (get_recent_releases self now artists) =
    locals (scan_artists self cutoff_date artists []).
Proof.
  intros Hc.
  unfold get_recent_releases, get_recent_releases_body, bind, print, emit, get, ret.
  cbn [fst snd]. rewrite Hc.
  pose proof (scan_artists_outcome self cutoff_date artists []) as H.
  destruct (scan_artists self cutoff_date artists []) as [[t l] r]. cbn in *. subst r.
  reflexivity.
Qed.

(** C6.  When the album lookup of artist [B] raises while [A], [B] and [C]
    are scanned, the error is reported, the scan goes on to [C] and ends
    normally; what the scanner collected is what [A] and [C] contribute, so
    it holds every qualifying track of [A] and of [C], and the function
    returns what it returns for the list [A; C]. *)
Theorem failed_artist_is_skipped
    (self : MusicDiscoveryTool) (cutoff_date : datetime) (A B C : Artist) (e : exn) :
  artist_albums (sp self) (artist_id B) = Raise e ->
  scans_cleanly self cutoff_date A ->
  scans_cleanly self cutoff_date C ->
  let r := scan_artists self cutoff_date [A; B; C] [] in
  outcome r = Ok tt
  /\ In (Print (ReleaseError (artist_name B) e)) (trace r)
  /\ In (Call (ArtistAlbums (artist_id C))) (trace r)
  /\ locals r = artist_tracks self cutoff_date A ++ artist_tracks self cutoff_date C
  /\ (forall t, qualifying self cutoff_date A t \/ qualifying self cutoff_date C t ->
                In t (locals r))
  /\ locals r = locals (scan_artists self cutoff_date [A; C] [])
  /\ (forall now, outcome (get_recent_releases self now [A; B; C])
                  = outcome (get_recent_releases self now [A; C])).
Proof.
  intros HB HA HC r.
  assert (Hloc : forall c, locals (scan_artists self c [A; B; C] []) =
                           artist_tracks self c A ++ artist_tracks self c C).
  { intros c. rewrite scan_artists_locals. cbn [flat_map app].
    unfold artist_tracks at 2. rewrite HB. cbn. now rewrite app_nil_r. }
  assert (Hloc2 : forall c, locals (scan_artists self c [A; C] []) =
                            artist_tracks self c A ++ artist_tracks self c C).
  { intros c. rewrite scan_artists_locals. cbn [flat_map app]. now rewrite app_nil_r. }
  split; [apply scan_artists_outcome |].
  assert (Htrace : exists t1 t3,
             trace r = t1 ++ [Call (ArtistAlbums (artist_id B));
                              Print (ReleaseError (artist_name B) e)]
                          ++ (Call (ArtistAlbums (artist_id C)) :: t3)).
  { subst r. unfold scan_artists, enumerate. cbn [enumerate_from length].
    rewrite for_each_cons_total by apply scan_artist_total. cbn [trace fst snd].
    rewrite for_each_cons_total by apply scan_artist_total. cbn [trace fst snd].
    rewrite (scan_artist_lookup_raises self cutoff_date 3 1 B e _ HB).
    cbn [trace locals fst snd].
    rewrite for_each_cons_total by apply scan_artist_total. cbn [trace fst snd].
    set (s1 := locals (scan_artist self cutoff_date 3 (0, A) [])).
    destruct (scan_artist_trace_head self cutoff_date 3 2 C s1) as [t3 ->].
    exists (trace (scan_artist self cutoff_date 3 (0, A) [])).
    eexists. reflexivity. }
  destruct Htrace as (t1 & t3 & Ht).
  split; [rewrite Ht; apply in_or_app; right; right; now left |].
  split; [rewrite Ht; apply in_or_app; right; right; right; now left |].
  split; [apply Hloc |].
  split.
  { intros t Ht'. subst r. rewrite Hloc. apply in_or_app.
    destruct Ht' as [Hq | Hq]; [left | right]; now apply qualifying_collected. }
  split; [subst r; now rewrite Hloc, Hloc2 |].
  intros now. rewrite !get_recent_releases_outcome.
  destruct (Calendar.minus_days now (days_lookback self)); [| reflexivity].
  now rewrite Hloc, Hloc2.
Qed.

Lemma failed_artist_is_skipped_witness :
  let r := scan_artists Sample.tool Sample.cutoff_date
             [Sample.Alpha; Sample.Beta; Sample.Gamma] [] in
  outcome r = Ok tt
  /\ In (Print (ReleaseError "Beta" (ApiError "albums of b"))) (trace r)
  /\ In (Call (ArtistAlbums "c")) (trace r)
  /\ map track_name (locals r) = ["Song a1"; "Song c1"]
  /\ outcome (get_recent_releases Sample.tool Sample.now
                [Sample.Alpha; Sample.Beta; Sample.Gamma])
     = outcome (get_recent_releases Sample.tool Sample.now
                  [Sample.Alpha; Sample.Gamma]).
Proof.
  assert (HA : scans_cleanly Sample.tool Sample.cutoff_date Sample.Alpha).
  { eexists. split; [reflexivity |].
    intros a [<- | [<- | []]]; vm_compute; intros; eexists; reflexivity. }
  assert (HC : scans_cleanly Sample.tool Sample.cutoff_date Sample.Gamma).
  { eexists. split; [reflexivity |].
    intros a [<- | []]; vm_compute; intros; eexists; reflexivity. }
  destruct (failed_artist_is_skipped Sample.tool Sample.cutoff_date
              Sample.Alpha Sample.Beta Sample.Gamma (ApiError "albums of b")
              eq_refl HA HC) as (H1 & H2 & H3 & H4 & H5 & H6 & H7).
  split; [exact H1 |]. split; [exact H2 |]. split; [exact H3 |].
  split; [| exact (H7 Sample.now)].
  vm_compute. reflexivity.
Defined.

(** C10.  When the release date of an album has four or seven characters
    that are not a year or a year and a month, normalising it raises inside
    the handler of the first [ValueError].  The exception leaves the loop
    over the albums and is caught by the handler of the artist: the error
    is reported, the tracks of the albums before stay collected and the
    albums after are never looked at.  The album is not passed over the way
    other malformed dates are. *)
Theorem bad_partial_date_abandons_artist
    (self : MusicDiscoveryTool) (cutoff_date : datetime) (n i : nat)
    (artist : Artist) (before after : list Album) (bad : Album)
    (st : list TrackInfo) :
  artist_albums (sp self) (artist_id artist) = Ok (before ++ bad :: after) ->
  normalize_release_date (album_release_date bad) = Escaped ->
  outcome (for_each before (scan_album self cutoff_date artist) st) = Ok tt ->
  let r := scan_artist self cutoff_date n (i, artist) st in
  let earlier := for_each before (scan_album self cutoff_date artist) st in
  trace r = Call (ArtistAlbums (artist_id artist)) :: trace earlier
            ++ [Print (ReleaseError (artist_name artist) ValueError)]
  /\ locals r = locals earlier
  /\ outcome r = Ok tt
  /\ normalize_release_date (album_release_date bad) <> Skipped
  /\ (String.length (album_release_date bad) = 4
      \/ String.length (album_release_date bad) = 7).
Proof.
  intros Hal Hbad Hpre r earlier.
  assert (Hraise : forall s, scan_album self cutoff_date artist bad s
                             = ([], s, Raise ValueError)).
  { intros s. unfold scan_album. rewrite Hbad. reflexivity. }
  assert (Hr : r = (Call (ArtistAlbums (artist_id artist)) :: trace earlier
                      ++ [Print (ReleaseError (artist_name artist) ValueError)],
                    locals earlier, Ok tt)).
  { assert (Hloop : for_each (before ++ bad :: after)
                       (scan_album self cutoff_date artist) st
                     = (trace earlier, locals earlier, Raise ValueError)).
    { rewrite (for_each_app_ok _ _ _ _ Hpre). fold earlier.
      cbn [for_each]. unfold bind. rewrite Hraise. cbn. now rewrite app_nil_r. }
    subst r. unfold scan_artist. cbn [fst snd].
    unfold try_except, bind at 1, ask. rewrite Hal. cbv beta iota.
    rewrite bind_raise with (e := ValueError) by now rewrite Hloop.
    rewrite Hloop. reflexivity. }
  rewrite Hr. cbn [trace locals outcome fst snd].
  repeat split; try reflexivity.
  - rewrite Hbad. discriminate.
  - now apply normalize_escaped_length.
Qed.

Lemma bad_partial_date_abandons_artist_witness :
  let r := scan_artist Sample.tool Sample.cutoff_date 1 (0, Sample.Delta) [] in
  normalize_release_date "abcd" = Escaped
  /\ trace r = [Call (ArtistAlbums "d"); Call (AlbumTracks "d1");
                Print (ReleaseError "Delta" ValueError)]
  /\ map track_album (locals r) = ["Album d1"]
  /\ outcome r = Ok tt
  /\ qualifying Sample.tool Sample.cutoff_date Sample.Delta
       (track_info Sample.Delta (Sample.album "d3" "2024-03-16") (Sample.only_track "d3")).
Proof.
  destruct (bad_partial_date_abandons_artist Sample.tool Sample.cutoff_date 1 0
              Sample.Delta [Sample.album "d1" "2024-03-15"]
              [Sample.album "d3" "2024-03-16"] (Sample.album "d2" "abcd") []
              eq_refl eq_refl eq_refl) as (H1 & H2 & H3 & _).
  split; [reflexivity |].
  split; [exact H1 |].
  split; [rewrite H2; reflexivity |].
  split; [exact H3 |].
  exists [Sample.album "d1" "2024-03-15"; Sample.album "d2" "abcd";
          Sample.album "d3" "2024-03-16"],
         (Sample.album "d3" "2024-03-16"), (Date 2024 3 16),
         [Sample.only_track "d3"], (Sample.only_track "d3").
  repeat split; try reflexivity; simpl; auto.
Defined.

(** An album that is passed over changes nothing and says nothing. *)
Lemma skipped_album_contributes_nothing self cutoff_date artist album st :
  normalize_release_date (album_release_date album) = Skipped ->
  scan_album self cutoff_date artist album st = ([], st, Ok tt).
Proof. intros H. unfold scan_album. now rewrite H. Qed.

(** C1, as the claim states it, fails: a release date of eight characters,
    "2024-1-5", is read by the parser of full dates, and its album is
    scanned. *)
Lemma other_length_date_is_scanned :
  ~ (forall self cutoff_date artist album,
       String.length (album_release_date album) <> 4 ->
       String.length (album_release_date album) <> 7 ->
       String.length (album_release_date album) <> 10 ->
       locals (scan_album self cutoff_date artist album []) = []).
Proof.
  intros H.
  specialize (H Sample.tool (DateTime 738886 0) Sample.Alpha
                (Sample.album "x1" "2024-1-5")).
  vm_compute in H.
  specialize (H ltac:(lia) ltac:(lia) ltac:(lia)).
  discriminate H.
Qed.

(** C1, amended.  Before the comparison with the cutoff a release date
    "YYYY" stands for the first of January of that year, "YYYY-MM" for the
    first day of that month and "YYYY-MM-DD" for itself.  A text of any
    other length is used as the date the parser of full dates reads from it,
    when it reads one (it accepts a month or a day without its leading zero,
    and then the text has 8 to 10 characters); otherwise the album is passed
    over: no request, no message, no track. *)
Theorem release_date_normalization (y m d : Z) :
  (1 <= y <= 9999)%Z -> (1 <= m <= 12)%Z ->
  (1 <= d <= Calendar.days_in_month y m)%Z ->
  normalize_release_date (Iso.year_only y) = Normalized (Date y 1 1)
  /\ normalize_release_date (Iso.year_month y m) = Normalized (Date y m 1)
  /\ normalize_release_date (Iso.full (Date y m d)) = Normalized (Date y m d)
  /\ (forall s,
        String.length s <> 4 -> String.length s <> 7 ->
        normalize_release_date s =
          match Strptime.strptime s with
          | Some d' => Normalized d'
          | None => Skipped
          end)
  /\ (forall s d', Strptime.strptime s = Some d' -> 8 <= String.length s <= 10)
  /\ (forall s,
        String.length s <> 4 -> String.length s <> 7 ->
        ~ (8 <= String.length s <= 10) ->
        normalize_release_date s = Skipped)
  /\ (forall self cutoff_date artist album st,
        normalize_release_date (album_release_date album) = Skipped ->
        scan_album self cutoff_date artist album st = ([], st, Ok tt)).
Proof.
  intros Hy Hm Hd.
  split; [now apply normalize_year_only |].
  split; [now apply normalize_year_month |].
  split; [now apply normalize_full |].
  split; [exact normalize_other_length |].
  split; [exact StrptimeFacts.strptime_length |].
  split; [| exact skipped_album_contributes_nothing].
  intros s H4 H7 Hlen. rewrite normalize_other_length by assumption.
  destruct (Strptime.strptime s) as [d' |] eqn:E; [| reflexivity].
  apply StrptimeFacts.strptime_length in E. contradiction.
Qed.

Lemma release_date_normalization_witness :
  normalize_release_date "2024" = Normalized (Date 2024 1 1)
  /\ normalize_release_date "2024-03" = Normalized (Date 2024 3 1)
  /\ normalize_release_date "2024-03-15" = Normalized (Date 2024 3 15)
  /\ normalize_release_date "15 March 2024" = Skipped.
Proof.
  destruct (release_date_normalization 2024 3 15 ltac:(lia) ltac:(lia)
              ltac:(vm_compute; split; discriminate))
    as (H1 & H2 & H3 & _ & _ & H6 & _).
  split; [exact H1 |]. split; [exact H2 |]. split; [exact H3 |].
  apply H6; simpl; lia.
Defined.

(** ** De-duplication *)

Section Deduplication.

Lemma remove_duplicates_app l1 l2 seen unique :
  remove_duplicates (l1 ++ l2) seen unique =
    remove_duplicates l2 (list_to_set (map track_key l1) ∪ seen)
                      (remove_duplicates l1 seen unique).
Proof.
  revert seen unique. induction l1 as [|t l1 IH]; intros seen unique.
  - cbn. f_equal. set_solver.
  - cbn [app remove_duplicates map]. case_bool_decide as Hk.
    + rewrite IH. f_equal. set_solver.
    + rewrite IH. f_equal. set_solver.
Qed.

Lemma deduplicate_snoc l t :
  deduplicate (l ++ [t]) =
    deduplicate l ++ (if bool_decide (track_key t ∈ map track_key l) then [] else [t]).
Proof.
  unfold deduplicate. rewrite remove_duplicates_app. cbn [remove_duplicates].
  assert (Hseen : track_key t ∈ (list_to_set (map track_key l) ∪ ∅ : gset (string * string))
                  <-> track_key t ∈ map track_key l).
  { rewrite elem_of_union, elem_of_list_to_set. split; [| now left].
    intros [H | H]; [exact H | now apply elem_of_empty in H]. }
  repeat case_bool_decide;
    first [reflexivity | now rewrite app_nil_r | exfalso; tauto].
Qed.

Lemma first_occurrences_snoc l t :
  first_occurrences (l ++ [t]) =
    first_occurrences l ++ (if bool_decide (track_key t ∈ map track_key l) then [] else [t]).
Proof.
  unfold first_occurrences. rewrite imap_app, concat_app. f_equal.
  - f_equal. apply imap_ext. intros i x Hix.
    rewrite take_app_le; [reflexivity |].
    apply lookup_lt_Some in Hix. lia.
  - cbn [imap concat]. rewrite Nat.add_0_r, take_app_length. now rewrite app_nil_r.
Qed.

(** Lines 164-171 keep the first occurrence of every key. *)
Lemma deduplicate_first_occurrences l :
  deduplicate l = first_occurrences l.
Proof.
  induction l as [|t l IH] using rev_ind; [reflexivity |].
  now rewrite deduplicate_snoc, first_occurrences_snoc, IH.
Qed.

Lemma remove_duplicates_NoDup l seen unique :
  NoDup (map track_key unique) ->
  (forall u, In u unique -> track_key u ∈ seen) ->
  NoDup (map track_key (remove_duplicates l seen unique)).
Proof.
  revert seen unique. induction l as [|t l IH]; intros seen unique Hnd Hseen; [exact Hnd |].
  cbn [remove_duplicates]. case_bool_decide as Hk.
  - apply IH.
    + rewrite map_app. cbn [map]. apply NoDup_app. split; [exact Hnd |]. split.
      * intros k Hin Hin'. apply list_elem_of_In in Hin. apply in_map_iff in Hin.
        destruct Hin as (u & <- & Hu). apply Hseen in Hu.
        apply list_elem_of_In in Hin'. destruct Hin' as [E | []].
        rewrite <- E in Hu. contradiction.
      * apply NoDup_singleton.
    + intros u Hu. apply in_app_or in Hu. destruct Hu as [Hu | [<- | []]].
      * apply Hseen in Hu. set_solver.
      * set_solver.
  - apply IH; assumption.
Qed.

Lemma deduplicate_NoDup l : NoDup (map track_key (deduplicate l)).
Proof.
  unfold deduplicate. apply remove_duplicates_NoDup; [constructor | intros u []].
Qed.

End Deduplication.

(** ** The order on strings *)

Section StringOrder.

Lemma compare_not_gt_trans a b c :
  String.compare a b <> Gt -> String.compare b c <> Gt -> String.compare a c <> Gt.
Proof.
  revert b c. induction a as [|x a IH]; intros [|y b] [|z c]; cbn; try congruence.
  unfold Ascii.compare.
  destruct (N.compare_spec (N_of_ascii x) (N_of_ascii y)) as [Exy | Lxy | Gxy];
    destruct (N.compare_spec (N_of_ascii y) (N_of_ascii z)) as [Eyz | Lyz | Gyz];
    try congruence;
    destruct (N.compare_spec (N_of_ascii x) (N_of_ascii z)) as [Exz | Lxz | Gxz];
    try congruence; try lia.
  apply IH.
Qed.

Lemma le_trans a b c :
  Str.le a b = true -> Str.le b c = true -> Str.le a c = true.
Proof.
  unfold Str.le, String.leb. intros H1 H2.
  pose proof (compare_not_gt_trans a b c) as H.
  destruct (String.compare a b), (String.compare b c), (String.compare a c);
    try reflexivity; try discriminate; exfalso; apply H; congruence.
Qed.

Lemma lt_le a b : Str.lt a b = true -> Str.le a b = true.
Proof.
  unfold Str.lt, Str.le, String.ltb, String.leb.
  destruct (String.compare a b); congruence.
Qed.

Lemma not_lt_le a b : Str.lt a b = false -> Str.le b a = true.
Proof.
  unfold Str.lt, Str.le, String.ltb, String.leb.
  rewrite (String.compare_antisym b a).
  destruct (String.compare a b); cbn; congruence.
Qed.

Lemma le_antisym a b : Str.le a b = true -> Str.le b a = true -> a = b.
Proof. apply String.leb_antisym. Qed.

End StringOrder.

(** ** Sorting *)

Section SortFacts.
Context {A : Type} (key : A -> string).

Let ascending (a b : A) : Prop := Str.le (key a) (key b) = true.
Let descending (a b : A) : Prop := Str.le (key b) (key a) = true.

Lemma insert_sorted_Permutation x l :
  Permutation (insert_sorted key x l) (x :: l).
Proof.
  induction l as [|y l IH]; cbn; [reflexivity |].
  destruct (Str.lt (key y) (key x)); [| reflexivity].
  rewrite IH. apply perm_swap.
Qed.

Lemma sort_ascending_Permutation l :
  Permutation (sort_ascending key l) l.
Proof.
  induction l as [|x l IH]; cbn; [reflexivity |].
  rewrite insert_sorted_Permutation. now constructor.
Qed.

Lemma sort_reverse_Permutation l :
  Permutation (sort_reverse key l) l.
Proof.
  unfold sort_reverse.
  rewrite <- Permutation_rev, sort_ascending_Permutation.
  symmetry. apply Permutation_rev.
Qed.

Lemma insert_sorted_StronglySorted x l :
  StronglySorted ascending l -> StronglySorted ascending (insert_sorted key x l).
Proof.
  induction l as [|y l IH]; intros Hs; cbn.
  - repeat constructor.
  - apply StronglySorted_inv in Hs as [Hs Hy].
    destruct (Str.lt (key y) (key x)) eqn:E.
    + constructor; [now apply IH |].
      rewrite Forall_forall. intros z Hz. apply list_elem_of_In in Hz.
      apply (Permutation_in _ (insert_sorted_Permutation x l)) in Hz.
      destruct Hz as [<- | Hz].
      * now apply lt_le.
      * rewrite Forall_forall in Hy. apply Hy. now apply list_elem_of_In.
    + assert (Hxy : ascending x y) by now apply not_lt_le.
      constructor; [now constructor |].
      constructor; [exact Hxy |].
      rewrite Forall_forall in *. intros z Hz.
      unfold ascending. eapply le_trans; [exact Hxy | now apply Hy].
Qed.

Lemma sort_ascending_StronglySorted l :
  StronglySorted ascending (sort_ascending key l).
Proof.
  induction l as [|x l IH]; cbn; [constructor |].
  now apply insert_sorted_StronglySorted.
Qed.

Lemma StronglySorted_rev (R : A -> A -> Prop) l :
  StronglySorted R l -> StronglySorted (fun a b => R b a) (rev l).
Proof.
  induction 1 as [|x l Hs IH Hx]; cbn; [constructor |].
  apply StronglySorted_app_2; [| exact IH | repeat constructor].
  intros a b Ha Hb. apply list_elem_of_In in Ha, Hb.
  destruct Hb as [<- | []]. apply in_rev in Ha.
  rewrite Forall_forall in Hx. apply Hx. now apply list_elem_of_In.
Qed.

Lemma sort_reverse_StronglySorted l :
  StronglySorted descending (sort_reverse key l).
Proof.
  unfold sort_reverse.
  apply (StronglySorted_rev ascending), sort_ascending_StronglySorted.
Qed.

Lemma StronglySorted_lookup (R : A -> A -> Prop) l i j a b :
  StronglySorted R l -> i < j -> l !! i = Some a -> l !! j = Some b -> R a b.
Proof.
  intros Hs. revert i j. induction Hs as [|x l Hs IH Hx]; intros i j Hij Hi Hj.
  - discriminate.
  - destruct j as [|j]; [lia |]. cbn in Hj.
    destruct i as [|i]; cbn in Hi.
    + injection Hi as <-. rewrite Forall_forall in Hx. apply Hx.
      eapply list_elem_of_lookup_2. exact Hj.
    + apply (IH i j); [lia | assumption | assumption].
Qed.

(** Elements with the same key keep their order: the sort is stable. *)
Lemma insert_sorted_filter k x l :
  StronglySorted ascending l ->
  List.filter (fun a => String.eqb (key a) k) (insert_sorted key x l) =
  List.filter (fun a => String.eqb (key a) k) (x :: l).
Proof.
  induction l as [|y l IH]; intros Hs; [reflexivity |].
  cbn [insert_sorted]. destruct (Str.lt (key y) (key x)) eqn:E; [| reflexivity].
  apply StronglySorted_inv in Hs as [Hs Hy].
  cbn [List.filter] in *. rewrite (IH Hs).
  destruct (String.eqb_spec (key y) k) as [Ey | Ny]; [| reflexivity].
  destruct (String.eqb_spec (key x) k) as [Ex | Nx]; [| reflexivity].
  exfalso. rewrite Ey, Ex in E. unfold Str.lt, String.ltb in E.
  assert (Hc : String.compare k k = Eq).
  { pose proof (String.compare_antisym k k) as Ha.
    destruct (String.compare k k); cbn in Ha; congruence. }
  rewrite Hc in E. discriminate.
Qed.

Lemma sort_ascending_filter k l :
  List.filter (fun a => String.eqb (key a) k) (sort_ascending key l) =
  List.filter (fun a => String.eqb (key a) k) l.
Proof.
  induction l as [|x l IH]; [reflexivity |].
  cbn [sort_ascending].
  rewrite insert_sorted_filter by apply sort_ascending_StronglySorted.
  cbn [List.filter]. now rewrite IH.
Qed.

Lemma filter_rev (p : A -> bool) l :
  List.filter p (rev l) = rev (List.filter p l).
Proof.
  induction l as [|x l IH]; [reflexivity |].
  cbn [rev List.filter]. rewrite List.filter_app, IH. cbn [List.filter].
  destruct (p x); cbn; [reflexivity | now rewrite app_nil_r].
Qed.

Lemma sort_reverse_stable k l :
  List.filter (fun a => String.eqb (key a) k) (sort_reverse key l) =
  List.filter (fun a => String.eqb (key a) k) l.
Proof.
  unfold sort_reverse.
  now rewrite filter_rev, sort_ascending_filter, filter_rev, rev_involutive.
Qed.

End SortFacts.

(** ** Ranking and truncation *)

Section Ranking.

Lemma slice_to_take {A} (l : list A) (n : Z) :
  exists k, slice_to l n = take k l.
Proof. unfold slice_to. destruct (0 <=? n)%Z; eauto. Qed.

Lemma slice_to_length {A} (l : list A) (n : Z) :
  (0 <= n)%Z -> (Z.of_nat (length (slice_to l n)) <= n)%Z.
Proof.
  intros Hn. unfold slice_to. destruct (Z.leb_spec 0 n); [| lia].
  rewrite length_take. lia.
Qed.

Lemma slice_to_negative_length {A} (l : list A) (n : Z) :
  (n < 0)%Z -> length (slice_to l n) = Z.to_nat (Z.of_nat (length l) + n).
Proof.
  intros Hn. unfold slice_to. destruct (Z.leb_spec 0 n); [lia |].
  rewrite length_take. lia.
Qed.

Lemma descending_take tracks k :
  descending_by_raw_date tracks -> descending_by_raw_date (take k tracks).
Proof.
  intros H i j a b Hij Hi Hj.
  apply lookup_take_Some in Hi as [Hi _]. apply lookup_take_Some in Hj as [Hj _].
  exact (H i j a b Hij Hi Hj).
Qed.

Lemma sort_reverse_descending tracks :
  descending_by_raw_date (sort_reverse track_release_date tracks).
Proof.
  intros i j a b Hij Hi Hj.
  exact (StronglySorted_lookup _ _ i j a b
           (sort_reverse_StronglySorted track_release_date tracks) Hij Hi Hj).
Qed.

Lemma rank_descending m tracks : descending_by_raw_date (rank m tracks).
Proof.
  unfold rank. destruct (slice_to_take (sort_reverse track_release_date tracks) m) as [k ->].
  apply descending_take, sort_reverse_descending.
Qed.

Lemma rank_NoDup m tracks :
  NoDup (map track_key tracks) -> NoDup (map track_key (rank m tracks)).
Proof.
  intros H. unfold rank.
  destruct (slice_to_take (sort_reverse track_release_date tracks) m) as [k ->].
  rewrite <- firstn_map. eapply sublist_NoDup; [| apply sublist_take].
  pose proof (Permutation_map track_key
                (sort_reverse_Permutation track_release_date tracks)) as HP.
  rewrite HP. exact H.
Qed.

(** A descending list puts "2024-03-15" before "2024-02-01". *)
Lemma descending_march_before_february tracks i j a b :
  descending_by_raw_date tracks ->
  tracks !! i = Some a -> tracks !! j = Some b ->
  track_release_date a = "2024-03-15" -> track_release_date b = "2024-02-01" ->
  i < j.
Proof.
  intros H Hi Hj Ha Hb.
  destruct (Nat.lt_trichotomy i j) as [Hlt | [-> | Hgt]]; [exact Hlt | |].
  - rewrite Hi in Hj. injection Hj as <-. rewrite Ha in Hb. discriminate.
  - pose proof (H j i b a Hgt Hj Hi) as Hle. rewrite Ha, Hb in Hle.
    vm_compute in Hle. discriminate.
Qed.

End Ranking.

(** ** Keys and case *)

Section CaseInsensitivity.

Lemma every_character c : In c all_characters.
Proof.
  unfold all_characters. rewrite <- (ascii_nat_embedding c).
  apply in_map. apply in_seq. pose proof (nat_ascii_bounded c). lia.
Qed.

(** [str.lower] against the table of the cased letters, character by
    character: all 65536 pairs. *)
Lemma case_table :
  forallb (fun a =>
             forallb (fun b =>
                        Bool.eqb (Ascii.eqb (Str.lower_char a) (Str.lower_char b))
                                 (same_letter a b))
                     all_characters)
          all_characters = true.
Proof. vm_compute. reflexivity. Qed.

(** Two characters have one lower-case form exactly when they are the same
    character or the two forms of one letter. *)
Lemma lower_char_same_letter a b :
  Str.lower_char a = Str.lower_char b <-> same_letter a b = true.
Proof.
  pose proof case_table as H. rewrite forallb_forall in H.
  specialize (H a (every_character a)). rewrite forallb_forall in H.
  specialize (H b (every_character b)). apply Bool.eqb_prop in H.
  rewrite <- H. symmetry. apply Ascii.eqb_eq.
Qed.

Lemma lower_equal_ignoring_case s t :
  Str.lower s = Str.lower t <-> equal_ignoring_case s t = true.
Proof.
  revert t. induction s as [|a s IH]; intros [|b t]; cbn [Str.lower equal_ignoring_case].
  - split; reflexivity.
  - split; discriminate.
  - split; discriminate.
  - rewrite andb_true_iff, <- lower_char_same_letter, <- IH. split.
    + intros E. injection E as E1 E2. now split.
    + intros [E1 E2]. now rewrite E1, E2.
Qed.

(** The key of line 168 is the same for two tracks exactly when their
    names and their artists are equal up to case. *)
Lemma track_key_ignores_case a b :
  track_key a = track_key b <-> same_track_ignoring_case a b = true.
Proof.
  unfold track_key, same_track_ignoring_case.
  rewrite andb_true_iff, <- !lower_equal_ignoring_case. split.
  - intros E. injection E as E1 E2. now split.
  - intros [E1 E2]. now rewrite E1, E2.
Qed.

Lemma key_seen_ignoring_case t l :
  bool_decide (track_key t ∈ map track_key l)
  = existsb (same_track_ignoring_case t) l.
Proof.
  apply Bool.eq_iff_eq_true.
  rewrite bool_decide_eq_true, existsb_exists, list_elem_of_In, in_map_iff.
  split.
  - intros (x & E & Hx). exists x. split; [exact Hx |].
    apply track_key_ignores_case. now symmetry.
  - intros (x & Hx & E). exists x. split; [| exact Hx].
    symmetry. now apply track_key_ignores_case.
Qed.

Lemma first_occurrences_ignoring_case l :
  first_occurrences l = first_ignoring_case l.
Proof.
  unfold first_occurrences, first_ignoring_case. f_equal.
  apply imap_ext. intros i t _. now rewrite key_seen_ignoring_case.
Qed.

Lemma distinct_keys_ignoring_case l :
  NoDup (map track_key l) -> distinct_ignoring_case l.
Proof.
  intros Hnd i j a b Hij Hi Hj.
  destruct (same_track_ignoring_case a b) eqn:E; [| reflexivity].
  apply track_key_ignores_case in E.
  assert (Ha : map track_key l !! i = Some (track_key a))
    by (change (map track_key l) with (track_key <$> l);
        now rewrite list_lookup_fmap, Hi).
  assert (Hb : map track_key l !! j = Some (track_key a))
    by (change (map track_key l) with (track_key <$> l);
        now rewrite list_lookup_fmap, Hj, E).
  pose proof (NoDup_lookup _ _ _ _ Hnd Ha Hb). lia.
Qed.

End CaseInsensitivity.

(** C2.  The key of line 168 identifies two tracks exactly when their names
    and their artists are equal up to the case of letters.  Lines 164-171
    keep exactly the first occurrence, in scan order, of every such key: a
    track stays unless an earlier track of the list has the same name and
    artist up to case.  So no two tracks they keep are the same up to
    case, none share a lower-cased (name, artist) pair; the same holds
    after the ranking, and so for the list [get_recent_releases]
    returns. *)
Theorem deduplication_keeps_first_occurrences
    (recent_tracks : list TrackInfo) (self : MusicDiscoveryTool)
    (now cutoff_date : datetime) (artists : list Artist) :
  Calendar.minus_days now (days_lookback self) = Ok cutoff_date ->
  (forall a b, track_key a = track_key b <-> same_track_ignoring_case a b = true)
  /\ deduplicate recent_tracks = first_ignoring_case recent_tracks
  /\ distinct_ignoring_case (deduplicate recent_tracks)
  /\ deduplicate recent_tracks = first_occurrences recent_tracks
  /\ NoDup (map track_key (deduplicate recent_tracks))
  /\ NoDup (map track_key (rank (max_tracks self) (deduplicate recent_tracks)))
  /\ exists final,
       outcome (get_recent_releases self now artists) = Ok final
       /\ final = rank (max_tracks self)
                       (first_occurrences (locals (get_recent_releases self now artists)))
       /\ final = rank (max_tracks self)
                       (first_ignoring_case (locals (get_recent_releases self now artists)))
       /\ NoDup (map track_key final)
       /\ distinct_ignoring_case final.
Proof.
  intros Hc.
  split; [apply track_key_ignores_case |].
  split; [now rewrite deduplicate_first_occurrences, first_occurrences_ignoring_case |].
  split; [apply distinct_keys_ignoring_case, deduplicate_NoDup |].
  split; [apply deduplicate_first_occurrences |].
  split; [apply deduplicate_NoDup |].
  split; [apply rank_NoDup, deduplicate_NoDup |].
  rewrite get_recent_releases_outcome, Hc.
  rewrite (get_recent_releases_locals self now artists cutoff_date Hc).
  eexists. split; [reflexivity |].
  rewrite <- first_occurrences_ignoring_case, <- deduplicate_first_occurrences.
  split; [reflexivity |]. split; [reflexivity |].
  split; [apply rank_NoDup, deduplicate_NoDup |].
  apply distinct_keys_ignoring_case, rank_NoDup, deduplicate_NoDup.
Qed.

Lemma deduplication_keeps_first_occurrences_witness :
  map track_id (deduplicate Scenario.mixed_case) = ["1"; "3"; "4"]
  /\ map track_name (deduplicate (locals (get_recent_releases Sample.tool Sample.now
                                            [Sample.Alpha; Sample.Gamma; Sample.Alpha])))
     = ["Song a1"; "Song c1"]
  /\ exists final,
       outcome (get_recent_releases Sample.tool Sample.now
                  [Sample.Alpha; Sample.Gamma; Sample.Alpha]) = Ok final
       /\ NoDup (map track_key final)
       /\ distinct_ignoring_case final.
Proof.
  split.
  - destruct (deduplication_keeps_first_occurrences
                Scenario.mixed_case Sample.tool Sample.now Sample.cutoff_date
                [Sample.Alpha; Sample.Gamma; Sample.Alpha] eq_refl)
      as (_ & H2 & _).
    rewrite H2. vm_compute. reflexivity.
  - destruct (deduplication_keeps_first_occurrences
                (locals (get_recent_releases Sample.tool Sample.now
                           [Sample.Alpha; Sample.Gamma; Sample.Alpha]))
                Sample.tool Sample.now Sample.cutoff_date
                [Sample.Alpha; Sample.Gamma; Sample.Alpha] eq_refl)
      as (_ & _ & _ & H1 & _ & _ & final & H4 & _ & _ & H6 & H7).
    split.
    + rewrite H1. vm_compute. reflexivity.
    + exists final. split; [exact H4 |]. split; assumption.
Defined.

(** C4.  [get_recent_releases] returns the de-duplicated tracks sorted by
    the raw release-date string, greatest first in the order of the
    characters, cut to the maximum; a track dated "2024-03-15" therefore
    stands before a track dated "2024-02-01". *)
Theorem ranked_by_raw_release_date
    (self : MusicDiscoveryTool) (now cutoff_date : datetime) (artists : list Artist) :
  Calendar.minus_days now (days_lookback self) = Ok cutoff_date ->
  let unique_tracks := deduplicate (locals (scan_artists self cutoff_date artists [])) in
  let sorted := sort_reverse track_release_date unique_tracks in
  exists final,
    outcome (get_recent_releases self now artists) = Ok final
    /\ final = slice_to sorted (max_tracks self)
    /\ Permutation sorted unique_tracks
    /\ descending_by_raw_date sorted
    /\ descending_by_raw_date final
    /\ (forall i j a b,
          final !! i = Some a -> final !! j = Some b ->
          track_release_date a = "2024-03-15" ->
          track_release_date b = "2024-02-01" ->
          i < j).
Proof.
  intros Hc unique_tracks sorted.
  rewrite get_recent_releases_outcome, Hc.
  eexists. split; [reflexivity |].
  split; [reflexivity |].
  split; [apply sort_reverse_Permutation |].
  split; [apply sort_reverse_descending |].
  split; [apply rank_descending |].
  intros i j a b. apply descending_march_before_february, rank_descending.
Qed.

Lemma ranked_by_raw_release_date_witness :
  exists final,
    outcome (get_recent_releases Sample.spring_tool Sample.now [Sample.Alpha]) = Ok final
    /\ map track_release_date final = ["2024-03-15"; "2024-02-01"]
    /\ descending_by_raw_date final.
Proof.
  destruct (ranked_by_raw_release_date Sample.spring_tool Sample.now
              (DateTime 738905 0) [Sample.Alpha] eq_refl)
    as (final & H1 & H2 & _ & _ & H5 & _).
  exists final. split; [exact H1 |]. split; [| exact H5].
  rewrite H2. vm_compute. reflexivity.
Defined.

(** C5, as the claim states it, fails: with [MAX_TRACKS_PER_PLAYLIST=-1]
    the slice [unique_tracks[:-1]] drops the last track only, and one
    track is more than minus one. *)
Lemma negative_maximum_is_exceeded :
  ~ (forall self now artists final,
       outcome (get_recent_releases self now artists) = Ok final ->
       (Z.of_nat (length final) <= max_tracks self)%Z).
Proof.
  intros H.
  specialize (H Sample.negative_tool Sample.now [Sample.Alpha; Sample.Gamma]
                _ eq_refl).
  vm_compute in H. apply H. reflexivity.
Qed.

(** C5, amended.  For every list of artists and every configured maximum
    that is not negative, [get_recent_releases] returns at most that many
    tracks. *)
Theorem track_count_within_maximum
    (self : MusicDiscoveryTool) (now cutoff_date : datetime) (artists : list Artist) :
  Calendar.minus_days now (days_lookback self) = Ok cutoff_date ->
  (0 <= max_tracks self)%Z ->
  exists final,
    outcome (get_recent_releases self now artists) = Ok final
    /\ (Z.of_nat (length final) <= max_tracks self)%Z.
Proof.
  intros Hc Hmax. rewrite get_recent_releases_outcome, Hc.
  eexists. split; [reflexivity |].
  unfold rank. now apply slice_to_length.
Qed.

Lemma track_count_within_maximum_witness :
  exists final,
    outcome (get_recent_releases Sample.tool Sample.now
               [Sample.Alpha; Sample.Gamma]) = Ok final
    /\ (Z.of_nat (length final) <= 50)%Z.
Proof.
  exact (track_count_within_maximum Sample.tool Sample.now Sample.cutoff_date
           [Sample.Alpha; Sample.Gamma] eq_refl ltac:(vm_compute; discriminate)).
Defined.

(** C3 at a failing input.  Two albums inside the window, dated
    "2024-10-01" and "2024-9-30": both dates are accepted and normalised,
    to the first of October and the thirtieth of September, but the track
    of September is returned first, because the character 9 is greater
    than the character 1. *)
Lemma raw_order_is_not_chronological :
  exists final,
    outcome (get_recent_releases Sample.autumn_tool Sample.autumn_now [Sample.Alpha])
      = Ok final
    /\ map track_release_date final = ["2024-9-30"; "2024-10-01"]
    /\ map normalize_release_date (map track_release_date final)
       = [Normalized (Date 2024 9 30); Normalized (Date 2024 10 1)]
    /\ ~ Calendar.date_le (Date 2024 10 1) (Date 2024 9 30).
Proof.
  eexists. split; [vm_compute; reflexivity |].
  split; [reflexivity |]. split; [reflexivity |].
  unfold Calendar.date_le. cbn. lia.
Qed.

(** ** The Playlist Publisher *)

Section Publisher.

Lemma slice_take_drop {A} (l : list A) i b : slice l i (i + b) = take b (drop i l).
Proof. unfold slice. f_equal. lia. Qed.

Lemma chunks_concat {A} (l : list A) b s c :
  concat (map (fun k => slice l (k * b) (k * b + b)) (seq s c)) =
    take (c * b) (drop (s * b) l).
Proof.
  revert s. induction c as [|c IH]; intros s; [reflexivity |].
  cbn [seq map concat]. rewrite IH, slice_take_drop.
  replace (Datatypes.S s * b) with (s * b + b) by lia.
  now rewrite <- drop_drop, take_take_drop.
Qed.

Lemma range_step_count stop b :
  0 < b -> stop <= (stop + b - 1) / b * b.
Proof.
  intros Hb.
  pose proof (Nat.div_mod_eq (stop + b - 1) b) as E.
  pose proof (Nat.mod_upper_bound (stop + b - 1) b ltac:(lia)) as U.
  nia.
Qed.

Lemma range_step_lt stop b i :
  0 < b -> In i (range_step stop b) -> i < stop.
Proof.
  intros Hb Hi. unfold range_step in Hi. apply in_map_iff in Hi as (k & <- & Hk).
  apply in_seq in Hk.
  pose proof (Nat.div_mod_eq (stop + b - 1) b) as E.
  pose proof (Nat.mod_upper_bound (stop + b - 1) b ltac:(lia)) as U.
  nia.
Qed.

Lemma range_step_length stop b : length (range_step stop b) = (stop + b - 1) / b.
Proof. unfold range_step. now rewrite length_map, length_seq. Qed.

(** The slices taken at the items of [range(0, len(l), b)] make up [l]. *)
Lemma batches_concat {A} (l : list A) b :
  0 < b ->
  concat (map (fun i => slice l i (i + b)) (range_step (length l) b)) = l.
Proof.
  intros Hb. unfold range_step. rewrite map_map.
  rewrite (chunks_concat l b 0). cbn [Nat.mul drop].
  apply take_ge. now apply range_step_count.
Qed.

Lemma batch_length {A} (l : list A) i b :
  length (slice l i (i + b)) = Nat.min b (length l - i).
Proof. rewrite slice_take_drop, length_take, length_drop. reflexivity. Qed.

Lemma asks_all_answered {S A} (l : list A) (req : A -> request)
    (answer : A -> result unit) (s : S) :
  (forall x, answer x = Ok tt) ->
  for_each l (fun x => ask (req x) (answer x)) s =
    (map (fun x => Call (req x)) l, s, Ok tt).
Proof.
  intros H. induction l as [|x l IH]; [reflexivity |].
  cbn [for_each map]. unfold bind, ask at 1. rewrite H, IH. reflexivity.
Qed.

Lemma added_batches_app t1 t2 :
  added_batches (t1 ++ t2) = added_batches t1 ++ added_batches t2.
Proof.
  induction t1 as [|e t1 IH]; [reflexivity |].
  destruct e as [m | []]; cbn; rewrite ?IH; reflexivity.
Qed.

Lemma added_batches_calls pid (batches : list (list string)) :
  added_batches (map (fun b => Call (PlaylistAddItems pid b)) batches) = batches.
Proof. induction batches as [|b l IH]; cbn; [reflexivity | now rewrite IH]. Qed.

(** What [create_playlist] does when the service answers every request. *)
Lemma create_playlist_succeeds self today tracks playlist :
  tracks <> [] ->
  user_playlist_create (sp self) (playlist_request self today) = Ok playlist ->
  (forall batch, playlist_add_items (sp self) (playlist_id playlist) batch = Ok tt) ->
  create_playlist self today tracks tt =
    (Call (UserPlaylistCreate (playlist_request self today))
       :: map (fun b => Call (PlaylistAddItems (playlist_id playlist) b))
              (map (fun i => slice (map track_uri tracks) i (i + 100))
                   (range_step (length (map track_uri tracks)) 100))
       ++ [Print (CreatedPlaylist (playlist_prefix self) today (length tracks));
           Print (PlaylistUrl (playlist_url playlist))],
     tt, Ok (Some (playlist_id playlist))).
Proof.
  intros Hne Hcreate Hadd. destruct tracks as [|t0 tracks]; [contradiction |].
  unfold create_playlist, try_except. unfold bind at 1, ask at 1.
  rewrite Hcreate. unfold add_batches.
  unfold bind at 1.
  rewrite (asks_all_answered _
             (fun i => PlaylistAddItems (playlist_id playlist)
                         (slice (map track_uri (t0 :: tracks)) i (i + 100)))
             (fun i => playlist_add_items (sp self) (playlist_id playlist)
                         (slice (map track_uri (t0 :: tracks)) i (i + 100))))
    by (intros x; apply Hadd).
  unfold bind, print, emit, ret. cbn [fst snd]. rewrite map_map.
  reflexivity.
Qed.

End Publisher.

(** C8.  When the service answers every request, [create_playlist] on a
    track list that is not empty adds the track references in consecutive
    batches: the batches, one after the other, are the references of the
    tracks in order, none is empty or longer than 100, and there are
    [ceil (n / 100)] of them; 150 tracks go in two requests, of 100 and of
    50. *)
Theorem playlist_is_filled_in_batches
    (self : MusicDiscoveryTool) (today : datetime) (tracks : list TrackInfo)
    (playlist : Playlist) :
  tracks <> [] ->
  user_playlist_create (sp self) (playlist_request self today) = Ok playlist ->
  (forall batch, playlist_add_items (sp self) (playlist_id playlist) batch = Ok tt) ->
  let r := create_playlist self today tracks tt in
  let batches := added_batches (trace r) in
  outcome r = Ok (Some (playlist_id playlist))
  /\ concat batches = map track_uri tracks
  /\ Forall (fun b => 1 <= length b <= 100) batches
  /\ length batches = (length tracks + 99) / 100
  /\ map length batches =
       map (fun i => Nat.min 100 (length tracks - i)) (range_step (length tracks) 100)
  /\ (length tracks = 150 -> map length batches = [100; 50]).
Proof.
  intros Hne Hcreate Hadd r batches.
  assert (Hb : batches = map (fun i => slice (map track_uri tracks) i (i + 100))
                             (range_step (length tracks) 100)).
  { subst batches r. rewrite (create_playlist_succeeds _ _ _ _ Hne Hcreate Hadd).
    cbn [trace fst snd added_batches]. rewrite added_batches_app, added_batches_calls.
    cbn. now rewrite app_nil_r, length_map. }
  assert (Hlen : map length batches =
                 map (fun i => Nat.min 100 (length tracks - i))
                     (range_step (length tracks) 100)).
  { rewrite Hb, map_map. apply map_ext. intros i.
    now rewrite batch_length, length_map. }
  split; [subst r; now rewrite (create_playlist_succeeds _ _ _ _ Hne Hcreate Hadd) |].
  split.
  { rewrite Hb. rewrite <- (length_map track_uri tracks).
    apply batches_concat. lia. }
  split.
  { rewrite Hb. apply Forall_forall. intros b Hin. apply list_elem_of_In in Hin.
    apply in_map_iff in Hin as (i & <- & Hi).
    apply range_step_lt in Hi; [| lia].
    rewrite batch_length, length_map. lia. }
  split.
  { rewrite Hb, length_map, range_step_length. f_equal. lia. }
  split; [exact Hlen |].
  intros H150. rewrite Hlen, H150. reflexivity.
Qed.

Lemma playlist_is_filled_in_batches_witness :
  let r := create_playlist Sample.tool Sample.now Sample.hundred_and_fifty tt in
  outcome r = Ok (Some "p1")
  /\ concat (added_batches (trace r)) = map track_uri Sample.hundred_and_fifty
  /\ map length (added_batches (trace r)) = [100; 50].
Proof.
  destruct (playlist_is_filled_in_batches Sample.tool Sample.now
              Sample.hundred_and_fifty {| playlist_id := "p1"; playlist_url := "url:p1" |}
              ltac:(discriminate) eq_refl (fun _ => eq_refl))
    as (H1 & H2 & _ & _ & _ & H6).
  split; [exact H1 |]. split; [exact H2 |]. exact (H6 eq_refl).
Defined.

(** ** The Related-Artist Expander *)

Section Expander.
Variable self : MusicDiscoveryTool.
Variable artist_ids : list string.
Variable max_similar : Z.

(** What stays true of [similar_artists] and [seen_ids]. *)
Let kept (st : similar_locals) : Prop :=
  NoDup (map artist_id st.1)
  /\ (forall a, In a st.1 -> artist_id a ∈ st.2)
  /\ (forall a, In a st.1 -> ~ In (artist_id a) artist_ids)
  /\ (forall x, In x artist_ids -> x ∈ st.2)
  /\ (Z.of_nat (length st.1) <= Z.max 0 max_similar)%Z.

Lemma kept_initially : kept ([], list_to_set artist_ids).
Proof.
  unfold kept. cbn. split; [constructor |]. split; [intros a [] |].
  split; [intros a [] |]. split; [| lia].
  intros x Hx. apply elem_of_list_to_set. now apply list_elem_of_In.
Qed.

Lemma consider_run artist st :
  consider max_similar artist st =
    ([],
     if bool_decide (artist_id artist ∉ st.2)
        && (Z.of_nat (length st.1) <? max_similar)%Z
     then (st.1 ++ [artist], {[artist_id artist]} ∪ st.2)
     else st,
     Ok tt).
Proof.
  unfold consider, bind, get. cbn [fst snd].
  destruct (bool_decide (artist_id artist ∉ st.2)
            && (Z.of_nat (length st.1) <? max_similar)%Z); reflexivity.
Qed.

Lemma consider_kept artist : preserves kept (consider max_similar artist).
Proof.
  intros [similar seen] (Hnd & Hseen & Hnew & Hids & Hlen).
  rewrite consider_run. cbn [locals fst snd] in *.
  destruct (bool_decide (artist_id artist ∉ seen)) eqn:E; cbn [andb];
    [| repeat split; assumption].
  destruct (Z.ltb_spec (Z.of_nat (length similar)) max_similar);
    [| repeat split; assumption].
  apply bool_decide_eq_true in E.
  unfold kept. cbn [fst snd]. split.
  { rewrite map_app. cbn [map]. apply NoDup_app. split; [exact Hnd |]. split.
    - intros k Hin Hin'. apply list_elem_of_In in Hin. apply in_map_iff in Hin.
      destruct Hin as (u & <- & Hu). apply Hseen in Hu.
      apply list_elem_of_In in Hin'. destruct Hin' as [E' | []].
      rewrite <- E' in Hu. contradiction.
    - apply NoDup_singleton. }
  split.
  { intros a Ha. apply in_app_or in Ha. destruct Ha as [Ha | [<- | []]].
    - apply Hseen in Ha. set_solver.
    - set_solver. }
  split.
  { intros a Ha. apply in_app_or in Ha. destruct Ha as [Ha | [<- | []]].
    - now apply Hnew.
    - intros Hin. apply Hids in Hin. contradiction. }
  split.
  { intros x Hx. apply Hids in Hx. set_solver. }
  rewrite length_app. cbn [length]. lia.
Qed.

Lemma consider_total artist : total (consider max_similar artist).
Proof. intros st. rewrite consider_run. now exists tt. Qed.

Lemma considered_silently related st :
  trace (for_each related (consider max_similar) st) = []
  /\ outcome (for_each related (consider max_similar) st) = Ok tt.
Proof.
  revert st. induction related as [|a l IH]; intros st; [now split |].
  rewrite for_each_cons_total by apply consider_total.
  rewrite consider_run. cbn [trace locals outcome fst snd]. apply IH.
Qed.

Lemma expand_kept sample_size entry :
  preserves kept (expand self max_similar sample_size entry).
Proof.
  unfold expand. apply preserves_try.
  - apply preserves_bind; [apply preserves_ask |].
    intros related. apply preserves_bind.
    + apply preserves_for_each. intros a. apply consider_kept.
    + intros _. apply preserves_emit.
  - intros e. apply preserves_emit.
Qed.

Lemma expand_total sample_size entry :
  total (expand self max_similar sample_size entry).
Proof. unfold expand. apply total_try. intros e. apply total_print. Qed.

Lemma related_queries_app t1 t2 :
  related_queries (t1 ++ t2) = related_queries t1 ++ related_queries t2.
Proof.
  induction t1 as [|e t1 IH]; [reflexivity |].
  destruct e as [m | []]; cbn; rewrite ?IH; reflexivity.
Qed.

(** Each round of the loop asks once, for the artist of the round. *)
Lemma expand_queries sample_size i artist_id st :
  related_queries (trace (expand self max_similar sample_size (i, artist_id) st))
    = [artist_id].
Proof.
  unfold expand, try_except. cbn [fst snd]. unfold bind at 1, ask.
  destruct (artist_related_artists (sp self) artist_id) as [related | e].
  - destruct (considered_silently related st) as [Ht Ho].
    rewrite (bind_ok _ _ _ _ Ho). cbn [trace outcome locals fst snd].
    rewrite Ht. reflexivity.
  - reflexivity.
Qed.

Lemma sample_queries sample_size k ids st :
  related_queries
    (trace (for_each (enumerate_from k ids) (expand self max_similar sample_size) st))
    = ids.
Proof.
  revert k st. induction ids as [|x ids IH]; intros k st; [reflexivity |].
  cbn [enumerate_from].
  rewrite for_each_cons_total by apply expand_total.
  cbn [trace fst snd]. rewrite related_queries_app, expand_queries, IH. reflexivity.
Qed.

Lemma take_sample {A} (l : list A) : take (Nat.min 10 (length l)) l = take 10 l.
Proof.
  destruct (Nat.le_ge_cases 10 (length l)) as [H | H].
  - now rewrite Nat.min_l.
  - rewrite Nat.min_r by exact H. now rewrite !take_ge by lia.
Qed.

(** The run of [get_similar_artists] in terms of its loop. *)
Lemma get_similar_artists_run :
  let loop := for_each (enumerate (take 10 artist_ids))
                (expand self max_similar (Nat.min 10 (length artist_ids)))
                ([], list_to_set artist_ids) in
  get_similar_artists self artist_ids max_similar =
    (Print FindingSimilar :: trace loop
       ++ [Print (FoundSimilar (length (locals loop).1))],
     locals loop, Ok (locals loop).1).
Proof.
  intros loop. unfold get_similar_artists, get_similar_artists_body.
  rewrite take_sample.
  rewrite (bind_ok (print FindingSimilar) _ _ tt eq_refl).
  cbn [print emit trace locals outcome fst snd].
  destruct (total_for_each (enumerate (take 10 artist_ids)) _
              (expand_total (Nat.min 10 (length artist_ids)))
              ([], list_to_set artist_ids)) as [[] Ho].
  rewrite (bind_ok _ _ _ _ Ho). fold loop.
  unfold bind, get, print, emit, ret. cbn [trace locals outcome fst snd].
  rewrite ?app_nil_r. reflexivity.
Qed.

End Expander.

(** C9.  [get_similar_artists] asks for the related artists of the first
    [min(10, len(artist_ids))] artists of its input and of no other; it
    returns artists with pairwise distinct identifiers, none of which is an
    identifier of the input, and no more than [max_similar] of them. *)
Theorem similar_artists_are_new_and_bounded
    (self : MusicDiscoveryTool) (artist_ids : list string) (max_similar : Z) :
  (0 <= max_similar)%Z ->
  let r := get_similar_artists self artist_ids max_similar in
  related_queries (trace r) = take (Nat.min 10 (length artist_ids)) artist_ids
  /\ length (related_queries (trace r)) <= 10
  /\ exists similar_artists,
       outcome r = Ok similar_artists
       /\ NoDup (map artist_id similar_artists)
       /\ (forall a, In a similar_artists -> ~ In (artist_id a) artist_ids)
       /\ (Z.of_nat (length similar_artists) <= max_similar)%Z.
Proof.
  intros Hmax r. subst r. rewrite get_similar_artists_run.
  cbn [trace outcome fst snd].
  assert (Hq : related_queries
                 (Print FindingSimilar
                  :: trace (for_each (enumerate (take 10 artist_ids))
                              (expand self max_similar (Nat.min 10 (length artist_ids)))
                              ([], list_to_set artist_ids))
                  ++ [Print (FoundSimilar (length (locals
                        (for_each (enumerate (take 10 artist_ids))
                           (expand self max_similar (Nat.min 10 (length artist_ids)))
                           ([], list_to_set artist_ids))).1))])
               = take 10 artist_ids).
  { cbn [related_queries]. rewrite related_queries_app. unfold enumerate.
    rewrite sample_queries. cbn. now rewrite app_nil_r. }
  rewrite Hq. split; [now rewrite take_sample |].
  split; [rewrite length_take; lia |].
  eexists. split; [reflexivity |].
  pose proof (preserves_for_each _ (enumerate (take 10 artist_ids)) _
                (expand_kept self artist_ids max_similar
                   (Nat.min 10 (length artist_ids)))
                _ (kept_initially artist_ids max_similar))
    as (Hnd & _ & Hnew & _ & Hlen).
  split; [exact Hnd |]. split; [exact Hnew |]. lia.
Qed.

Lemma similar_artists_are_new_and_bounded_witness :
  let r := get_similar_artists Sample.tool ["a"; "b"] 20 in
  related_queries (trace r) = ["a"; "b"]
  /\ exists similar_artists,
       outcome r = Ok similar_artists
       /\ NoDup (map artist_id similar_artists)
       /\ (Z.of_nat (length similar_artists) <= 20)%Z.
Proof.
  destruct (similar_artists_are_new_and_bounded Sample.tool ["a"; "b"] 20
              ltac:(lia))
    as (H1 & _ & similar & H3 & H4 & _ & H6).
  split; [exact H1 |].
  exists similar. split; [exact H3 |]. split; [exact H4 | exact H6].
Defined.

(** ** The main flow *)

Section Emitting.
Context {S : Type} (P : event -> bool).

Lemma emits_ret {A} (a : A) : emits_only (S:=S) P (ret a).
Proof. intros s. reflexivity. Qed.

Lemma emits_raise {A} e : emits_only (S:=S) P (raise (A:=A) e).
Proof. intros s. reflexivity. Qed.

Lemma emits_get : emits_only (S:=S) P get.
Proof. intros s. reflexivity. Qed.

Lemma emits_put s' : emits_only (S:=S) P (put s').
Proof. intros s. reflexivity. Qed.

Lemma emits_emit e : P e = true -> emits_only (S:=S) P (emit e).
Proof. intros H s. cbn. now rewrite H. Qed.

Lemma emits_ask {A} r (answer : result A) :
  P (Call r) = true -> emits_only (S:=S) P (ask r answer).
Proof. intros H s. cbn. now rewrite H. Qed.

Lemma emits_bind {A B} (m : Py S A) (k : A -> Py S B) :
  emits_only P m -> (forall a, emits_only P (k a)) -> emits_only P (bind m k).
Proof.
  intros Hm Hk s. destruct (outcome (m s)) as [a | e] eqn:E.
  - rewrite (bind_ok _ _ _ _ E). cbn [trace fst snd].
    rewrite forallb_app. rewrite (Hm s). apply Hk.
  - rewrite (bind_raise _ _ _ _ E). apply Hm.
Qed.

Lemma emits_try {A} (m : Py S A) h :
  emits_only P m -> (forall e, emits_only P (h e)) -> emits_only P (try_except m h).
Proof.
  intros Hm Hh s. destruct (outcome (m s)) as [a | e] eqn:E.
  - rewrite (try_ok _ _ _ _ E). apply Hm.
  - rewrite (try_raise _ _ _ _ E). cbn [trace fst snd].
    rewrite forallb_app. rewrite (Hm s). apply Hh.
Qed.

Lemma emits_for_each {A} (l : list A) (body : A -> Py S unit) :
  (forall x, emits_only P (body x)) -> emits_only P (for_each l body).
Proof.
  intros Hb. induction l as [|x l IH]; cbn [for_each].
  - apply emits_ret.
  - apply emits_bind; [apply Hb | intros _; exact IH].
Qed.

End Emitting.

Section Reading.
Variable self : MusicDiscoveryTool.

Lemma fetch_pages_reads p : emits_only reading_event (fetch_pages p).
Proof.
  induction p as [e | items | items next IH]; cbn [fetch_pages].
  - apply emits_raise.
  - apply emits_bind; [apply emits_get | intros a; apply emits_put].
  - apply emits_bind; [apply emits_get |]. intros a.
    apply emits_bind; [apply emits_put |]. intros _.
    apply emits_bind; [now apply emits_emit | intros _; exact IH].
Qed.

Lemma get_followed_artists_reads :
  emits_only reading_event (get_followed_artists self).
Proof.
  unfold get_followed_artists.
  apply emits_bind; [now apply emits_emit |]. intros _.
  apply emits_bind; [now apply emits_emit |]. intros _.
  apply emits_bind; [apply fetch_pages_reads |]. intros _.
  apply emits_bind; [apply emits_get |]. intros artists.
  apply emits_bind; [now apply emits_emit | intros _; apply emits_ret].
Qed.

Lemma get_similar_artists_reads artist_ids max_similar :
  emits_only reading_event (get_similar_artists_body self artist_ids max_similar).
Proof.
  unfold get_similar_artists_body.
  apply emits_bind; [now apply emits_emit |]. intros _.
  apply emits_bind.
  - apply emits_for_each. intros entry. unfold expand. apply emits_try.
    + apply emits_bind; [now apply emits_ask |]. intros related.
      apply emits_bind; [| intros _; now apply emits_emit].
      apply emits_for_each. intros a. unfold consider.
      apply emits_bind; [apply emits_get |]. intros st.
      destruct (_ && _); [apply emits_put | apply emits_ret].
    + intros e. now apply emits_emit.
  - intros _. apply emits_bind; [apply emits_get |]. intros st.
    apply emits_bind; [now apply emits_emit | intros _; apply emits_ret].
Qed.

Lemma get_recent_releases_reads now artists :
  emits_only reading_event (get_recent_releases_body self now artists).
Proof.
  unfold get_recent_releases_body.
  apply emits_bind; [now apply emits_emit |]. intros _.
  apply emits_bind; [intros s; reflexivity |]. intros cutoff_date.
  apply emits_bind.
  - apply emits_for_each. intros entry. unfold scan_artist. apply emits_try.
    + apply emits_bind; [now apply emits_ask |]. intros albums.
      apply emits_bind.
      * apply emits_for_each. intros album. unfold scan_album.
        destruct (normalize_release_date _);
          [| apply emits_ret | apply emits_raise].
        destruct (Calendar.datetime_ge _ _); [| apply emits_ret].
        apply emits_bind; [now apply emits_ask |]. intros tracks.
        apply emits_for_each. intros track.
        apply emits_bind; [apply emits_get | intros l; apply emits_put].
      * intros _. destruct (Nat.eqb _ _); [now apply emits_emit | apply emits_ret].
    + intros e. now apply emits_emit.
  - intros _. apply emits_bind; [apply emits_get |]. intros recent.
    apply emits_bind; [now apply emits_emit | intros _; apply emits_ret].
Qed.

Lemma reading_not_writing t :
  forallb reading_event t = true -> List.filter is_playlist_write t = [].
Proof.
  induction t as [|e t IH]; [reflexivity |]. cbn [forallb List.filter].
  intros H. apply andb_prop in H as [He Ht]. rewrite (IH Ht).
  destruct e as [m | []]; cbn in *; try reflexivity; discriminate.
Qed.

Lemma reading_In t e :
  forallb reading_event t = true -> In e t -> reading_event e = true.
Proof. intros H. rewrite forallb_forall in H. apply H. Qed.

(** [run] when no artist is followed. *)
Lemma run_without_followed now today :
  outcome (get_followed_artists self []) = Ok [] ->
  run self now today tt =
    ((Print Starting :: Print (Rule 50) :: trace (get_followed_artists self []))
       ++ [Print NoFollowedArtists], tt, Ok tt).
Proof.
  intros H. unfold run, bind, try_except, call, print, emit. cbn [fst snd].
  destruct (get_followed_artists self []) as [[t1 s1] r1]. cbn in H. subst r1.
  cbn. reflexivity.
Qed.

(** [run] when artists are followed and no track is found. *)
Lemma run_without_tracks now today followed similar :
  outcome (get_followed_artists self []) = Ok followed ->
  followed <> [] ->
  outcome (get_similar_artists self (map artist_id followed) default_max_similar)
    = Ok similar ->
  outcome (get_recent_releases self now (followed ++ similar)) = Ok [] ->
  run self now today tt =
    ((Print Starting :: Print (Rule 50)
        :: trace (get_followed_artists self [])
        ++ trace (get_similar_artists self (map artist_id followed) default_max_similar)
        ++ trace (get_recent_releases self now (followed ++ similar))
        ++ [Print NoNewReleasesFound])
       ++ [Print NoNewReleasesThisWeek], tt, Ok tt).
Proof.
  intros Hf Hne Hs Hr. unfold get_similar_artists, get_recent_releases in *.
  unfold run, bind, try_except, call, print, emit. cbn [fst snd].
  destruct (get_followed_artists self []) as [[t1 s1] r1]. cbn in Hf. subst r1.
  destruct followed as [|a followed]; [contradiction |].
  destruct (get_similar_artists_body self (map artist_id (a :: followed))
              default_max_similar ([], list_to_set (map artist_id (a :: followed))))
    as [[t2 s2] r2]. cbn in Hs. subst r2.
  destruct (get_recent_releases_body self now ((a :: followed) ++ similar) [])
    as [[t3 s3] r3]. cbn in Hr. subst r3.
  cbn. rewrite ?app_nil_r. rewrite <- !app_assoc. reflexivity.
Qed.

End Reading.

Lemma reading_is_calm t :
  forallb reading_event t = true -> forallb calm_event t = true.
Proof.
  induction t as [|e t IH]; [reflexivity |]. cbn [forallb].
  intros H. apply andb_prop in H as [He Ht]. rewrite (IH Ht), andb_true_r.
  destruct e as [[] | []]; cbn in *; try reflexivity; discriminate.
Qed.

Lemma calm_not_writing t :
  forallb calm_event t = true -> List.filter is_playlist_write t = [].
Proof.
  induction t as [|e t IH]; [reflexivity |]. cbn [forallb List.filter].
  intros H. apply andb_prop in H as [He Ht]. rewrite (IH Ht).
  destruct e as [m | []]; cbn in *; try reflexivity; discriminate.
Qed.

Lemma calm_no_unexpected_error t e :
  forallb calm_event t = true -> ~ In (Print (UnexpectedError e)) t.
Proof.
  intros H Hin. rewrite forallb_forall in H. apply H in Hin. discriminate.
Qed.

(** C7, as the claim states it, fails: when nobody is followed the
    candidate set is empty, and the run ends on the message that no artist
    is followed; it says nothing of new releases. *)
Lemma empty_candidate_set_is_reported_otherwise :
  ~ (forall self now today,
       outcome (get_followed_artists self []) = Ok [] ->
       In (Print NoNewReleasesThisWeek) (trace (run self now today tt))
       \/ In (Print NoNewReleasesFound) (trace (run self now today tt))).
Proof.
  intros H.
  specialize (H Sample.lonely_tool Sample.now Sample.now eq_refl).
  vm_compute in H.
  destruct H as [H | H];
    repeat (destruct H as [H | H]; [discriminate |]); exact H.
Qed.

(** C7, amended.  When the scan returns no track, [run] makes no request
    that creates a playlist or adds to one, prints that there are no new
    releases, in the summary and at its end, and ends without an error.
    When no artist is followed, [run] makes no such request either and ends
    without an error, on the message that no artist is followed.
    [create_playlist] itself makes no request for an empty list. *)
Theorem no_tracks_no_playlist
    (self : MusicDiscoveryTool) (now today : datetime) (followed similar : list Artist) :
  outcome (get_followed_artists self []) = Ok followed ->
  outcome (get_similar_artists self (map artist_id followed) default_max_similar)
    = Ok similar ->
  followed = [] \/ outcome (get_recent_releases self now (followed ++ similar)) = Ok [] ->
  let r := run self now today tt in
  outcome r = Ok tt
  /\ List.filter is_playlist_write (trace r) = []
  /\ (forall e, ~ In (Print (UnexpectedError e)) (trace r))
  /\ ((followed = []
       /\ last (trace r) = Some (Print NoFollowedArtists)
       /\ ~ In (Print NoNewReleasesThisWeek) (trace r))
      \/ (followed <> []
          /\ In (Print NoNewReleasesFound) (trace r)
          /\ last (trace r) = Some (Print NoNewReleasesThisWeek)))
  /\ create_playlist self today [] tt = ([Print NoTracksToAdd], tt, Ok None).
Proof.
  intros Hf Hs Hr r.
  pose proof (get_followed_artists_reads self []) as R1.
  assert (Hcase : followed = [] \/
                  (followed <> [] /\
                   outcome (get_recent_releases self now (followed ++ similar)) = Ok [])).
  { destruct followed as [|a l]; [now left | right].
    split; [discriminate |]. destruct Hr as [Hr | Hr]; [discriminate | exact Hr]. }
  clear Hr. destruct Hcase as [-> | [Hne Hr]].
  - subst r. rewrite (run_without_followed self now today Hf).
    cbn [trace outcome fst snd].
    assert (Hcalm : forallb calm_event
                      ((Print Starting :: Print (Rule 50)
                          :: trace (get_followed_artists self []))
                         ++ [Print NoFollowedArtists]) = true).
    { rewrite forallb_app. cbn [forallb calm_event andb].
      rewrite (reading_is_calm _ R1). reflexivity. }
    split; [reflexivity |].
    split; [now apply calm_not_writing |].
    split; [intros e; now apply calm_no_unexpected_error |].
    split; [| reflexivity].
    left. split; [reflexivity |]. split; [apply last_snoc |].
    intros Hin. apply in_app_or in Hin.
    destruct Hin as [[Hin | [Hin | Hin]] | [Hin | []]]; try discriminate.
    apply (reading_In _ _ R1) in Hin. discriminate.
  - pose proof (get_similar_artists_reads self (map artist_id followed)
                  default_max_similar
                  ([], list_to_set (map artist_id followed))) as R2.
    pose proof (get_recent_releases_reads self now (followed ++ similar) []) as R3.
    fold (get_similar_artists self (map artist_id followed) default_max_similar) in R2.
    fold (get_recent_releases self now (followed ++ similar)) in R3.
    subst r. rewrite (run_without_tracks self now today followed similar Hf Hne Hs Hr).
    cbn [trace outcome fst snd].
    set (t1 := trace (get_followed_artists self [])) in *.
    set (t2 := trace (get_similar_artists self (map artist_id followed)
                        default_max_similar)) in *.
    set (t3 := trace (get_recent_releases self now (followed ++ similar))) in *.
    assert (Hcalm : forallb calm_event
                      ((Print Starting :: Print (Rule 50)
                          :: t1 ++ t2 ++ t3 ++ [Print NoNewReleasesFound])
                         ++ [Print NoNewReleasesThisWeek]) = true).
    { rewrite forallb_app. cbn [forallb calm_event andb].
      rewrite !forallb_app.
      pose proof (reading_is_calm t1 R1) as C1.
      pose proof (reading_is_calm t2 R2) as C2.
      pose proof (reading_is_calm t3 R3) as C3.
      rewrite C1, C2, C3. reflexivity. }
    split; [reflexivity |].
    split; [now apply calm_not_writing |].
    split; [intros e; now apply calm_no_unexpected_error |].
    split; [| reflexivity].
    right. split; [exact Hne |]. split; [| apply last_snoc].
    apply in_or_app. left. right. right.
    apply in_or_app. right. apply in_or_app. right. apply in_or_app. right. now left.
Qed.

Lemma no_tracks_no_playlist_witness :
  let r := run Sample.tool Sample.next_year Sample.next_year tt in
  outcome r = Ok tt
  /\ List.filter is_playlist_write (trace r) = []
  /\ last (trace r) = Some (Print NoNewReleasesThisWeek).
Proof.
  assert (Hs : outcome (get_similar_artists Sample.tool
                          (map artist_id [Sample.Alpha; Sample.Beta])
                          default_max_similar)
               = Ok [Sample.Gamma; Sample.Delta]) by (vm_compute; reflexivity).
  assert (Hr : outcome (get_recent_releases Sample.tool Sample.next_year
                          ([Sample.Alpha; Sample.Beta] ++ [Sample.Gamma; Sample.Delta]))
               = Ok []) by (vm_compute; reflexivity).
  destruct (no_tracks_no_playlist Sample.tool Sample.next_year Sample.next_year
              [Sample.Alpha; Sample.Beta] [Sample.Gamma; Sample.Delta]
              eq_refl Hs (or_intror Hr))
    as (H1 & H2 & _ & [(H & _) | (_ & _ & H4)] & _).
  - discriminate H.
  - split; [exact H1 |]. split; [exact H2 | exact H4].
Defined.

(** ** Raw strings and dates in the forms of the catalogue

    On release dates written ["YYYY"], ["YYYY-MM"] or ["YYYY-MM-DD"] the
    order of the strings and the order of the normalised dates agree. *)

Section CatalogueOrder.
Local Open Scope Z_scope.

Lemma catalogue_date_normalized s d :
  catalogue_date s d -> normalize_release_date s = Normalized d.
Proof.
  intros [y Hy | y m Hy Hm | y m dd Hy Hm Hd].
  - now apply normalize_year_only.
  - now apply normalize_year_month.
  - now apply normalize_full.
Qed.

Lemma compare_digits a b :
  0 <= a <= 9 -> 0 <= b <= 9 ->
  Ascii.compare (Iso.digit_char a) (Iso.digit_char b) = (a ?= b).
Proof.
  intros Ha Hb.
  StrptimeFacts.small_Z a; StrptimeFacts.small_Z b; reflexivity.
Qed.

Lemma compare_same c a b :
  String.compare (String c a) (String c b) = String.compare a b.
Proof.
  cbn [String.compare]. unfold Ascii.compare. now rewrite N.compare_refl.
Qed.

Lemma compare_show2 m1 m2 r1 r2 :
  0 <= m1 <= 99 -> 0 <= m2 <= 99 ->
  String.compare (Iso.show2 m1 ++ r1)%string (Iso.show2 m2 ++ r2)%string =
    match m1 ?= m2 with
    | Eq => String.compare r1 r2
    | c => c
    end.
Proof.
  intros H1 H2.
  change (Iso.show2 m1 ++ r1)%string
    with (String (Iso.digit_char (m1 / 10)) (String (Iso.digit_char (m1 mod 10)) r1)).
  change (Iso.show2 m2 ++ r2)%string
    with (String (Iso.digit_char (m2 / 10)) (String (Iso.digit_char (m2 mod 10)) r2)).
  cbn [String.compare].
  rewrite !compare_digits by (Z.div_mod_to_equations; lia).
  destruct (Z.compare_spec (m1 / 10) (m2 / 10));
    destruct (Z.compare_spec (m1 mod 10) (m2 mod 10));
    destruct (Z.compare_spec m1 m2);
    try reflexivity; exfalso; Z.div_mod_to_equations; lia.
Qed.

Lemma show4_show2 y r :
  0 <= y <= 9999 ->
  (Iso.show4 y ++ r)%string
  = (Iso.show2 (y / 100) ++ (Iso.show2 (y mod 100) ++ r))%string.
Proof.
  intros Hy.
  change (Iso.show4 y ++ r)%string
    with (String (Iso.digit_char (y / 1000))
            (String (Iso.digit_char (y / 100 mod 10))
               (String (Iso.digit_char (y / 10 mod 10))
                  (String (Iso.digit_char (y mod 10)) r)))).
  change (Iso.show2 (y / 100) ++ (Iso.show2 (y mod 100) ++ r))%string
    with (String (Iso.digit_char (y / 100 / 10))
            (String (Iso.digit_char (y / 100 mod 10))
               (String (Iso.digit_char (y mod 100 / 10))
                  (String (Iso.digit_char (y mod 100 mod 10)) r)))).
  assert (E1 : y / 100 / 10 = y / 1000) by (Z.div_mod_to_equations; lia).
  assert (E2 : y mod 100 / 10 = y / 10 mod 10) by (Z.div_mod_to_equations; lia).
  assert (E3 : y mod 100 mod 10 = y mod 10) by (Z.div_mod_to_equations; lia).
  rewrite E1, E2, E3. reflexivity.
Qed.

Lemma compare_show4 y1 y2 r1 r2 :
  0 <= y1 <= 9999 -> 0 <= y2 <= 9999 ->
  String.compare (Iso.show4 y1 ++ r1)%string (Iso.show4 y2 ++ r2)%string =
    match y1 ?= y2 with
    | Eq => String.compare r1 r2
    | c => c
    end.
Proof.
  intros H1 H2. rewrite !show4_show2 by assumption.
  rewrite compare_show2 by (Z.div_mod_to_equations; lia).
  rewrite compare_show2 by (Z.div_mod_to_equations; lia).
  destruct (Z.compare_spec (y1 / 100) (y2 / 100));
    destruct (Z.compare_spec (y1 mod 100) (y2 mod 100));
    destruct (Z.compare_spec y1 y2);
    try reflexivity; exfalso; Z.div_mod_to_equations; lia.
Qed.

(** The text of a catalogue date: the year, then what follows it. *)
Lemma catalogue_shape s d :
  catalogue_date s d ->
  (0 <= year d <= 9999 /\ 1 <= month d <= 12 /\ 1 <= day d <= 99)
  /\ ((s = (Iso.show4 (year d) ++ "")%string /\ month d = 1 /\ day d = 1)
      \/ (s = (Iso.show4 (year d) ++ String "-" (Iso.show2 (month d) ++ ""))%string
          /\ day d = 1)
      \/ s = (Iso.show4 (year d)
                ++ String "-" (Iso.show2 (month d)
                                 ++ String "-" (Iso.show2 (day d) ++ "")))%string).
Proof.
  intros [y Hy | y m Hy Hm | y m dd Hy Hm Hd]; cbn [year month day].
  - split; [lia |]. left. repeat split; reflexivity.
  - split; [lia |]. right. left. split; reflexivity.
  - split; [pose proof (StrptimeFacts.days_in_month_le_31 y m); lia |].
    right. right. reflexivity.
Qed.

(** A greater or equal string stands for a later or equal date. *)
Lemma catalogue_order s1 d1 s2 d2 :
  catalogue_date s1 d1 -> catalogue_date s2 d2 ->
  Str.le s2 s1 = true -> Calendar.date_le d2 d1.
Proof.
  intros C1 C2.
  apply catalogue_shape in C1 as [(Hy1 & Hm1 & Hd1) S1].
  apply catalogue_shape in C2 as [(Hy2 & Hm2 & Hd2) S2].
  destruct d1 as [y1 m1 dd1], d2 as [y2 m2 dd2]. cbn [year month day] in *.
  unfold Str.le, String.leb, Calendar.date_le. cbn [year month day].
  destruct S1 as [(-> & ? & ?) | [(-> & ?) | ->]];
    destruct S2 as [(-> & ? & ?) | [(-> & ?) | ->]];
    rewrite compare_show4 by lia;
    try rewrite compare_same;
    try rewrite compare_show2 by lia;
    try rewrite compare_same;
    try rewrite compare_show2 by lia;
    cbn [String.compare];
    repeat match goal with
           | |- context [Z.compare ?a ?b] => destruct (Z.compare_spec a b)
           end;
    intros Hle; try discriminate Hle; lia.
Qed.

End CatalogueOrder.

(** X22.  On a track list whose release dates all have a form of the
    catalogue, the ranking is by normalised date, newest first. *)
Theorem catalogue_dates_are_ranked_chronologically
    (max_tracks : Z) (tracks : list TrackInfo) (i j : nat) (a b : TrackInfo)
    (da db : date) :
  (forall t, In t tracks -> exists d, catalogue_date (track_release_date t) d) ->
  i < j ->
  rank max_tracks tracks !! i = Some a ->
  rank max_tracks tracks !! j = Some b ->
  normalize_release_date (track_release_date a) = Normalized da ->
  normalize_release_date (track_release_date b) = Normalized db ->
  Calendar.date_le db da.
Proof.
  intros Hall Hij Hi Hj Ha Hb.
  assert (Hin : forall k t, rank max_tracks tracks !! k = Some t -> In t tracks).
  { intros k t Hk. unfold rank in Hk.
    destruct (slice_to_take (sort_reverse track_release_date tracks) max_tracks)
      as [n Hn]. rewrite Hn in Hk.
    apply lookup_take_Some in Hk as [Hk _].
    apply list_elem_of_lookup_2, list_elem_of_In in Hk.
    eapply Permutation_in; [apply sort_reverse_Permutation | exact Hk]. }
  destruct (Hall a (Hin i a Hi)) as [da' Ca].
  destruct (Hall b (Hin j b Hj)) as [db' Cb].
  rewrite (catalogue_date_normalized _ _ Ca) in Ha. injection Ha as <-.
  rewrite (catalogue_date_normalized _ _ Cb) in Hb. injection Hb as <-.
  apply (catalogue_order _ _ _ _ Ca Cb).
  exact (rank_descending max_tracks tracks i j a b Hij Hi Hj).
Qed.

Lemma catalogue_dates_are_ranked_chronologically_witness :
  Calendar.date_le (Date 2024 2 1) (Date 2024 3 15).
Proof.
  apply (catalogue_dates_are_ranked_chronologically 50
           [track_info Sample.Alpha (Sample.album "f1" "2024-02-01") (Sample.only_track "f1");
            track_info Sample.Alpha (Sample.album "m1" "2024-03-15") (Sample.only_track "m1")]
           0 1
           (track_info Sample.Alpha (Sample.album "m1" "2024-03-15") (Sample.only_track "m1"))
           (track_info Sample.Alpha (Sample.album "f1" "2024-02-01") (Sample.only_track "f1"))).
  - intros t [<- | [<- | []]].
    + exists (Date 2024 2 1).
      apply (CatalogueDay 2024 2 1); [lia | lia | vm_compute; split; discriminate].
    + exists (Date 2024 3 15).
      apply (CatalogueDay 2024 3 15); [lia | lia | vm_compute; split; discriminate].
  - lia.
  - reflexivity.
  - reflexivity.
  - reflexivity.
  - reflexivity.
Defined.

(** * Further properties of the code *)

(** ** What the scan returns *)

Section ScanSoundness.
Variable self : MusicDiscoveryTool.
Variable cutoff_date : datetime.

Lemma scan_album_origin artist album t :
  In t (locals (scan_album self cutoff_date artist album [])) ->
  exists d items item,
    normalize_release_date (album_release_date album) = Normalized d
    /\ Calendar.datetime_ge (Calendar.at_midnight d) cutoff_date = true
    /\ album_tracks (sp self) (album_id album) = Ok items
    /\ In item items
    /\ t = track_info artist album item.
Proof.
  unfold scan_album.
  destruct (normalize_release_date (album_release_date album)) as [d | |];
    [| intros [] | intros []].
  destruct (Calendar.datetime_ge (Calendar.at_midnight d) cutoff_date) eqn:Hge;
    [| intros []].
  unfold bind at 1, ask.
  destruct (album_tracks (sp self) (album_id album)) as [items | e]; [| intros []].
  rewrite pushed_tracks. cbn [locals fst snd app]. intros Hin.
  apply in_map_iff in Hin as (item & <- & Hitem).
  exists d, items, item. repeat split; assumption.
Qed.

Lemma scan_albums_origin artist albums t :
  In t (locals (for_each albums (scan_album self cutoff_date artist) [])) ->
  exists album,
    In album albums /\ In t (locals (scan_album self cutoff_date artist album [])).
Proof.
  induction albums as [|a rest IH]; [intros [] |].
  cbn [for_each].
  destruct (outcome (scan_album self cutoff_date artist a [])) as [[] | e] eqn:E.
  - rewrite (bind_ok _ _ _ _ E). cbn [locals fst snd].
    fold (locals (for_each rest (scan_album self cutoff_date artist)
                    (locals (scan_album self cutoff_date artist a [])))).
    rewrite (appends_locals _ _ (scan_albums_appends self cutoff_date artist rest)).
    intros Hin. apply in_app_or in Hin as [Hin | Hin].
    + exists a. split; [now left | exact Hin].
    + destruct (IH Hin) as (album & Hal & Ht). exists album. split; [now right | exact Ht].
  - rewrite (bind_raise _ _ _ _ E). cbn [locals fst snd]. intros Hin.
    exists a. split; [now left | exact Hin].
Qed.

(** What an artist contributes qualifies. *)
Lemma artist_tracks_qualify artist t :
  In t (artist_tracks self cutoff_date artist) ->
  qualifying self cutoff_date artist t.
Proof.
  unfold artist_tracks.
  destruct (artist_albums (sp self) (artist_id artist)) as [albums | e] eqn:E;
    [| intros []].
  intros Hin. apply scan_albums_origin in Hin as (album & Hal & Hin).
  apply scan_album_origin in Hin as (d & items & item & H1 & H2 & H3 & H4 & H5).
  exists albums, album, d, items, item. repeat split; assumption.
Qed.

End ScanSoundness.

Lemma remove_duplicates_In l seen unique t :
  In t (remove_duplicates l seen unique) -> In t unique \/ In t l.
Proof.
  revert seen unique. induction l as [|x l IH]; intros seen unique; [now left |].
  cbn [remove_duplicates]. case_bool_decide; intros Hin; apply IH in Hin.
  - destruct Hin as [Hin | Hin]; [| right; now right].
    apply in_app_or in Hin as [Hin | [<- | []]]; [now left | right; now left].
  - destruct Hin as [Hin | Hin]; [now left | right; now right].
Qed.

Lemma deduplicate_In l t : In t (deduplicate l) -> In t l.
Proof.
  intros Hin. apply remove_duplicates_In in Hin as [[] | Hin]. exact Hin.
Qed.

Lemma rank_In m l t : In t (rank m l) -> In t l.
Proof.
  unfold rank. destruct (slice_to_take (sort_reverse track_release_date l) m) as [k ->].
  intros Hin.
  assert (Hs : In t (sort_reverse track_release_date l)).
  { rewrite <- (firstn_skipn k (sort_reverse track_release_date l)).
    apply in_or_app. now left. }
  eapply Permutation_in; [apply sort_reverse_Permutation | exact Hs].
Qed.

(** X1.  Every track [get_recent_releases] returns is a track of an album of
    one of the given artists whose release date was normalised to a date on
    or after the cutoff: nothing older than the window, nothing of an album
    with an unreadable date and nothing of another artist is returned. *)
Theorem returned_tracks_qualify
    (self : MusicDiscoveryTool) (now : datetime) (artists : list Artist)
    (final : list TrackInfo) (t : TrackInfo) :
  outcome (get_recent_releases self now artists) = Ok final ->
  In t final ->
  exists cutoff_date artist,
    Calendar.minus_days now (days_lookback self) = Ok cutoff_date
    /\ In artist artists
    /\ qualifying self cutoff_date artist t.
Proof.
  rewrite get_recent_releases_outcome.
  destruct (Calendar.minus_days now (days_lookback self)) as [c | e]; [| discriminate].
  intros H Hin. injection H as <-.
  apply rank_In, deduplicate_In in Hin.
  rewrite scan_artists_locals in Hin. cbn [app] in Hin.
  apply in_flat_map in Hin as (artist & Ha & Hin).
  exists c, artist. split; [reflexivity |]. split; [exact Ha |].
  now apply artist_tracks_qualify.
Qed.

Lemma returned_tracks_qualify_witness :
  exists cutoff_date artist,
    Calendar.minus_days Sample.now (days_lookback Sample.tool) = Ok cutoff_date
    /\ In artist [Sample.Alpha; Sample.Gamma]
    /\ qualifying Sample.tool cutoff_date artist
         (track_info Sample.Gamma (Sample.album "c1" "2024-03-18") (Sample.only_track "c1")).
Proof.
  apply (returned_tracks_qualify Sample.tool Sample.now [Sample.Alpha; Sample.Gamma]
           [track_info Sample.Gamma (Sample.album "c1" "2024-03-18") (Sample.only_track "c1");
            track_info Sample.Alpha (Sample.album "a1" "2024-03-15") (Sample.only_track "a1")]).
  - vm_compute. reflexivity.
  - now left.
Defined.

(** X2.  When the track lookup of an album raises, the artist's scan stops
    there: the error is reported, the tracks of the artist's earlier albums
    stay collected, the later albums are never looked at, and the scan
    goes on normally with the next artist. *)
Theorem failed_track_lookup_abandons_artist
    (self : MusicDiscoveryTool) (cutoff_date : datetime) (n i : nat)
    (artist : Artist) (before after : list Album) (bad : Album) (d : date)
    (e : exn) (st : list TrackInfo) :
  artist_albums (sp self) (artist_id artist) = Ok (before ++ bad :: after) ->
  normalize_release_date (album_release_date bad) = Normalized d ->
  Calendar.datetime_ge (Calendar.at_midnight d) cutoff_date = true ->
  album_tracks (sp self) (album_id bad) = Raise e ->
  outcome (for_each before (scan_album self cutoff_date artist) st) = Ok tt ->
  let r := scan_artist self cutoff_date n (i, artist) st in
  let earlier := for_each before (scan_album self cutoff_date artist) st in
  trace r = Call (ArtistAlbums (artist_id artist)) :: trace earlier
            ++ [Call (AlbumTracks (album_id bad));
                Print (ReleaseError (artist_name artist) e)]
  /\ locals r = locals earlier
  /\ outcome r = Ok tt.
Proof.
  intros Hal Hn Hge Hbad Hpre r earlier.
  assert (Hraise : forall s, scan_album self cutoff_date artist bad s
                             = ([Call (AlbumTracks (album_id bad))], s, Raise e)).
  { intros s. unfold scan_album. rewrite Hn, Hge. unfold bind, ask.
    rewrite Hbad. reflexivity. }
  assert (Hloop : for_each (before ++ bad :: after)
                     (scan_album self cutoff_date artist) st
                   = (trace earlier ++ [Call (AlbumTracks (album_id bad))],
                      locals earlier, Raise e)).
  { rewrite (for_each_app_ok _ _ _ _ Hpre). fold earlier.
    cbn [for_each]. unfold bind. rewrite Hraise. reflexivity. }
  assert (Hr : r = (Call (ArtistAlbums (artist_id artist)) :: trace earlier
                      ++ [Call (AlbumTracks (album_id bad));
                          Print (ReleaseError (artist_name artist) e)],
                    locals earlier, Ok tt)).
  { subst r. unfold scan_artist. cbn [fst snd].
    unfold try_except, bind at 1, ask. rewrite Hal. cbv beta iota.
    rewrite bind_raise with (e := e) by now rewrite Hloop.
    rewrite Hloop. cbn. now rewrite <- app_assoc. }
  rewrite Hr. cbn [trace locals outcome fst snd]. now repeat split.
Qed.

(** X3.  The window is closed at the clock's time of day: an album is
    passed over without a request exactly when its normalised date lies
    more than [days_lookback] days before the clock's date, or lies exactly
    [days_lookback] days before it while the clock is past midnight. *)
Theorem cutoff_boundary
    (self : MusicDiscoveryTool) (now cutoff_date : datetime) (artist : Artist)
    (album : Album) (d : date) (st : list TrackInfo) :
  Calendar.minus_days now (days_lookback self) = Ok cutoff_date ->
  normalize_release_date (album_release_date album) = Normalized d ->
  (0 <= microsecond_of_day now)%Z ->
  trace (scan_album self cutoff_date artist album st) = []
  <-> (Calendar.ymd2ord d < ordinal now - days_lookback self
       \/ (Calendar.ymd2ord d = ordinal now - days_lookback self
           /\ 0 < microsecond_of_day now))%Z.
Proof.
  intros Hc Hn Hus.
  unfold Calendar.minus_days in Hc.
  destruct (999999999 <? Z.abs (days_lookback self))%Z; [discriminate |].
  destruct ((0 <? ordinal now - days_lookback self)
            && (ordinal now - days_lookback self <=? Calendar.MAXORDINAL))%Z;
    [| discriminate].
  injection Hc as <-.
  unfold scan_album. rewrite Hn.
  unfold Calendar.datetime_ge, Calendar.at_midnight. cbn [ordinal microsecond_of_day].
  destruct (Z.ltb_spec (ordinal now - days_lookback self) (Calendar.ymd2ord d)) as [L | L];
    cbn [orb].
  - unfold bind, ask.
    destruct (album_tracks (sp self) (album_id album)) as [items | e].
    + destruct (for_each items _ st) as [[t2 s2] r2]. cbn. split; [discriminate | lia].
    + cbn. split; [discriminate | lia].
  - destruct (Z.eqb_spec (Calendar.ymd2ord d) (ordinal now - days_lookback self)) as [E | E];
      cbn [andb].
    + destruct (Z.leb_spec (microsecond_of_day now) 0) as [U | U].
      * unfold bind, ask.
        destruct (album_tracks (sp self) (album_id album)) as [items | e].
        -- destruct (for_each items _ st) as [[t2 s2] r2]. cbn. split; [discriminate | lia].
        -- cbn. split; [discriminate | lia].
      * cbn. split; [intros _; lia | reflexivity].
    + cbn. split; [intros _; lia | reflexivity].
Qed.

Lemma cutoff_boundary_witness :
  trace (scan_album Sample.tool (DateTime 738958 1) Sample.Alpha
           (Sample.album "b1" "2024-03-13") []) = []
  /\ trace (scan_album Sample.tool (DateTime 738958 0) Sample.Alpha
              (Sample.album "b1" "2024-03-13") []) = [Call (AlbumTracks "b1")].
Proof.
  split; [| reflexivity].
  apply (cutoff_boundary Sample.tool (DateTime 738965 1) (DateTime 738958 1)
           Sample.Alpha (Sample.album "b1" "2024-03-13") (Date 2024 3 13) []
           eq_refl eq_refl ltac:(cbn; lia)).
  right. split; reflexivity.
Defined.

(** ** What the ranking keeps *)

(** X4.  The truncation drops a tail of the sorted list: the tracks kept
    and the tracks dropped are together the tracks given, and no dropped
    track has a greater release-date string than a track that is kept. *)
Theorem truncation_drops_the_least (max_tracks : Z) (tracks : list TrackInfo) :
  exists dropped,
    Permutation (rank max_tracks tracks ++ dropped) tracks
    /\ forall a b,
         In a (rank max_tracks tracks) -> In b dropped ->
         Str.le (track_release_date b) (track_release_date a) = true.
Proof.
  unfold rank.
  destruct (slice_to_take (sort_reverse track_release_date tracks) max_tracks) as [k ->].
  exists (drop k (sort_reverse track_release_date tracks)).
  split.
  - rewrite take_drop. apply sort_reverse_Permutation.
  - intros a b Ha Hb.
    pose proof (sort_reverse_StronglySorted track_release_date tracks) as Hs.
    rewrite <- (take_drop k (sort_reverse track_release_date tracks)) in Hs.
    apply (StronglySorted_app_1_elem_of _ _ _ a b Hs); now apply list_elem_of_In.
Qed.

(** X5.  The sort is stable, also with [reverse=True], and the truncation
    cuts at the end: the tracks of one release date that are returned are
    the first of that date in the order they were given. *)
Theorem equal_dates_keep_their_order
    (max_tracks : Z) (tracks : list TrackInfo) (release_date : string) :
  exists omitted,
    List.filter (fun t => String.eqb (track_release_date t) release_date) tracks
    = List.filter (fun t => String.eqb (track_release_date t) release_date)
                  (rank max_tracks tracks)
      ++ omitted.
Proof.
  unfold rank.
  destruct (slice_to_take (sort_reverse track_release_date tracks) max_tracks) as [k ->].
  exists (List.filter (fun t => String.eqb (track_release_date t) release_date)
            (drop k (sort_reverse track_release_date tracks))).
  rewrite <- List.filter_app, take_drop.
  symmetry. apply sort_reverse_stable.
Qed.

(** ** What the de-duplication keeps *)

Lemma deduplicate_distinct l :
  NoDup (map track_key l) -> deduplicate l = l.
Proof.
  induction l as [|t l IH] using rev_ind; [reflexivity |].
  rewrite map_app. cbn [map]. intros H. apply NoDup_app in H as (Hl & Hnew & _).
  rewrite deduplicate_snoc, (IH Hl).
  case_bool_decide as Hin; [| reflexivity].
  exfalso. apply (Hnew _ Hin). now left.
Qed.

Lemma deduplicate_keys l k :
  In k (map track_key (deduplicate l)) <-> In k (map track_key l).
Proof.
  induction l as [|t l IH] using rev_ind; [reflexivity |].
  rewrite deduplicate_snoc, !map_app, !in_app_iff, IH. cbn [map].
  case_bool_decide as Hin; cbn [map In]; [| reflexivity].
  apply list_elem_of_In in Hin.
  split; [tauto |]. intros [H | [<- | []]]; [now left | now left].
Qed.

(** X6.  The de-duplication loses no key and invents none, leaves a list
    with pairwise distinct keys as it is, and changes nothing when it is
    applied twice. *)
Theorem deduplication_is_conservative (tracks : list TrackInfo) :
  (forall k, In k (map track_key (deduplicate tracks)) <-> In k (map track_key tracks))
  /\ (NoDup (map track_key tracks) -> deduplicate tracks = tracks)
  /\ deduplicate (deduplicate tracks) = deduplicate tracks.
Proof.
  split; [intros k; apply deduplicate_keys |].
  split; [apply deduplicate_distinct |].
  apply deduplicate_distinct, deduplicate_NoDup.
Qed.

Lemma deduplication_is_conservative_witness :
  deduplicate [Sample.numbered 1; Sample.numbered 2]
  = [Sample.numbered 1; Sample.numbered 2].
Proof.
  refine (proj1 (proj2 (deduplication_is_conservative
                          [Sample.numbered 1; Sample.numbered 2])) _).
  apply NoDup_cons_2; [| apply NoDup_singleton].
  intros H. apply list_elem_of_In in H. vm_compute in H.
  destruct H as [H | []]. discriminate H.
Defined.

(** ** The followed artists *)

Lemma page_requests_positive p : 1 <= page_requests p.
Proof. destruct p; cbn; lia. Qed.

Lemma fetch_pages_run p artists :
  fetch_pages p artists =
    (repeat (Call Next) (page_requests p - 1),
     artists ++ page_items p,
     match page_failure p with
     | Some e => Raise e
     | None => Ok tt
     end).
Proof.
  revert artists. induction p as [e | items | items next IH]; intros artists.
  - cbn. now rewrite app_nil_r.
  - reflexivity.
  - cbn [fetch_pages page_requests page_items page_failure].
    unfold bind, get, put, emit. cbn [fst snd]. rewrite IH.
    pose proof (page_requests_positive next) as Hp.
    replace (Datatypes.S (page_requests next) - 1)
      with (Datatypes.S (page_requests next - 1)) by lia.
    cbn [repeat app]. now rewrite <- app_assoc.
Qed.

Lemma page_requests_counted n :
  length (List.filter is_page_request (repeat (Call Next) n)) = n.
Proof. induction n as [|n IH]; cbn; [reflexivity | now rewrite IH]. Qed.

Lemma get_followed_artists_run self :
  let pages := current_user_followed_artists (sp self) in
  get_followed_artists self [] =
    (Print FetchingFollowed :: Call CurrentUserFollowedArtists
       :: repeat (Call Next) (page_requests pages - 1)
       ++ match page_failure pages with
          | Some _ => []
          | None => [Print (FoundFollowed (length (page_items pages)))]
          end,
     page_items pages,
     match page_failure pages with
     | Some e => Raise e
     | None => Ok (page_items pages)
     end).
Proof.
  intros pages. unfold get_followed_artists, bind, print, emit, get, ret.
  cbn [fst snd]. rewrite fetch_pages_run. fold pages.
  destruct (page_failure pages) as [e |]; cbn [app]; rewrite ?app_nil_r; reflexivity.
Qed.

(** X7.  [get_followed_artists] returns the items of all the pages, in the
    order of the pages, and makes one request for each page; when the
    request for a page raises, so does the function, and the artists of the
    pages before are not returned. *)
Theorem followed_artists_are_all_pages (self : MusicDiscoveryTool) :
  let pages := current_user_followed_artists (sp self) in
  let r := get_followed_artists self [] in
  outcome r = match page_failure pages with
              | Some e => Raise e
              | None => Ok (page_items pages)
              end
  /\ length (List.filter is_page_request (trace r)) = page_requests pages.
Proof.
  intros pages r. subst r. rewrite get_followed_artists_run. fold pages.
  cbn [outcome trace fst snd]. split; [reflexivity |].
  pose proof (page_requests_positive pages) as Hp.
  cbn [List.filter is_page_request length].
  rewrite List.filter_app, length_app, page_requests_counted.
  destruct (page_failure pages); cbn; lia.
Qed.

(** ** The related artists that are returned *)

Section Greedy.
Variable self : MusicDiscoveryTool.
Variable artist_ids : list string.
Variable max_similar : Z.

Lemma considered_fold related st :
  for_each related (consider max_similar) st =
    ([], fold_left (consider_step max_similar) related st, Ok tt).
Proof.
  revert st. induction related as [|a l IH]; intros st; [reflexivity |].
  cbn [for_each fold_left]. unfold bind. rewrite consider_run.
  fold (consider_step max_similar st a). rewrite IH. reflexivity.
Qed.

Lemma expand_fold sample_size i id st :
  locals (expand self max_similar sample_size (i, id) st) =
    fold_left (consider_step max_similar)
      match artist_related_artists (sp self) id with
      | Ok related => related
      | Raise _ => []
      end st.
Proof.
  unfold expand, try_except. cbn [fst snd]. unfold bind at 1, ask.
  destruct (artist_related_artists (sp self) id) as [related | e]; [| reflexivity].
  unfold bind. rewrite considered_fold. reflexivity.
Qed.

Lemma sample_fold sample_size k ids st :
  locals (for_each (enumerate_from k ids) (expand self max_similar sample_size) st) =
    fold_left (consider_step max_similar)
      (flat_map (fun id => match artist_related_artists (sp self) id with
                           | Ok related => related
                           | Raise _ => []
                           end) ids) st.
Proof.
  revert k st. induction ids as [|x ids IH]; intros k st; [reflexivity |].
  cbn [enumerate_from flat_map].
  rewrite for_each_cons_total by apply expand_total.
  cbn [locals fst snd].
  fold (locals (expand self max_similar sample_size (k, x) st)).
  fold (locals (for_each (enumerate_from (Datatypes.S k) ids)
                  (expand self max_similar sample_size)
                  (locals (expand self max_similar sample_size (k, x) st)))).
  rewrite IH, expand_fold, fold_left_app. reflexivity.
Qed.

Lemma fresh_artists_snoc l a :
  fresh_artists artist_ids (l ++ [a]) =
    fresh_artists artist_ids l
    ++ (if bool_decide (artist_id a ∈ artist_ids ++ map artist_id l) then [] else [a]).
Proof.
  unfold fresh_artists. rewrite imap_app, concat_app. f_equal.
  - f_equal. apply imap_ext. intros i x Hix.
    rewrite take_app_le; [reflexivity |].
    apply lookup_lt_Some in Hix. lia.
  - cbn [imap concat]. rewrite Nat.add_0_r, take_app_length. now rewrite app_nil_r.
Qed.

Lemma fresh_artists_ids l x :
  In x artist_ids \/ In x (map artist_id (fresh_artists artist_ids l))
  <-> In x artist_ids \/ In x (map artist_id l).
Proof.
  induction l as [|a l IH] using rev_ind; [reflexivity |].
  destruct IH as [IH1 IH2].
  rewrite fresh_artists_snoc, !map_app, !in_app_iff.
  case_bool_decide as Hin; cbn [map In].
  - apply list_elem_of_In, in_app_or in Hin. split.
    + intros [H | [H | []]]; [now left |].
      destruct (IH1 (or_intror H)) as [H' | H']; [now left | right; now left].
    + intros [H | [H | [E | []]]]; [now left | |].
      * destruct (IH2 (or_intror H)) as [H' | H']; [now left | right; now left].
      * subst x. destruct (IH2 Hin) as [H' | H']; [now left | right; now left].
  - split.
    + intros [H | [H | [E | []]]]; [now left | | right; right; now left].
      destruct (IH1 (or_intror H)) as [H' | H']; [now left | right; now left].
    + intros [H | [H | [E | []]]]; [now left | | right; right; now left].
      destruct (IH2 (or_intror H)) as [H' | H']; [now left | right; now left].
Qed.

(** The loop keeps the first [max_similar] fresh artists of what it has seen. *)
Lemma greedy_fold l :
  let n := Z.to_nat max_similar in
  exists seen,
    fold_left (consider_step max_similar) l ([], list_to_set artist_ids)
      = (take n (fresh_artists artist_ids l), seen)
    /\ forall x, x ∈ seen <->
         In x artist_ids
         \/ In x (map artist_id (take n (fresh_artists artist_ids l))).
Proof.
  intros n. induction l as [|a l IH] using rev_ind.
  - exists (list_to_set artist_ids). cbn [fold_left fresh_artists imap concat].
    rewrite take_nil. split; [reflexivity |].
    intros x. rewrite elem_of_list_to_set, list_elem_of_In. cbn. tauto.
  - destruct IH as (seen & Hfold & Hseen).
    rewrite fold_left_app, Hfold. cbn [fold_left].
    unfold consider_step. cbn [fst snd].
    set (F := fresh_artists artist_ids l) in *.
    rewrite fresh_artists_snoc. fold F.
    destruct (Z.ltb_spec (Z.of_nat (length (take n F))) max_similar) as [Hlt | Hge].
    + assert (Hfull : take n F = F).
      { apply take_ge. rewrite length_take in Hlt. lia. }
      rewrite Hfull in *.
      case_bool_decide as Hnew; cbn [andb].
      * assert (Hfresh : ~ artist_id a ∈ artist_ids ++ map artist_id l).
        { intros Hin. apply Hnew, Hseen. apply fresh_artists_ids.
          apply list_elem_of_In, in_app_or in Hin. exact Hin. }
        rewrite (bool_decide_eq_false_2 _ Hfresh).
        exists ({[artist_id a]} ∪ seen).
        assert (Hroom : take n (F ++ [a]) = F ++ [a]).
        { apply take_ge. rewrite length_app. cbn [length]. lia. }
        rewrite Hroom. split; [reflexivity |].
        intros x. rewrite elem_of_union, elem_of_singleton, Hseen.
        rewrite map_app, in_app_iff. cbn [map In]. intuition congruence.
      * assert (Hold : artist_id a ∈ artist_ids ++ map artist_id l).
        { apply list_elem_of_In, in_or_app. apply fresh_artists_ids, Hseen.
          destruct (decide (artist_id a ∈ seen)) as [Hs | Hs]; [exact Hs |].
          contradiction. }
        rewrite (bool_decide_eq_true_2 _ Hold), app_nil_r, Hfull.
        exists seen. split; [reflexivity | exact Hseen].
    + rewrite andb_false_r.
      assert (Hcut : take n (F ++ (if bool_decide (artist_id a ∈ artist_ids ++ map artist_id l)
                                   then [] else [a])) = take n F).
      { rewrite length_take in Hge.
        destruct (Z.le_gt_cases max_similar 0) as [Hneg | Hpos].
        - replace n with 0%nat by lia. reflexivity.
        - apply take_app_le. lia. }
      rewrite Hcut. exists seen. split; [reflexivity | exact Hseen].
Qed.

End Greedy.

(** X8.  [get_similar_artists] returns the first [max_similar] of the
    artists the service offers for the first ten followed artists that are
    neither followed nor offered before, in the order they are offered;
    a request that fails offers nothing.  With a maximum of zero or less it
    returns no artist. *)
Theorem similar_artists_are_the_first_fresh_ones
    (self : MusicDiscoveryTool) (artist_ids : list string) (max_similar : Z) :
  outcome (get_similar_artists self artist_ids max_similar)
  = Ok (take (Z.to_nat max_similar)
             (fresh_artists artist_ids (offered self artist_ids))).
Proof.
  rewrite get_similar_artists_run. cbn [outcome fst snd]. f_equal.
  unfold enumerate. rewrite sample_fold. fold (offered self artist_ids).
  destruct (greedy_fold artist_ids max_similar (offered self artist_ids))
    as (seen & Hfold & _).
  now rewrite Hfold.
Qed.

(** ** When the publisher meets an error *)

Lemma asks_answered_in {S A} (l : list A) (req : A -> request)
    (answer : A -> result unit) (s : S) :
  (forall x, In x l -> answer x = Ok tt) ->
  for_each l (fun x => ask (req x) (answer x)) s =
    (map (fun x => Call (req x)) l, s, Ok tt).
Proof.
  induction l as [|x l IH]; intros H; [reflexivity |].
  cbn [for_each map]. unfold bind, ask at 1.
  rewrite (H x (or_introl eq_refl)), IH by (intros y Hy; apply H; now right).
  reflexivity.
Qed.

Lemma asks_until_failure {S A} (before after : list A) (x : A) (req : A -> request)
    (answer : A -> result unit) (e : exn) (s : S) :
  (forall y, In y before -> answer y = Ok tt) ->
  answer x = Raise e ->
  for_each (before ++ x :: after) (fun y => ask (req y) (answer y)) s =
    (map (fun y => Call (req y)) (before ++ [x]), s, Raise e).
Proof.
  intros Hok Hbad.
  pose proof (asks_answered_in before req answer s Hok) as Hb.
  rewrite for_each_app_ok by now rewrite Hb.
  rewrite Hb. cbn [trace locals outcome fst snd for_each].
  unfold bind, ask at 1. rewrite Hbad. now rewrite map_app.
Qed.

(** X9.  When the request that creates the playlist raises,
    [create_playlist] adds nothing, reports the error and returns [None]. *)
Theorem failed_creation_adds_nothing
    (self : MusicDiscoveryTool) (today : datetime) (tracks : list TrackInfo) (e : exn) :
  tracks <> [] ->
  user_playlist_create (sp self) (playlist_request self today) = Raise e ->
  create_playlist self today tracks tt =
    ([Call (UserPlaylistCreate (playlist_request self today)); Print (CreateError e)],
     tt, Ok None).
Proof.
  intros Hne Hcreate. destruct tracks as [|t0 tracks]; [contradiction |].
  unfold create_playlist, try_except. unfold bind at 1, ask at 1.
  rewrite Hcreate. reflexivity.
Qed.

(** X10.  When adding a batch raises, the batches before it have been
    added and stay added, the batches after it are never sent, the error is
    reported and [create_playlist] returns [None]; the playlist it created
    is left as it is. *)
Theorem failed_batch_stops_the_filling
    (self : MusicDiscoveryTool) (today : datetime) (tracks : list TrackInfo)
    (playlist : Playlist) (before after : list nat) (i : nat) (e : exn) :
  tracks <> [] ->
  user_playlist_create (sp self) (playlist_request self today) = Ok playlist ->
  range_step (length tracks) 100 = before ++ i :: after ->
  (forall j, In j before ->
     playlist_add_items (sp self) (playlist_id playlist)
       (slice (map track_uri tracks) j (j + 100)) = Ok tt) ->
  playlist_add_items (sp self) (playlist_id playlist)
    (slice (map track_uri tracks) i (i + 100)) = Raise e ->
  create_playlist self today tracks tt =
    (Call (UserPlaylistCreate (playlist_request self today))
       :: map (fun j => Call (PlaylistAddItems (playlist_id playlist)
                                (slice (map track_uri tracks) j (j + 100))))
              (before ++ [i])
       ++ [Print (CreateError e)],
     tt, Ok None).
Proof.
  intros Hne Hcreate Hrange Hok Hbad. destruct tracks as [|t0 tracks]; [contradiction |].
  unfold create_playlist, try_except. unfold bind at 1, ask at 1.
  rewrite Hcreate. unfold add_batches. rewrite length_map, Hrange.
  unfold bind at 1.
  rewrite (asks_until_failure before after i
             (fun j => PlaylistAddItems (playlist_id playlist)
                         (slice (map track_uri (t0 :: tracks)) j (j + 100)))
             (fun j => playlist_add_items (sp self) (playlist_id playlist)
                         (slice (map track_uri (t0 :: tracks)) j (j + 100)))
             e tt Hok Hbad).
  unfold bind, print, emit, ret. cbn [fst snd]. reflexivity.
Qed.

(** ** The summary *)

Lemma summary_lines k (l : list TrackInfo) :
  for_each (enumerate_from k l) (fun entry =>
      bind (print (TrackLine entry.1 (track_name entry.2))) (fun _ =>
      bind (print (TrackBy (track_artist entry.2) (track_album entry.2))) (fun _ =>
      bind (print (TrackReleased (track_release_date entry.2))) (fun _ =>
      print Blank)))) tt =
    (flat_map (fun entry =>
                 [Print (TrackLine entry.1 (track_name entry.2));
                  Print (TrackBy (track_artist entry.2) (track_album entry.2));
                  Print (TrackReleased (track_release_date entry.2));
                  Print Blank])
              (enumerate_from k l),
     tt, Ok tt).
Proof.
  revert k. induction l as [|t l IH]; intros k; [reflexivity |].
  cbn [enumerate_from for_each flat_map]. unfold bind at 1.
  cbn [bind print emit fst snd]. rewrite IH. reflexivity.
Qed.

Lemma listed_lines k (l : list TrackInfo) :
  listed (flat_map (fun entry =>
                      [Print (TrackLine entry.1 (track_name entry.2));
                       Print (TrackBy (track_artist entry.2) (track_album entry.2));
                       Print (TrackReleased (track_release_date entry.2));
                       Print Blank])
                   (enumerate_from k l))
  = map (fun entry => (entry.1, track_name entry.2)) (enumerate_from k l).
Proof.
  revert k. induction l as [|t l IH]; intros k; [reflexivity |].
  cbn [enumerate_from flat_map map app listed fst snd]. now rewrite IH.
Qed.

Lemma listed_app t1 t2 : listed (t1 ++ t2) = listed t1 ++ listed t2.
Proof.
  induction t1 as [|e t1 IH]; [reflexivity |].
  destruct e as [[] | r]; cbn; rewrite ?IH; reflexivity.
Qed.

Lemma lines_are_prints k (l : list TrackInfo) :
  List.filter is_call
    (flat_map (fun entry =>
                 [Print (TrackLine entry.1 (track_name entry.2));
                  Print (TrackBy (track_artist entry.2) (track_album entry.2));
                  Print (TrackReleased (track_release_date entry.2));
                  Print Blank])
              (enumerate_from k l)) = [].
Proof.
  revert k. induction l as [|t l IH]; intros k; [reflexivity |].
  cbn [enumerate_from flat_map app List.filter is_call]. apply IH.
Qed.

(** The run of [print_track_summary] on a list that is not empty. *)
Lemma print_track_summary_run (tracks : list TrackInfo) :
  tracks <> [] ->
  print_track_summary tracks tt =
    (Print (SummaryHeader (length tracks)) :: Print (Rule 60)
       :: flat_map (fun entry =>
                      [Print (TrackLine entry.1 (track_name entry.2));
                       Print (TrackBy (track_artist entry.2) (track_album entry.2));
                       Print (TrackReleased (track_release_date entry.2));
                       Print Blank])
                   (enumerate_from 1 (take 10 tracks))
       ++ (if Nat.ltb 10 (length tracks)
           then [Print (AndMore (length tracks - 10))]
           else []),
     tt, Ok tt).
Proof.
  intros Hne. destruct tracks as [|t0 tracks]; [contradiction |].
  unfold print_track_summary.
  unfold bind at 1, print at 1, emit. unfold bind at 1, print at 1, emit.
  unfold bind at 1. rewrite summary_lines.
  destruct (Nat.ltb 10 (length (t0 :: tracks))); reflexivity.
Qed.

(** X11.  [print_track_summary] lists the first ten tracks at most, in
    order and numbered from 1, says how many more there are exactly when
    there are more than ten, and makes no request. *)
Theorem summary_lists_ten_at_most (tracks : list TrackInfo) :
  let r := print_track_summary tracks tt in
  outcome r = Ok tt
  /\ List.filter is_call (trace r) = []
  /\ listed (trace r)
     = map (fun entry => (entry.1, track_name entry.2))
           (enumerate_from 1 (take 10 tracks))
  /\ (forall k, In (Print (AndMore k)) (trace r)
                <-> 10 < length tracks /\ k = length tracks - 10).
Proof.
  intros r. subst r. destruct tracks as [|t0 tracks].
  - cbn [print_track_summary print emit trace outcome fst snd take enumerate_from
           map listed List.filter is_call length].
    split; [reflexivity |]. split; [reflexivity |]. split; [reflexivity |].
    intros k. split.
    + intros [H | []]. discriminate H.
    + intros [H _]. lia.
  - rewrite print_track_summary_run by discriminate.
    cbn [trace outcome fst snd]. split; [reflexivity |]. split.
    { cbn [List.filter is_call]. rewrite List.filter_app, lines_are_prints.
      destruct (Nat.ltb 10 (length (t0 :: tracks))); reflexivity. }
    split.
    { cbn [listed]. rewrite listed_app, listed_lines.
      destruct (Nat.ltb 10 (length (t0 :: tracks))); cbn [listed];
        now rewrite app_nil_r. }
    intros k. split.
    + intros [H | [H | H]]; [discriminate | discriminate |].
      apply in_app_or in H as [H | H].
      * apply in_flat_map in H as (entry & _ & H).
        destruct H as [H | [H | [H | [H | []]]]]; discriminate.
      * destruct (Nat.ltb_spec 10 (length (t0 :: tracks))) as [L | L]; [| destruct H].
        destruct H as [H | []]. injection H as <-. split; [exact L | reflexivity].
    + intros [L ->]. right. right. apply in_or_app. right.
      apply Nat.ltb_lt in L. rewrite L. now left.
Qed.

(** ** [run] as a whole *)

Section RunFacts.
Variable self : MusicDiscoveryTool.

Lemma emits_weaken {S A} (P Q : event -> bool) (m : Py S A) :
  (forall e, P e = true -> Q e = true) -> emits_only P m -> emits_only Q m.
Proof.
  intros HPQ Hm s. specialize (Hm s).
  rewrite forallb_forall in *. intros e He. apply HPQ, Hm, He.
Qed.

Lemma emits_call {S S' A} (P : event -> bool) (f : Py S' A) (l : S') :
  emits_only P f -> emits_only (S:=S) P (call f l).
Proof.
  intros Hf s. unfold call. specialize (Hf l).
  destruct (f l) as [[t s'] r]. exact Hf.
Qed.

Lemma reading_is_orderly e : reading_event e = true -> orderly self e = true.
Proof. destruct e as [[] | []]; cbn; intros H; try reflexivity; discriminate. Qed.

Lemma print_track_summary_orderly tracks :
  emits_only (orderly self) (print_track_summary tracks).
Proof.
  unfold print_track_summary. destruct tracks as [|t0 tracks]; [now apply emits_emit |].
  apply emits_bind; [now apply emits_emit |]. intros _.
  apply emits_bind; [now apply emits_emit |]. intros _.
  apply emits_bind.
  - apply emits_for_each. intros entry.
    apply emits_bind; [now apply emits_emit |]. intros _.
    apply emits_bind; [now apply emits_emit |]. intros _.
    apply emits_bind; [now apply emits_emit |]. intros _.
    now apply emits_emit.
  - intros _. destruct (Nat.ltb _ _); [now apply emits_emit | apply emits_ret].
Qed.

Lemma print_track_summary_calm tracks :
  emits_only calm_event (print_track_summary tracks).
Proof.
  unfold print_track_summary. destruct tracks as [|t0 tracks]; [now apply emits_emit |].
  apply emits_bind; [now apply emits_emit |]. intros _.
  apply emits_bind; [now apply emits_emit |]. intros _.
  apply emits_bind.
  - apply emits_for_each. intros entry.
    apply emits_bind; [now apply emits_emit |]. intros _.
    apply emits_bind; [now apply emits_emit |]. intros _.
    apply emits_bind; [now apply emits_emit |]. intros _.
    now apply emits_emit.
  - intros _. destruct (Nat.ltb _ _); [now apply emits_emit | apply emits_ret].
Qed.

Lemma create_playlist_orderly today tracks :
  emits_only (orderly self) (create_playlist self today tracks).
Proof.
  unfold create_playlist. destruct tracks as [|t0 tracks].
  - apply emits_bind; [now apply emits_emit | intros _; apply emits_ret].
  - apply emits_try.
    + apply emits_bind.
      * apply emits_ask. cbn. now rewrite bool_decide_eq_true_2.
      * intros playlist. apply emits_bind.
        -- unfold add_batches. apply emits_for_each. intros i. now apply emits_ask.
        -- intros _. apply emits_bind; [now apply emits_emit |]. intros _.
           apply emits_bind; [now apply emits_emit | intros _; apply emits_ret].
    + intros e. apply emits_bind; [now apply emits_emit | intros _; apply emits_ret].
Qed.

Lemma create_playlist_total today tracks :
  total (create_playlist self today tracks).
Proof.
  unfold create_playlist. destruct tracks as [|t0 tracks].
  - apply total_bind; [apply total_print | intros _; apply total_ret].
  - apply total_try. intros e.
    apply total_bind; [apply total_print | intros _; apply total_ret].
Qed.

(** The shape of every run: the two opening lines, then events that are in
    order, then, if an exception reached the handler of [run], its report. *)
Lemma run_shape now today :
  exists body failure,
    run self now today tt =
      (Print Starting :: Print (Rule 50) :: body
         ++ match failure with
            | Some e => [Print (UnexpectedError e)]
            | None => []
            end,
       tt, Ok tt)
    /\ forallb (orderly self) body = true.
Proof.
  unfold run.
  match goal with
  | |- context [try_except ?b ?h] => set (body := b); set (handler := h)
  end.
  assert (Hb : emits_only (orderly self) body).
  { subst body. apply emits_bind.
    - apply emits_call. apply (emits_weaken reading_event); [apply reading_is_orderly |].
      apply get_followed_artists_reads.
    - intros followed. destruct followed as [|a followed]; [now apply emits_emit |].
      apply emits_bind.
      + apply emits_call. apply (emits_weaken reading_event); [apply reading_is_orderly |].
        apply get_similar_artists_reads.
      + intros similar. apply emits_bind.
        * apply emits_call.
          apply (emits_weaken reading_event); [apply reading_is_orderly |].
          apply get_recent_releases_reads.
        * intros recent. apply emits_bind; [apply print_track_summary_orderly |].
          intros _. destruct recent as [|t0 recent]; [now apply emits_emit |].
          apply emits_bind; [apply create_playlist_orderly |].
          intros pid. destruct (truthy pid); now apply emits_emit. }
  specialize (Hb tt).
  unfold bind, print, emit, try_except. cbn [fst snd].
  destruct (body tt) as [[tb []] [[] | e]]; cbn [trace fst snd] in Hb.
  - exists tb, None. split; [now rewrite app_nil_r | exact Hb].
  - exists tb, (Some e). subst handler. cbn. split; [reflexivity | exact Hb].
Qed.

(** [run] when the pages of followed artists cannot be fetched. *)
Lemma run_without_pages now today e :
  outcome (get_followed_artists self []) = Raise e ->
  run self now today tt =
    ((Print Starting :: Print (Rule 50) :: trace (get_followed_artists self []))
       ++ [Print (UnexpectedError e)], tt, Ok tt).
Proof.
  intros H. unfold run, bind, try_except, call, print, emit. cbn [fst snd].
  destruct (get_followed_artists self []) as [[t1 s1] r1]. cbn in H. subst r1.
  reflexivity.
Qed.

(** [run] when the cutoff cannot be computed. *)
Lemma run_without_cutoff now today followed similar e :
  outcome (get_followed_artists self []) = Ok followed ->
  followed <> [] ->
  outcome (get_similar_artists self (map artist_id followed) default_max_similar)
    = Ok similar ->
  Calendar.minus_days now (days_lookback self) = Raise e ->
  run self now today tt =
    ((Print Starting :: Print (Rule 50)
        :: trace (get_followed_artists self [])
        ++ trace (get_similar_artists self (map artist_id followed) default_max_similar)
        ++ [Print (CheckingReleases (days_lookback self))])
       ++ [Print (UnexpectedError e)], tt, Ok tt).
Proof.
  intros Hf Hne Hs Hc. unfold get_similar_artists in *.
  unfold run, bind, try_except, call, print, emit. cbn [fst snd].
  destruct (get_followed_artists self []) as [[t1 s1] r1]. cbn in Hf. subst r1.
  destruct followed as [|a followed]; [contradiction |].
  destruct (get_similar_artists_body self (map artist_id (a :: followed))
              default_max_similar ([], list_to_set (map artist_id (a :: followed))))
    as [[t2 s2] r2]. cbn in Hs. subst r2.
  unfold get_recent_releases_body, bind, print, emit. cbn [fst snd]. rewrite Hc.
  cbn. rewrite <- !app_assoc. reflexivity.
Qed.

(** [run] when tracks are found. *)
Lemma run_with_tracks now today followed similar final pid :
  outcome (get_followed_artists self []) = Ok followed ->
  followed <> [] ->
  outcome (get_similar_artists self (map artist_id followed) default_max_similar)
    = Ok similar ->
  outcome (get_recent_releases self now (followed ++ similar)) = Ok final ->
  final <> [] ->
  outcome (create_playlist self today final tt) = Ok pid ->
  run self now today tt =
    ((Print Starting :: Print (Rule 50)
        :: trace (get_followed_artists self [])
        ++ trace (get_similar_artists self (map artist_id followed) default_max_similar)
        ++ trace (get_recent_releases self now (followed ++ similar))
        ++ trace (print_track_summary final tt)
        ++ trace (create_playlist self today final tt))
       ++ [Print (if truthy pid then Success else FailedToCreate)], tt, Ok tt).
Proof.
  intros Hf Hne Hs Hr Hfinal Hp. unfold get_similar_artists, get_recent_releases in *.
  unfold run, bind, try_except, call, print, emit. cbn [fst snd].
  destruct (get_followed_artists self []) as [[t1 s1] r1]. cbn in Hf. subst r1.
  destruct followed as [|a followed]; [contradiction |].
  destruct (get_similar_artists_body self (map artist_id (a :: followed))
              default_max_similar ([], list_to_set (map artist_id (a :: followed))))
    as [[t2 s2] r2]. cbn in Hs. subst r2.
  destruct (get_recent_releases_body self now ((a :: followed) ++ similar) [])
    as [[t3 s3] r3]. cbn in Hr. subst r3.
  destruct final as [|t0 final]; [contradiction |].
  pose proof (print_track_summary_run (t0 :: final) ltac:(discriminate)) as Hsum.
  destruct (print_track_summary (t0 :: final) tt) as [[t4 []] r4].
  injection Hsum as _ ->.
  destruct (create_playlist self today (t0 :: final) tt) as [[t5 []] r5].
  cbn in Hp. subst r5. cbn [trace fst snd].
  destruct (truthy pid); cbn; rewrite ?app_nil_r, <- ?app_assoc; reflexivity.
Qed.

End RunFacts.

Lemma failed_track_lookup_abandons_artist_witness :
  let r := scan_artist Scenario.fragile_tool Sample.cutoff_date 1 (0, Scenario.Epsilon) [] in
  trace r = [Call (ArtistAlbums "e"); Call (AlbumTracks "e1"); Call (AlbumTracks "e2");
             Print (ReleaseError "Epsilon" (ApiError "tracks of e2"))]
  /\ map track_album (locals r) = ["Album e1"]
  /\ outcome r = Ok tt.
Proof.
  destruct (failed_track_lookup_abandons_artist Scenario.fragile_tool Sample.cutoff_date
              1 0 Scenario.Epsilon [Sample.album "e1" "2024-03-15"]
              [Sample.album "e3" "2024-03-17"] (Sample.album "e2" "2024-03-16")
              (Date 2024 3 16) (ApiError "tracks of e2") []
              eq_refl eq_refl eq_refl eq_refl eq_refl) as (H1 & H2 & H3).
  split; [exact H1 |]. split; [rewrite H2; reflexivity | exact H3].
Defined.

Lemma failed_creation_adds_nothing_witness :
  create_playlist Scenario.fragile_tool Sample.now [Sample.numbered 1] tt =
    ([Call (UserPlaylistCreate (playlist_request Scenario.fragile_tool Sample.now));
      Print (CreateError (ApiError "create"))], tt, Ok None).
Proof.
  exact (failed_creation_adds_nothing Scenario.fragile_tool Sample.now
           [Sample.numbered 1] (ApiError "create") ltac:(discriminate) eq_refl).
Defined.

Lemma failed_batch_stops_the_filling_witness :
  map length (added_batches
                (trace (create_playlist Scenario.half_tool Sample.now
                          Sample.hundred_and_fifty tt))) = [100; 50]
  /\ outcome (create_playlist Scenario.half_tool Sample.now
                Sample.hundred_and_fifty tt) = Ok None.
Proof.
  assert (Hok : forall j, In j [0] ->
            playlist_add_items (sp Scenario.half_tool) "p5"
              (slice (map track_uri Sample.hundred_and_fifty) j (j + 100)) = Ok tt).
  { intros j [<- | []]. reflexivity. }
  rewrite (failed_batch_stops_the_filling Scenario.half_tool Sample.now
             Sample.hundred_and_fifty {| playlist_id := "p5"; playlist_url := "url:p5" |}
             [0] [] 100 (ApiError "add") ltac:(discriminate) eq_refl eq_refl Hok eq_refl).
  split; reflexivity.
Defined.

(** X12.  [run] never lets an exception out: it always ends normally.  The
    report of an unexpected error, when there is one, is the last thing it
    prints.  Every playlist it asks for is private and is asked for the
    user the object holds in [user_id]. *)
Theorem run_always_ends_normally
    (self : MusicDiscoveryTool) (now today : datetime) :
  let r := run self now today tt in
  outcome r = Ok tt
  /\ (forall e, In (Print (UnexpectedError e)) (trace r) ->
                last (trace r) = Some (Print (UnexpectedError e)))
  /\ (forall request, In (Call (UserPlaylistCreate request)) (trace r) ->
                      req_user request = user_id self /\ req_public request = false).
Proof.
  intros r. subst r.
  destruct (run_shape self now today) as (body & failure & -> & Hb).
  cbn [outcome trace fst snd]. split; [reflexivity |].
  rewrite forallb_forall in Hb. split.
  - intros e [H | [H | H]]; [discriminate | discriminate |].
    apply in_app_or in H as [H | H]; [apply Hb in H; discriminate |].
    destruct failure as [e' |]; [| destruct H].
    destruct H as [H | []]. injection H as ->.
    change (Print Starting :: Print (Rule 50) :: body ++ [Print (UnexpectedError e)])
      with ((Print Starting :: Print (Rule 50) :: body) ++ [Print (UnexpectedError e)]).
    apply last_snoc.
  - intros request [H | [H | H]]; [discriminate | discriminate |].
    apply in_app_or in H as [H | H].
    + apply Hb in H. cbn in H. apply andb_prop in H as [Hu Hp].
      apply bool_decide_eq_true in Hu. apply negb_true_iff in Hp. now split.
    + destruct failure; [| destruct H]. destruct H as [H | []]. discriminate.
Qed.

(** X13.  When a page of followed artists cannot be fetched, [run] makes no
    other request: it reports the error of the page and ends. *)
Theorem failed_page_ends_the_run
    (self : MusicDiscoveryTool) (now today : datetime) (e : exn) :
  page_failure (current_user_followed_artists (sp self)) = Some e ->
  run self now today tt =
    (Print Starting :: Print (Rule 50) :: Print FetchingFollowed
       :: Call CurrentUserFollowedArtists
       :: repeat (Call Next) (page_requests (current_user_followed_artists (sp self)) - 1)
       ++ [Print (UnexpectedError e)],
     tt, Ok tt).
Proof.
  intros Hp.
  pose proof (get_followed_artists_run self) as Hrun. cbv zeta in Hrun.
  rewrite Hp in Hrun.
  rewrite (run_without_pages self now today e) by now rewrite Hrun.
  rewrite Hrun. cbn [trace fst snd app]. now rewrite app_nil_r.
Qed.

Lemma failed_page_ends_the_run_witness :
  run Scenario.fragile_tool Sample.now Sample.now tt =
    ([Print Starting; Print (Rule 50); Print FetchingFollowed;
      Call CurrentUserFollowedArtists; Call Next;
      Print (UnexpectedError (ApiError "page 2"))], tt, Ok tt).
Proof.
  exact (failed_page_ends_the_run Scenario.fragile_tool Sample.now Sample.now
           (ApiError "page 2") eq_refl).
Defined.

(** X14.  [get_recent_releases] raises [OverflowError] before any request
    exactly when the lookback is more than 999999999 days in either
    direction or the cutoff falls outside the calendar. *)
Theorem unrepresentable_cutoff_raises
    (self : MusicDiscoveryTool) (now : datetime) (artists : list Artist) :
  get_recent_releases self now artists =
    ([Print (CheckingReleases (days_lookback self))], [], Raise OverflowError)
  <-> (999999999 < Z.abs (days_lookback self)
       \/ ordinal now - days_lookback self <= 0
       \/ Calendar.MAXORDINAL < ordinal now - days_lookback self)%Z.
Proof.
  split.
  - intros H. apply (f_equal outcome) in H.
    rewrite get_recent_releases_outcome in H. cbn [outcome snd] in H.
    unfold Calendar.minus_days in H.
    destruct (Z.ltb_spec 999999999 (Z.abs (days_lookback self))); [now left |].
    destruct (Z.ltb_spec 0 (ordinal now - days_lookback self)); [| right; left; lia].
    destruct (Z.leb_spec (ordinal now - days_lookback self) Calendar.MAXORDINAL);
      [discriminate | right; right; lia].
  - intros H.
    assert (Hc : Calendar.minus_days now (days_lookback self) = Raise OverflowError).
    { unfold Calendar.minus_days.
      destruct (Z.ltb_spec 999999999 (Z.abs (days_lookback self))); [reflexivity |].
      destruct (Z.ltb_spec 0 (ordinal now - days_lookback self)); [| reflexivity].
      destruct (Z.leb_spec (ordinal now - days_lookback self) Calendar.MAXORDINAL);
        [lia | reflexivity]. }
    unfold get_recent_releases, get_recent_releases_body, bind, print, emit.
    cbn [fst snd]. rewrite Hc. reflexivity.
Qed.

(** X15.  When the cutoff cannot be computed, [run] has fetched the
    followed and the related artists, reports the error and ends: no album
    is asked for and no playlist is created. *)
Theorem unrepresentable_cutoff_ends_the_run
    (self : MusicDiscoveryTool) (now today : datetime)
    (followed similar : list Artist) (e : exn) :
  outcome (get_followed_artists self []) = Ok followed ->
  followed <> [] ->
  outcome (get_similar_artists self (map artist_id followed) default_max_similar)
    = Ok similar ->
  Calendar.minus_days now (days_lookback self) = Raise e ->
  let r := run self now today tt in
  last (trace r) = Some (Print (UnexpectedError e))
  /\ List.filter is_playlist_write (trace r) = []
  /\ (forall id, ~ In (Call (ArtistAlbums id)) (trace r)).
Proof.
  intros Hf Hne Hs Hc r. subst r.
  rewrite (run_without_cutoff self now today followed similar e Hf Hne Hs Hc).
  cbn [trace fst snd].
  pose proof (get_followed_artists_reads self []) as R1.
  pose proof (get_similar_artists_reads self (map artist_id followed)
                default_max_similar
                ([], list_to_set (map artist_id followed))) as R2.
  fold (get_similar_artists self (map artist_id followed) default_max_similar) in R2.
  set (t1 := trace (get_followed_artists self [])) in *.
  set (t2 := trace (get_similar_artists self (map artist_id followed)
                      default_max_similar)) in *.
  split; [apply last_snoc |]. split.
  - rewrite List.filter_app. cbn [List.filter is_playlist_write].
    rewrite !List.filter_app.
    rewrite (reading_not_writing t1 R1), (reading_not_writing t2 R2).
    reflexivity.
  - intros id Hin. apply in_app_or in Hin as [Hin | [Hin | []]]; [| discriminate].
    destruct Hin as [Hin | [Hin | Hin]]; [discriminate | discriminate |].
    apply in_app_or in Hin as [Hin | Hin].
    + subst t1. pose proof (get_followed_artists_run self) as Hrun. cbv zeta in Hrun.
      rewrite Hrun in Hin. cbn [trace fst snd] in Hin.
      destruct Hin as [Hin | [Hin | Hin]]; [discriminate | discriminate |].
      apply in_app_or in Hin as [Hin | Hin].
      * apply repeat_spec in Hin. discriminate.
      * destruct (page_failure _); [destruct Hin |]. destruct Hin as [Hin | []].
        discriminate.
    + apply in_app_or in Hin as [Hin | [Hin | []]]; [| discriminate].
      subst t2. rewrite get_similar_artists_run in Hin. cbn [trace fst snd] in Hin.
      destruct Hin as [Hin | Hin]; [discriminate |].
      apply in_app_or in Hin as [Hin | [Hin | []]]; [| discriminate].
      assert (Hq : forall t, In (Call (ArtistAlbums id)) t ->
                     forallb (fun ev => match ev with
                                        | Call (ArtistAlbums _) => false
                                        | _ => true
                                        end) t = true -> False).
      { intros t Ht Hall. rewrite forallb_forall in Hall. apply Hall in Ht. discriminate. }
      apply (Hq _ Hin).
      apply (emits_for_each (fun ev => match ev with
                                       | Call (ArtistAlbums _) => false
                                       | _ => true
                                       end)).
      intros entry. unfold expand. apply emits_try.
      * apply emits_bind; [now apply emits_ask |]. intros related.
        apply emits_bind; [| intros _; now apply emits_emit].
        apply emits_for_each. intros a. unfold consider.
        apply emits_bind; [apply emits_get |]. intros st.
        destruct (_ && _); [apply emits_put | apply emits_ret].
      * intros e'. now apply emits_emit.
Qed.

Lemma unrepresentable_cutoff_ends_the_run_witness :
  let r := run Scenario.ancient_tool Sample.now Sample.now tt in
  last (trace r) = Some (Print (UnexpectedError OverflowError))
  /\ List.filter is_playlist_write (trace r) = [].
Proof.
  assert (Hs : outcome (get_similar_artists Scenario.ancient_tool
                          (map artist_id [Sample.Alpha; Sample.Beta])
                          default_max_similar)
               = Ok [Sample.Gamma; Sample.Delta]) by (vm_compute; reflexivity).
  destruct (unrepresentable_cutoff_ends_the_run Scenario.ancient_tool Sample.now
              Sample.now [Sample.Alpha; Sample.Beta] [Sample.Gamma; Sample.Delta]
              OverflowError eq_refl ltac:(discriminate) Hs eq_refl) as (H1 & H2 & _).
  split; assumption.
Defined.

Lemma calm_adds_nothing t : forallb calm_event t = true -> added_batches t = [].
Proof.
  induction t as [|e t IH]; [reflexivity |]. cbn [forallb].
  intros H. apply andb_prop in H as [He Ht].
  destruct e as [m | []]; cbn in *; try (now apply IH); discriminate.
Qed.

Lemma writes_of_calls pid (batches : list (list string)) :
  List.filter is_playlist_write
    (map (fun b => Call (PlaylistAddItems pid b)) batches)
  = map (fun b => Call (PlaylistAddItems pid b)) batches.
Proof. induction batches as [|b l IH]; cbn; [reflexivity | now rewrite IH]. Qed.

(** X16.  When tracks are found and the service answers the publisher,
    [run] creates one playlist, adds to it the references of the tracks
    [get_recent_releases] returned, all of them and in their order, adds
    nothing else, and ends on the message of success. *)
Theorem published_playlist_holds_the_ranked_tracks
    (self : MusicDiscoveryTool) (now today : datetime)
    (followed similar : list Artist) (final : list TrackInfo) (playlist : Playlist) :
  outcome (get_followed_artists self []) = Ok followed ->
  followed <> [] ->
  outcome (get_similar_artists self (map artist_id followed) default_max_similar)
    = Ok similar ->
  outcome (get_recent_releases self now (followed ++ similar)) = Ok final ->
  final <> [] ->
  user_playlist_create (sp self) (playlist_request self today) = Ok playlist ->
  (forall batch, playlist_add_items (sp self) (playlist_id playlist) batch = Ok tt) ->
  playlist_id playlist <> EmptyString ->
  let r := run self now today tt in
  last (trace r) = Some (Print Success)
  /\ concat (added_batches (trace r)) = map track_uri final
  /\ List.filter is_playlist_write (trace r)
     = Call (UserPlaylistCreate (playlist_request self today))
         :: map (fun b => Call (PlaylistAddItems (playlist_id playlist) b))
                (added_batches (trace r)).
Proof.
  intros Hf Hne Hs Hr Hfinal Hcreate Hadd Hid r. subst r.
  pose proof (create_playlist_succeeds self today final playlist Hfinal Hcreate Hadd)
    as Hrun.
  assert (Hp : outcome (create_playlist self today final tt)
               = Ok (Some (playlist_id playlist))) by now rewrite Hrun.
  rewrite (run_with_tracks self now today followed similar final _ Hf Hne Hs Hr Hfinal Hp).
  assert (Htruthy : truthy (Some (playlist_id playlist)) = true).
  { cbn. destruct (playlist_id playlist); [contradiction | reflexivity]. }
  rewrite Htruthy. cbn [trace fst snd].
  pose proof (reading_is_calm _ (get_followed_artists_reads self [])) as C1.
  pose proof (reading_is_calm _ (get_similar_artists_reads self (map artist_id followed)
                default_max_similar ([], list_to_set (map artist_id followed)))) as C2.
  pose proof (reading_is_calm _ (get_recent_releases_reads self now
                (followed ++ similar) [])) as C3.
  pose proof (print_track_summary_calm final tt) as C4.
  fold (get_similar_artists self (map artist_id followed) default_max_similar) in C2.
  fold (get_recent_releases self now (followed ++ similar)) in C3.
  set (t1 := trace (get_followed_artists self [])) in *.
  set (t2 := trace (get_similar_artists self (map artist_id followed)
                      default_max_similar)) in *.
  set (t3 := trace (get_recent_releases self now (followed ++ similar))) in *.
  set (t4 := trace (print_track_summary final tt)) in *.
  rewrite Hrun. cbn [trace fst snd].
  set (batches := map (fun i => slice (map track_uri final) i (i + 100))
                      (range_step (length (map track_uri final)) 100)).
  assert (Hb : added_batches
                 ((Print Starting :: Print (Rule 50)
                     :: t1 ++ t2 ++ t3 ++ t4
                     ++ Call (UserPlaylistCreate (playlist_request self today))
                     :: map (fun b => Call (PlaylistAddItems (playlist_id playlist) b))
                            batches
                     ++ [Print (CreatedPlaylist (playlist_prefix self) today (length final));
                         Print (PlaylistUrl (playlist_url playlist))])
                    ++ [Print Success]) = batches).
  { rewrite added_batches_app. cbn [added_batches].
    rewrite !added_batches_app.
    rewrite (calm_adds_nothing t1 C1), (calm_adds_nothing t2 C2),
            (calm_adds_nothing t3 C3), (calm_adds_nothing t4 C4).
    cbn [added_batches app]. rewrite added_batches_app, added_batches_calls.
    cbn. now rewrite !app_nil_r. }
  split; [apply last_snoc |]. split.
  - rewrite Hb. unfold batches. apply batches_concat. lia.
  - rewrite Hb. rewrite List.filter_app. cbn [List.filter is_playlist_write].
    rewrite !List.filter_app.
    rewrite (calm_not_writing t1 C1), (calm_not_writing t2 C2),
            (calm_not_writing t3 C3), (calm_not_writing t4 C4).
    cbn [List.filter is_playlist_write app]. rewrite List.filter_app, writes_of_calls.
    cbn. now rewrite !app_nil_r.
Qed.

Lemma published_playlist_holds_the_ranked_tracks_witness :
  let r := run Sample.tool Sample.now Sample.now tt in
  last (trace r) = Some (Print Success)
  /\ concat (added_batches (trace r)) = ["uri:c1"; "uri:a1"; "uri:d1"].
Proof.
  assert (Hs : outcome (get_similar_artists Sample.tool
                          (map artist_id [Sample.Alpha; Sample.Beta])
                          default_max_similar)
               = Ok [Sample.Gamma; Sample.Delta]) by (vm_compute; reflexivity).
  assert (Hr : outcome (get_recent_releases Sample.tool Sample.now
                          ([Sample.Alpha; Sample.Beta] ++ [Sample.Gamma; Sample.Delta]))
               = Ok [track_info Sample.Gamma (Sample.album "c1" "2024-03-18")
                       (Sample.only_track "c1");
                     track_info Sample.Alpha (Sample.album "a1" "2024-03-15")
                       (Sample.only_track "a1");
                     track_info Sample.Delta (Sample.album "d1" "2024-03-15")
                       (Sample.only_track "d1")]) by (vm_compute; reflexivity).
  destruct (published_playlist_holds_the_ranked_tracks Sample.tool Sample.now Sample.now
              [Sample.Alpha; Sample.Beta] [Sample.Gamma; Sample.Delta] _
              {| playlist_id := "p1"; playlist_url := "url:p1" |}
              eq_refl ltac:(discriminate) Hs Hr ltac:(discriminate) eq_refl
              (fun _ => eq_refl) ltac:(discriminate)) as (H1 & H2 & _).
  split; [exact H1 |]. rewrite H2. reflexivity.
Defined.

(** ** Start-up *)

Section Startup.
Variable int : string -> result Z.
Variable env : Environment.
Variable account : Account.
Variables now today : datetime.

Let credentials : bool :=
  set_and_not_empty (SPOTIFY_CLIENT_ID env)
  && set_and_not_empty (SPOTIFY_CLIENT_SECRET env)
  && set_and_not_empty (SPOTIFY_REDIRECT_URI env).

Lemma setup_without_credentials :
  credentials = false ->
  setup_spotify_client env account = ([Say (SetupError ValueError)], None).
Proof.
  intros H. unfold setup_spotify_client, setup_body. fold credentials.
  rewrite H. reflexivity.
Qed.

Lemma setup_rejected e :
  credentials = true -> current_user account = Raise e ->
  setup_spotify_client env account = ([CallCurrentUser; Say (SetupError e)], None).
Proof.
  intros H He. unfold setup_spotify_client, setup_body. fold credentials.
  rewrite H, He. reflexivity.
Qed.

Lemma setup_accepted user_info :
  credentials = true -> current_user account = Ok user_info ->
  setup_spotify_client env account =
    ([CallCurrentUser; Say (Authenticated (display_name user_info))],
     Some (user_info_id user_info)).
Proof.
  intros H He. unfold setup_spotify_client, setup_body. fold credentials.
  rewrite H, He. reflexivity.
Qed.

(** The object that [__init__] builds holds no user. *)
Lemma built_tool_has_no_user t tool :
  __init__ int env account = (t, inr tool) -> user_id tool = None.
Proof.
  unfold __init__. destruct (setup_spotify_client env account) as [t0 [uid |]];
    [| discriminate].
  destruct (getenv_int int (DAYS_LOOKBACK env) 7); [| discriminate].
  destruct (getenv_int int (MAX_TRACKS_PER_PLAYLIST env) 50); [| discriminate].
  intros H. injection H as _ <-. reflexivity.
Qed.

Lemma built_tool_was_authenticated t tool :
  __init__ int env account = (t, inr tool) ->
  credentials = true
  /\ exists user_info,
       current_user account = Ok user_info
       /\ t = [CallCurrentUser; Say (Authenticated (display_name user_info))].
Proof.
  unfold __init__, setup_spotify_client, setup_body. fold credentials.
  destruct credentials; cbn [negb]; [| discriminate].
  destruct (current_user account) as [user_info | e]; [| discriminate].
  destruct (getenv_int int (DAYS_LOOKBACK env) 7); [| discriminate].
  destruct (getenv_int int (MAX_TRACKS_PER_PLAYLIST env) 50); [| discriminate].
  intros H. injection H as <- _. split; [reflexivity |]. now exists user_info.
Qed.

End Startup.

(** X17.  [main] contacts the service only if the file [.env] exists and
    the three credentials are set and not empty. *)
Theorem no_contact_without_credentials
    (int : string -> result Z) (env : Environment) (account : Account)
    (now today : datetime) (e : startup_event) :
  In e (main int env account now today).1 ->
  contacts_service e = true ->
  env_file_exists env = true
  /\ set_and_not_empty (SPOTIFY_CLIENT_ID env) = true
  /\ set_and_not_empty (SPOTIFY_CLIENT_SECRET env) = true
  /\ set_and_not_empty (SPOTIFY_REDIRECT_URI env) = true.
Proof.
  unfold main. destruct (env_file_exists env); cbn [negb].
  2:{ cbn. intros [<- | [<- | [<- | [<- | [<- | []]]]]]; discriminate. }
  intros Hin He.
  destruct (set_and_not_empty (SPOTIFY_CLIENT_ID env)
            && set_and_not_empty (SPOTIFY_CLIENT_SECRET env)
            && set_and_not_empty (SPOTIFY_REDIRECT_URI env)) eqn:Hc.
  - apply andb_prop in Hc as [Hc H3]. apply andb_prop in Hc as [H1 H2]. now repeat split.
  - exfalso. unfold __init__ in Hin.
    rewrite (setup_without_credentials env account Hc) in Hin. cbn in Hin.
    destruct Hin as [<- | [<- | [<- | []]]]; discriminate.
Qed.

Lemma no_contact_without_credentials_witness :
  env_file_exists Scenario.env = true
  /\ set_and_not_empty (SPOTIFY_CLIENT_ID Scenario.env) = true
  /\ set_and_not_empty (SPOTIFY_CLIENT_SECRET Scenario.env) = true
  /\ set_and_not_empty (SPOTIFY_REDIRECT_URI Scenario.env) = true.
Proof.
  apply (no_contact_without_credentials Scenario.int Scenario.env Scenario.account
           Sample.now Sample.now CallCurrentUser).
  - vm_compute. right. right. now left.
  - reflexivity.
Defined.

(** X18.  When a credential is missing or empty, or when the service
    rejects [current_user()], the process reports the error and ends with
    status 1; [run] is never started. *)
Theorem failed_setup_exits_with_status_1
    (int : string -> result Z) (env : Environment) (account : Account)
    (now today : datetime) :
  env_file_exists env = true ->
  (set_and_not_empty (SPOTIFY_CLIENT_ID env)
   && set_and_not_empty (SPOTIFY_CLIENT_SECRET env)
   && set_and_not_empty (SPOTIFY_REDIRECT_URI env) = false
   \/ exists e, current_user account = Raise e) ->
  let r := main int env account now today in
  r.2 = Exited 1
  /\ (exists e, last r.1 = Some (Say (SetupError e)))
  /\ (forall ev, ~ In (Running ev) r.1).
Proof.
  intros Hfile Hfail r. subst r. unfold main, __init__. rewrite Hfile. cbn [negb].
  destruct (set_and_not_empty (SPOTIFY_CLIENT_ID env)
            && set_and_not_empty (SPOTIFY_CLIENT_SECRET env)
            && set_and_not_empty (SPOTIFY_REDIRECT_URI env)) eqn:Hc.
  - destruct Hfail as [Hfail | [e He]]; [discriminate |].
    rewrite (setup_rejected env account e Hc He). cbn.
    split; [reflexivity |]. split; [now exists e |].
    intros ev [H | [H | [H | [H | []]]]]; discriminate.
  - rewrite (setup_without_credentials env account Hc). cbn.
    split; [reflexivity |]. split; [now exists ValueError |].
    intros ev [H | [H | [H | []]]]; discriminate.
Qed.

Lemma failed_setup_exits_with_status_1_witness :
  main Scenario.int Scenario.env_with_empty_secret Scenario.account Sample.now Sample.now
  = ([Say Banner; Say Tagline; Say (SetupError ValueError)], Exited 1).
Proof.
  destruct (failed_setup_exits_with_status_1 Scenario.int Scenario.env_with_empty_secret
              Scenario.account Sample.now Sample.now eq_refl (or_introl eq_refl))
    as (H & _).
  reflexivity.
Defined.

(** X19.  When [DAYS_LOOKBACK] or [MAX_TRACKS_PER_PLAYLIST] is set to a text
    that [int] refuses, the exception is raised in [__init__] after the
    user was authenticated; nothing catches it, and [run] is never
    started. *)
Theorem bad_setting_crashes_after_authentication
    (int : string -> result Z) (env : Environment) (account : Account)
    (now today : datetime) (user_info : UserInfo) (e : exn) :
  env_file_exists env = true ->
  set_and_not_empty (SPOTIFY_CLIENT_ID env)
  && set_and_not_empty (SPOTIFY_CLIENT_SECRET env)
  && set_and_not_empty (SPOTIFY_REDIRECT_URI env) = true ->
  current_user account = Ok user_info ->
  (getenv_int int (DAYS_LOOKBACK env) 7 = Raise e
   \/ ((exists days, getenv_int int (DAYS_LOOKBACK env) 7 = Ok days)
       /\ getenv_int int (MAX_TRACKS_PER_PLAYLIST env) 50 = Raise e)) ->
  main int env account now today =
    ([Say Banner; Say Tagline; CallCurrentUser;
      Say (Authenticated (display_name user_info))], Crashed e).
Proof.
  intros Hfile Hc Hu Hbad. unfold main, __init__. rewrite Hfile. cbn [negb].
  rewrite (setup_accepted env account user_info Hc Hu).
  destruct Hbad as [H | [[days Hd] H]].
  - rewrite H. reflexivity.
  - rewrite Hd, H. reflexivity.
Qed.

Lemma bad_setting_crashes_after_authentication_witness :
  main Scenario.int Scenario.env_with_bad_setting Scenario.account Sample.now Sample.now
  = ([Say Banner; Say Tagline; CallCurrentUser; Say (Authenticated "Me")],
     Crashed ValueError).
Proof.
  exact (bad_setting_crashes_after_authentication Scenario.int
           Scenario.env_with_bad_setting Scenario.account Sample.now Sample.now
           {| user_info_id := "me"; display_name := "Me" |} ValueError
           eq_refl eq_refl eq_refl (or_introl eq_refl)).
Defined.

(** X20.  [__init__] stores [None] in [user_id] after
    [setup_spotify_client] has stored the identifier of the authenticated
    user there: every request of [main] that creates a playlist names no
    user, although a user was authenticated; it asks for a private
    playlist. *)
Theorem playlists_are_created_for_no_user
    (int : string -> result Z) (env : Environment) (account : Account)
    (now today : datetime) (request : PlaylistRequest) :
  In (Running (Call (UserPlaylistCreate request))) (main int env account now today).1 ->
  req_user request = None
  /\ req_public request = false
  /\ exists user_info, current_user account = Ok user_info.
Proof.
  unfold main. destruct (env_file_exists env); cbn [negb].
  2:{ cbn. intros [H | [H | [H | [H | [H | []]]]]]; discriminate. }
  destruct (__init__ int env account) as [t [ending | tool]] eqn:Hinit.
  - unfold __init__ in Hinit.
    destruct (setup_spotify_client env account) as [t0 [uid |]] eqn:Hsetup.
    + unfold setup_spotify_client, setup_body in Hsetup.
      destruct (negb _); [discriminate |].
      destruct (current_user account) as [user_info | e']; [| discriminate].
      injection Hsetup as <- _.
      destruct (getenv_int int (DAYS_LOOKBACK env) 7);
        [destruct (getenv_int int (MAX_TRACKS_PER_PLAYLIST env) 50); [discriminate |] |];
        injection Hinit as <- _; cbn;
        intros [H | [H | [H | [H | []]]]]; discriminate.
    + unfold setup_spotify_client, setup_body in Hsetup.
      injection Hinit as <- _.
      destruct (negb _).
      * injection Hsetup as <-. cbn. intros [H | [H | [H | []]]]; discriminate.
      * destruct (current_user account) as [user_info | e']; [discriminate |].
        injection Hsetup as <-. cbn. intros [H | [H | [H | [H | []]]]]; discriminate.
  - cbn [fst]. intros Hin.
    destruct (built_tool_was_authenticated int env account t tool Hinit)
      as (_ & user_info & Hu & ->).
    pose proof (built_tool_has_no_user int env account _ tool Hinit) as Hnone.
    destruct Hin as [H | [H | [H | [H | Hin]]]]; try discriminate.
    apply in_map_iff in Hin as (ev & Hev & Hin). injection Hev as ->.
    destruct (run_shape tool now today) as (body & failure & Hrun & Hb).
    rewrite Hrun in Hin. cbn [trace fst snd] in Hin.
    rewrite forallb_forall in Hb.
    destruct Hin as [H | [H | Hin]]; [discriminate | discriminate |].
    apply in_app_or in Hin as [Hin | Hin].
    + apply Hb in Hin. cbn in Hin. apply andb_prop in Hin as [Hu' Hp].
      apply bool_decide_eq_true in Hu'. apply negb_true_iff in Hp.
      rewrite Hnone in Hu'. split; [exact Hu' |]. split; [exact Hp |].
      now exists user_info.
    + destruct failure; [| destruct Hin]. destruct Hin as [H | []]. discriminate.
Qed.

Lemma playlists_are_created_for_no_user_witness :
  req_user (playlist_request (init Sample.client 14 50 "Weekly Discoveries") Sample.now)
  = None
  /\ exists user_info, current_user Scenario.account = Ok user_info.
Proof.
  destruct (playlists_are_created_for_no_user Scenario.int Scenario.env Scenario.account
              Sample.now Sample.now
              (playlist_request (init Sample.client 14 50 "Weekly Discoveries") Sample.now))
    as (H1 & _ & H3).
  - vm_compute. repeat (first [left; reflexivity | right]).
  - split; assumption.
Defined.

(** ** What a normalised date can be *)

Section NormalisedDates.
Import Strptime.
Local Open Scope Z_scope.

Lemma between_code lo hi c :
  Str.between lo hi c = true -> Str.code lo <= Str.code c <= Str.code hi.
Proof. unfold Str.between. intros H. apply andb_prop in H as [H1 H2]. lia. Qed.

Lemma digit_value_range c :
  Str.is_digit c = true -> 0 <= Str.digit_value c <= 9.
Proof.
  intros H. apply between_code in H. unfold Str.digit_value.
  change (Str.code "0") with 48 in H. change (Str.code "9") with 57 in H. lia.
Qed.

Lemma is_char_code c a : is_char c a = true -> Str.code a = Str.code c.
Proof. unfold is_char. intros H. apply Ascii.eqb_eq in H. now subst. Qed.

Lemma group_Y_value s v r : In (v, r) (group_Y s) -> 0 <= v <= 9999.
Proof.
  unfold group_Y. destruct s as [|a [|b [|c [|d s]]]]; try (intros []).
  destruct (Str.is_digit a) eqn:Ha; [| intros []].
  destruct (Str.is_digit b) eqn:Hb; [| intros []].
  destruct (Str.is_digit c) eqn:Hc; [| intros []].
  destruct (Str.is_digit d) eqn:Hd; [| intros []].
  cbn [andb]. intros [E | []]. injection E as <- _.
  apply digit_value_range in Ha, Hb, Hc, Hd. lia.
Qed.

Lemma two_chars_value p q s v r :
  In (v, r) (two_chars p q s) ->
  exists a b, p a = true /\ q b = true /\ v = 10 * Str.digit_value a + Str.digit_value b.
Proof.
  unfold two_chars. destruct s as [|a [|b s]]; try (intros []).
  destruct (p a) eqn:Hp; [| intros []]. destruct (q b) eqn:Hq; [| intros []].
  cbn [andb]. intros [E | []]. injection E as <- _. now exists a, b.
Qed.

Lemma one_char_value p s v r :
  In (v, r) (one_char p s) -> exists a, p a = true /\ v = Str.digit_value a.
Proof.
  unfold one_char. destruct s as [|a s]; [intros [] |].
  destruct (p a) eqn:Hp; [| intros []].
  intros [E | []]. injection E as <- _. now exists a.
Qed.

Lemma blank_then_value q s v r :
  In (v, r) (blank_then q s) -> exists b, q b = true /\ v = Str.digit_value b.
Proof.
  unfold blank_then. destruct s as [|a [|b s]]; try (intros []).
  destruct (Ascii.eqb a " "); [| intros []]. destruct (q b) eqn:Hq; [| intros []].
  cbn [andb]. intros [E | []]. injection E as <- _. now exists b.
Qed.

Ltac codes :=
  repeat match goal with
         | H : is_char _ _ = true |- _ => apply is_char_code in H
         | H : Str.between _ _ _ = true |- _ => apply between_code in H
         | H : Str.is_digit _ = true |- _ => apply between_code in H
         end;
  unfold Str.digit_value in *;
  repeat match goal with
         | H : context [Str.code (Ascii ?a ?b ?c ?d ?e ?f ?g ?h)] |- _ =>
             let n := eval vm_compute in (Str.code (Ascii a b c d e f g h)) in
             change (Str.code (Ascii a b c d e f g h)) with n in H
         end.

Lemma group_m_value s v r : In (v, r) (group_m s) -> 1 <= v <= 12.
Proof.
  unfold group_m. rewrite !in_app_iff. intros [H | [H | H]].
  - apply two_chars_value in H as (a & b & Ha & Hb & ->). codes. lia.
  - apply two_chars_value in H as (a & b & Ha & Hb & ->). codes. lia.
  - apply one_char_value in H as (a & Ha & ->). codes. lia.
Qed.

Lemma group_d_value s v r : In (v, r) (group_d s) -> 1 <= v <= 31.
Proof.
  unfold group_d. rewrite !in_app_iff. intros [H | [H | [H | [H | H]]]].
  - apply two_chars_value in H as (a & b & Ha & Hb & ->). codes. lia.
  - apply two_chars_value in H as (a & b & Ha & Hb & ->). codes. lia.
  - apply two_chars_value in H as (a & b & Ha & Hb & ->). codes. lia.
  - apply one_char_value in H as (a & Ha & ->). codes. lia.
  - apply blank_then_value in H as (b & Hb & ->). codes. lia.
Qed.

Lemma pattern_value s d r :
  In (d, r) (pattern s) ->
  0 <= year d <= 9999 /\ 1 <= month d <= 12 /\ 1 <= day d <= 31.
Proof.
  unfold pattern, seq_match, pure_match. intros H.
  apply in_flat_map in H as [[y s1] [HY H]].
  apply in_flat_map in H as [[u1 s2] [H1 H]].
  apply in_flat_map in H as [[m s3] [Hm H]].
  apply in_flat_map in H as [[u2 s4] [H2 H]].
  apply in_flat_map in H as [[dd s5] [Hd H]].
  destruct H as [E | []]. injection E as <- _. cbn [year month day].
  apply group_Y_value in HY. apply group_m_value in Hm. apply group_d_value in Hd.
  lia.
Qed.

(** The parser answers dates of the calendar only. *)
Lemma strptime_valid s d : strptime s = Some d -> valid_date d.
Proof.
  unfold strptime. intros H.
  destruct (pattern s) as [|[d0 r] rest] eqn:E; [discriminate |].
  destruct r; [| discriminate].
  assert (Hin : In (d0, EmptyString) (pattern s)) by (rewrite E; now left).
  apply pattern_value in Hin as (Hy & Hm & Hd).
  unfold Calendar.MINYEAR in H.
  destruct (Z.ltb_spec (year d0) 1); [discriminate |].
  destruct (Z.ltb_spec (Calendar.days_in_month (year d0) (month d0)) (day d0));
    [discriminate |].
  injection H as <-. unfold valid_date. lia.
Qed.

(** The match of the text after the year, for a text that ends in "-01". *)
Lemma group_Y_rest a b c e rest v r :
  In (v, r) (group_Y (String a (String b (String c (String e rest))))) -> r = rest.
Proof.
  unfold group_Y.
  destruct (Str.is_digit a && Str.is_digit b && Str.is_digit c && Str.is_digit e);
    [| intros []].
  intros [E | []]. now injection E as _ <-.
Qed.

Lemma literal_rest c f rest u r :
  In (u, r) (literal c (String f rest)) -> r = rest.
Proof.
  unfold literal. destruct (Ascii.eqb f c); [| intros []].
  intros [E | []]. now injection E as _ <-.
Qed.

Lemma group_m_rest g h rest v r :
  In (v, r) (group_m (String g (String h rest))) -> r = rest \/ r = String h rest.
Proof.
  unfold group_m, two_chars, one_char. rewrite !in_app_iff.
  intros [H | [H | H]].
  - destruct (_ && _); [| destruct H]. destruct H as [E | []]. left. now injection E as _ <-.
  - destruct (_ && _); [| destruct H]. destruct H as [E | []]. left. now injection E as _ <-.
  - destruct (Str.between "1" "9" g); [| destruct H]. destruct H as [E | []].
    right. now injection E as _ <-.
Qed.

(** A text of four characters followed by "-01-01" is read, if at all, as
    a first of January. *)
Lemma first_of_january a b c e d :
  strptime (String a (String b (String c (String e "-01-01")))) = Some d ->
  month d = 1 /\ day d = 1.
Proof.
  unfold strptime. intros H.
  destruct (pattern _) as [|[d0 r] rest] eqn:E; [discriminate |].
  destruct r; [| discriminate].
  assert (Hin : In (d0, EmptyString)
                  (pattern (String a (String b (String c (String e "-01-01"))))))
    by (rewrite E; now left).
  assert (Hday : month d0 = 1 /\ day d0 = 1).
  { clear E H. unfold pattern, seq_match, pure_match in Hin.
    apply in_flat_map in Hin as [[y s1] [HY Hin]].
    apply in_flat_map in Hin as [[u1 s2] [H1 Hin]].
    apply in_flat_map in Hin as [[m s3] [Hm Hin]].
    apply in_flat_map in Hin as [[u2 s4] [H2 Hin]].
    apply in_flat_map in Hin as [[dd s5] [Hd Hin]].
    destruct Hin as [Ed | []]. injection Ed as <- ->. cbn [month day].
    apply group_Y_rest in HY. subst s1.
    apply literal_rest in H1. subst s2.
    vm_compute in Hm. destruct Hm as [Em | []]. injection Em as <- <-.
    vm_compute in H2. destruct H2 as [E2 | []]. injection E2 as _ <-.
    vm_compute in Hd. destruct Hd as [Ed | []]. injection Ed as <-.
    now split. }
  destruct (_ <? _); [discriminate |]. destruct (_ <? _); [discriminate |].
  injection H as <-. exact Hday.
Qed.

(** A text of seven characters followed by "-01" is read, if at all, as
    the first day of a month. *)
Lemma first_of_month a b c e f g h d :
  strptime (String a (String b (String c (String e
              (String f (String g (String h "-01"))))))) = Some d ->
  day d = 1.
Proof.
  unfold strptime. intros H.
  destruct (pattern _) as [|[d0 r] rest] eqn:E; [discriminate |].
  destruct r; [| discriminate].
  assert (Hin : In (d0, EmptyString)
                  (pattern (String a (String b (String c (String e
                              (String f (String g (String h "-01")))))))))
    by (rewrite E; now left).
  assert (Hday : day d0 = 1).
  { clear E H. unfold pattern, seq_match, pure_match in Hin.
    apply in_flat_map in Hin as [[y s1] [HY Hin]].
    apply in_flat_map in Hin as [[u1 s2] [H1 Hin]].
    apply in_flat_map in Hin as [[m s3] [Hm Hin]].
    apply in_flat_map in Hin as [[u2 s4] [H2 Hin]].
    apply in_flat_map in Hin as [[dd s5] [Hd Hin]].
    destruct Hin as [Ed | []]. injection Ed as <- ->. cbn [day].
    apply group_Y_rest in HY. subst s1.
    apply literal_rest in H1. subst s2.
    apply group_m_rest in Hm. destruct Hm as [-> | ->].
    - apply literal_rest in H2. subst s4.
      vm_compute in Hd. destruct Hd as [Ed | []]. now injection Ed as <-.
    - apply literal_rest in H2. subst s4.
      vm_compute in Hd. destruct Hd. }
  destruct (_ <? _); [discriminate |]. destruct (_ <? _); [discriminate |].
  injection H as <-. exact Hday.
Qed.

End NormalisedDates.

(** X21.  Whatever the release-date string, a date that the normalisation
    binds is a date of the calendar, between the years 1 and 9999; for a
    string of four characters it is a first of January, and for a string of
    seven characters the first day of a month. *)
Theorem normalized_dates_are_calendar_dates (s : string) (d : date) :
  normalize_release_date s = Normalized d ->
  valid_date d
  /\ (String.length s = 4 -> month d = 1%Z /\ day d = 1%Z)
  /\ (String.length s = 7 -> day d = 1%Z).
Proof.
  unfold normalize_release_date.
  destruct (Strptime.strptime s) as [d0 |] eqn:E.
  - intros H. injection H as <-.
    pose proof (StrptimeFacts.strptime_length s d0 E) as Hlen.
    split; [now apply strptime_valid with s |]. split; intros; lia.
  - destruct (Nat.eqb_spec (String.length s) 4) as [H4 | H4].
    + destruct (Strptime.strptime (s ++ "-01-01")) as [d1 |] eqn:E1; [| discriminate].
      intros H. injection H as <-.
      split; [now apply strptime_valid with (s ++ "-01-01")%string |].
      split; [| intros; lia]. intros _.
      destruct s as [|a [|b [|c [|e [|x s]]]]]; try discriminate H4.
      now apply (first_of_january a b c e).
    + destruct (Nat.eqb_spec (String.length s) 7) as [H7 | H7]; [| discriminate].
      destruct (Strptime.strptime (s ++ "-01")) as [d1 |] eqn:E1; [| discriminate].
      intros H. injection H as <-.
      split; [now apply strptime_valid with (s ++ "-01")%string |].
      split; [intros; lia |]. intros _.
      destruct s as [|a [|b [|c [|e [|f [|g [|h [|x s]]]]]]]]; try discriminate H7.
      now apply (first_of_month a b c e f g h).
Qed.

Lemma normalized_dates_are_calendar_dates_witness :
  valid_date (Date 2024 1 1)
  /\ (String.length "2024" = 4 -> month (Date 2024 1 1) = 1%Z /\ day (Date 2024 1 1) = 1%Z)
  /\ (String.length "2024" = 7 -> day (Date 2024 1 1) = 1%Z).
Proof.
  apply (normalized_dates_are_calendar_dates "2024" (Date 2024 1 1)).
  reflexivity.
Defined.

(** ** The requests of the scan *)

Lemma album_queries_app t1 t2 :
  album_queries (t1 ++ t2) = album_queries t1 ++ album_queries t2.
Proof.
  induction t1 as [|e t1 IH]; [reflexivity |].
  destruct e as [m | []]; cbn; rewrite ?IH; reflexivity.
Qed.

Lemma no_album_queries t :
  forallb not_album_query t = true -> album_queries t = [].
Proof.
  induction t as [|e t IH]; [reflexivity |].
  cbn [forallb]. intros H. apply andb_prop in H as [He Ht].
  destruct e as [m | []]; cbn in *; try discriminate; now apply IH.
Qed.

Section ScanRequests.
Variable self : MusicDiscoveryTool.
Variable cutoff_date : datetime.

Lemma scan_album_asks_for_no_albums artist album :
  emits_only not_album_query (scan_album self cutoff_date artist album).
Proof.
  unfold scan_album.
  destruct (normalize_release_date _); [| apply emits_ret | apply emits_raise].
  destruct (Calendar.datetime_ge _ _); [| apply emits_ret].
  apply emits_bind; [now apply emits_ask |]. intros tracks.
  apply emits_for_each. intros track.
  apply emits_bind; [apply emits_get | intros l; apply emits_put].
Qed.

(** The scan of an artist asks once for albums, those of the artist. *)
Lemma scan_artist_queries n i artist st :
  album_queries (trace (scan_artist self cutoff_date n (i, artist) st))
  = [artist_id artist].
Proof.
  unfold scan_artist, try_except, bind, ask. cbn [fst snd].
  destruct (artist_albums (sp self) (artist_id artist)) as [albums | e'];
    [| reflexivity].
  pose proof (emits_for_each not_album_query albums _
                (scan_album_asks_for_no_albums artist) st) as H.
  apply no_album_queries in H.
  destruct (for_each albums _ st) as [[t l] [[] | e']]; cbn [trace fst snd] in H.
  - destruct (Nat.eqb ((i + 1) mod 10) 0); cbn [print emit ret trace fst snd app];
      cbn [album_queries]; rewrite !album_queries_app, H; reflexivity.
  - cbn [print emit ret trace fst snd app album_queries].
    rewrite !album_queries_app, H. reflexivity.
Qed.

Lemma scan_queries n k artists st :
  album_queries
    (trace (for_each (enumerate_from k artists) (scan_artist self cutoff_date n) st))
  = map artist_id artists.
Proof.
  revert k st. induction artists as [|x artists IH]; intros k st; [reflexivity |].
  cbn [enumerate_from].
  rewrite for_each_cons_total by apply scan_artist_total.
  cbn [trace fst snd map]. rewrite album_queries_app, scan_artist_queries, IH.
  reflexivity.
Qed.

End ScanRequests.

(** X23.  Once the cutoff is computed, [get_recent_releases] asks for the
    albums of every artist it is given, once each and in the order given,
    whatever fails on the way; when the cutoff cannot be computed it asks
    for none. *)
Theorem every_artist_is_asked_once
    (self : MusicDiscoveryTool) (now : datetime) (artists : list Artist) :
  album_queries (trace (get_recent_releases self now artists))
  = match Calendar.minus_days now (days_lookback self) with
    | Ok _ => map artist_id artists
    | Raise _ => []
    end.
Proof.
  unfold get_recent_releases, get_recent_releases_body, bind, print, emit, get, ret.
  cbn [fst snd].
  destruct (Calendar.minus_days now (days_lookback self)) as [c | e]; [| reflexivity].
  pose proof (scan_artists_outcome self c artists []) as Ho.
  pose proof (scan_queries self c (length artists) 0 artists []) as Hq.
  fold (enumerate artists) in Hq. fold (scan_artists self c artists) in Hq.
  destruct (scan_artists self c artists []) as [[t l] r].
  cbn [outcome trace fst snd] in *. subst r.
  cbn [trace fst snd app album_queries].
  rewrite !album_queries_app, Hq. cbn. now rewrite app_nil_r.
Qed.

(** X24.  When the followed artists have pairwise distinct identifiers, so
    have the artists [run] scans: the followed artists and, after them, the
    similar artists [get_similar_artists] returned. *)
Theorem candidate_artists_are_distinct
    (self : MusicDiscoveryTool) (followed similar : list Artist) (max_similar : Z) :
  NoDup (map artist_id followed) ->
  outcome (get_similar_artists self (map artist_id followed) max_similar) = Ok similar ->
  NoDup (map artist_id (followed ++ similar)).
Proof.
  intros Hf Hs. rewrite get_similar_artists_run in Hs.
  cbn [outcome fst snd] in Hs. injection Hs as <-.
  pose proof (preserves_for_each _ (enumerate (take 10 (map artist_id followed))) _
                (expand_kept self (map artist_id followed) max_similar
                   (Nat.min 10 (length (map artist_id followed))))
                _ (kept_initially (map artist_id followed) max_similar))
    as (Hnd & _ & Hnew & _ & _).
  rewrite map_app. apply NoDup_app. split; [exact Hf |]. split; [| exact Hnd].
  intros x Hx Hx'. apply list_elem_of_In in Hx, Hx'.
  apply in_map_iff in Hx' as (a & <- & Ha). exact (Hnew a Ha Hx).
Qed.

Lemma candidate_artists_are_distinct_witness :
  NoDup (map artist_id ([Sample.Alpha; Sample.Beta] ++ [Sample.Gamma; Sample.Delta])).
Proof.
  assert (Hs : outcome (get_similar_artists Sample.tool
                          (map artist_id [Sample.Alpha; Sample.Beta])
                          default_max_similar)
               = Ok [Sample.Gamma; Sample.Delta]) by (vm_compute; reflexivity).
  apply (candidate_artists_are_distinct Sample.tool [Sample.Alpha; Sample.Beta]
           [Sample.Gamma; Sample.Delta] default_max_similar); [| exact Hs].
  cbn. repeat constructor; set_solver.
Defined.

(** X25.  The process ends in one of three ways and each has one cause.  It
    exits, then with status 1 and because a credential is missing or empty
    or the service rejected [current_user()].  An exception leaves [main]
    only when [int] refuses the text of [DAYS_LOOKBACK] or of
    [MAX_TRACKS_PER_PLAYLIST], after the user was authenticated.  In every
    other case [main] returns: the file [.env] is missing, or the object
    was built and [run] has ended. *)
Theorem process_ends_for_one_cause
    (int : string -> result Z) (env : Environment) (account : Account)
    (now today : datetime) :
  match (main int env account now today).2 with
  | Returned =>
      env_file_exists env = false
      \/ exists t tool, __init__ int env account = (t, inr tool)
  | Exited status =>
      status = 1%Z
      /\ env_file_exists env = true
      /\ (set_and_not_empty (SPOTIFY_CLIENT_ID env)
          && set_and_not_empty (SPOTIFY_CLIENT_SECRET env)
          && set_and_not_empty (SPOTIFY_REDIRECT_URI env) = false
          \/ exists e, current_user account = Raise e)
  | Crashed e =>
      env_file_exists env = true
      /\ (exists user_info, current_user account = Ok user_info)
      /\ exists text,
           (DAYS_LOOKBACK env = Some text \/ MAX_TRACKS_PER_PLAYLIST env = Some text)
           /\ int text = Raise e
  end.
Proof.
  unfold main. destruct (env_file_exists env); cbn [negb snd]; [| now left].
  unfold __init__, setup_spotify_client, setup_body.
  destruct (set_and_not_empty (SPOTIFY_CLIENT_ID env)
            && set_and_not_empty (SPOTIFY_CLIENT_SECRET env)
            && set_and_not_empty (SPOTIFY_REDIRECT_URI env)); cbn [negb snd].
  2:{ split; [reflexivity |]. split; [reflexivity |]. now left. }
  destruct (current_user account) as [user_info | e]; cbn [snd].
  2:{ split; [reflexivity |]. split; [reflexivity |]. right. now exists e. }
  destruct (getenv_int int (DAYS_LOOKBACK env) 7) as [days | e] eqn:Ed; cbn [snd].
  2:{ split; [reflexivity |]. split; [now exists user_info |].
      unfold getenv_int in Ed. destruct (DAYS_LOOKBACK env) as [text |];
        [| discriminate].
      exists text. split; [now left | exact Ed]. }
  destruct (getenv_int int (MAX_TRACKS_PER_PLAYLIST env) 50) as [maximum | e] eqn:Em;
    cbn [snd].
  2:{ split; [reflexivity |]. split; [now exists user_info |].
      unfold getenv_int in Em. destruct (MAX_TRACKS_PER_PLAYLIST env) as [text |];
        [| discriminate].
      exists text. split; [now right | exact Em]. }
  match goal with
  | |- context [run ?tool now today tt] =>
      destruct (run_shape tool now today) as (body & failure & -> & _)
  end.
  cbn [outcome snd]. right. eauto.
Qed.
